(** * Medication Buddy: the memory-first responder, its model gateway,
      the event store and the medication checker

    A shallow embedding of the Python sources

    - [tools/medcheck_tool.py]   ([medcheck]),
    - [memory/memory_bank.py]    ([append_user_event], [get_user_memory]),
    - [agents/convo_agent.py]    ([call_gemini], [search_memory],
                                  [summarize_events], [respond_with_memory_first],
                                  [handle_uploaded_document]),

    followed by the properties of these functions.

    Conventions of the embedding.

    - A Python [str] is a Rocq [string].  Character classes and case
      mappings are those Python applies to ASCII text (code points below
      128); other characters are neither whitespace nor word characters
      and have no case.
    - A Python value that can sit in an event or in a decoded HTTP body is a
      [json] value; a [dict] is an association list in insertion order, a
      [float] a binary64 value.  The store of the memory bank is a finite
      map, a Python [set] a finite set.
    - An exception is a [Raise] result; a [try/except] is a [match] on it.
    - Functions of the Python runtime whose output no property below
      depends on ([repr], [json.dumps], [time.strftime] over
      [time.localtime]), the network and the clock are inputs: the fields
      of a [host] record and the [now] arguments.
    - Calls to the structured logger only write a log line and are left out. *)

From Stdlib Require Import ZArith String Ascii List Bool Lia.
From Corelib Require Import SpecFloat.
From stdpp Require Import gmap strings list fin_maps pretty.

Set Warnings "-register-all".
Local Open Scope string_scope.

(** ** Python strings *)

Module PyStr.

(** The line feed, written ["\n"] in the sources. *)
Definition nl : string := String (ascii_of_nat 10) EmptyString.

(** [str.isspace] on one ASCII character: TAB..CR, FS..US and SPACE. *)
Definition is_space (c : ascii) : bool :=
  let n := nat_of_ascii c in
  (((9 <=? n) && (n <=? 13)) || ((28 <=? n) && (n <=? 32)))%nat.

(** The class [\w] on one ASCII character: letters, digits, underscore. *)
Definition is_word (c : ascii) : bool :=
  let n := nat_of_ascii c in
  (((48 <=? n) && (n <=? 57)) || ((65 <=? n) && (n <=? 90))
   || (n =? 95) || ((97 <=? n) && (n <=? 122)))%nat.

Definition lower_char (c : ascii) : ascii :=
  let n := nat_of_ascii c in
  if ((65 <=? n) && (n <=? 90))%nat then ascii_of_nat (n + 32) else c.

Definition upper_char (c : ascii) : ascii :=
  let n := nat_of_ascii c in
  if ((97 <=? n) && (n <=? 122))%nat then ascii_of_nat (n - 32) else c.

Fixpoint map_chars (f : ascii -> ascii) (s : string) : string :=
  match s with
  | EmptyString => EmptyString
  | String c s' => String (f c) (map_chars f s')
  end.

(** [s.lower()] and [s.upper()]. *)
Definition lower : string -> string := map_chars lower_char.
Definition upper : string -> string := map_chars upper_char.

(** [s[:n]]. *)
Fixpoint slice_to (n : nat) (s : string) : string :=
  match n, s with
  | S n', String c s' => String c (slice_to n' s')
  | _, _ => EmptyString
  end.

(** [needle in hay] on strings. *)
Fixpoint contains (needle hay : string) : bool :=
  String.prefix needle hay ||
  match hay with
  | EmptyString => false
  | String _ hay' => contains needle hay'
  end.

(** [sep.join(parts)]. *)
Definition join (sep : string) (parts : list string) : string :=
  String.concat sep parts.

Fixpoint lstrip (s : string) : string :=
  match s with
  | EmptyString => EmptyString
  | String c s' => if is_space c then lstrip s' else s
  end.

Fixpoint rstrip (s : string) : string :=
  match s with
  | EmptyString => EmptyString
  | String c s' =>
      match rstrip s' with
      | EmptyString => if is_space c then EmptyString else String c EmptyString
      | r => String c r
      end
  end.

(** [s.strip()]. *)
Definition strip (s : string) : string := lstrip (rstrip s).

(** [s.rstrip("/")], used on the endpoint. *)
Fixpoint rstrip_slash (s : string) : string :=
  match s with
  | EmptyString => EmptyString
  | String c s' =>
      match rstrip_slash s' with
      | EmptyString => if Ascii.eqb c "/" then EmptyString else String c EmptyString
      | r => String c r
      end
  end.

(** [re.findall(r"\w+", s)]: the maximal runs of word characters, left to
    right.  When [in_word] holds, the head of the result continues the
    token that is being read. *)
Fixpoint word_runs (in_word : bool) (s : string) : list string :=
  match s with
  | EmptyString => if in_word then [EmptyString] else []
  | String c s' =>
      if is_word c then
        match word_runs true s' with
        | w :: ws => String c w :: ws
        | [] => [String c EmptyString]
        end
      else if in_word then EmptyString :: word_runs false s'
      else word_runs false s'
  end.

Definition findall_words (s : string) : list string := word_runs false s.

(** The separators of [re.split(r"[,\n;]+", s)]. *)
Definition is_sep (c : ascii) : bool :=
  Ascii.eqb c "," || Ascii.eqb c (ascii_of_nat 10) || Ascii.eqb c ";".

(** [re.split(r"[,\n;]+", s)]: a run of separators ends the current
    fragment; the head of the result is the fragment being read.
    [after_sep] holds while inside a run of separators. *)
Fixpoint split_runs (after_sep : bool) (s : string) : list string :=
  match s with
  | EmptyString => [EmptyString]
  | String c s' =>
      if is_sep c then
        if after_sep then split_runs true s'
        else EmptyString :: split_runs true s'
      else
        match split_runs false s' with
        | f :: fs => String c f :: fs
        | [] => [String c EmptyString]
        end
  end.

Definition re_split_seps (s : string) : list string := split_runs false s.

(** No character of [s] is a separator. *)
Fixpoint no_sep (s : string) : bool :=
  match s with
  | EmptyString => true
  | String c s' => negb (is_sep c) && no_sep s'
  end.

(** Every character of [s] is a word character. *)
Fixpoint all_word (s : string) : bool :=
  match s with
  | EmptyString => true
  | String c s' => is_word c && all_word s'
  end.

(** No character of [s] is a word character. *)
Fixpoint no_word (s : string) : bool :=
  match s with
  | EmptyString => true
  | String c s' => negb (is_word c) && no_word s'
  end.

(** Every character of [s] is whitespace. *)
Fixpoint all_space (s : string) : bool :=
  match s with
  | EmptyString => true
  | String c s' => is_space c && all_space s'
  end.

(** [marker] occurs in [text] when the case of letters is ignored: some
    slice of [text] has [marker] as its upper-case form. *)
Definition occurs_ignoring_case (marker text : string) : Prop :=
  exists before mid after,
    text = before ++ mid ++ after /\ upper mid = marker.

End PyStr.

(** ** tools/medcheck_tool.py *)

Module MedCheck.

(** "meds: list of dicts with keys 'name' and optional 'time' (HH:MM)". *)
Record med := { name : string; time : option string }.

(** The dictionaries appended to [flags]. *)
Inductive flag :=
| timing_conflict (time : string) (meds : list string)
| interaction (pair : list string) (severity note : string).

(** [m.get("time", "00:00")]. *)
Definition time_of (m : med) : string :=
  match time m with
  | Some t => t
  | None => "00:00"
  end.

(** [times.setdefault(t, []).append(n)] on a dict kept in insertion order. *)
Fixpoint setdefault_append (t n : string) (times : list (string * list string))
  : list (string * list string) :=
  match times with
  | [] => [(t, [n])]
  | (t', ns) :: rest =>
      if String.eqb t' t then (t', (ns ++ [n])%list) :: rest
      else (t', ns) :: setdefault_append t n rest
  end.

(** One turn of the first loop of [medcheck]. *)
Definition step (times : list (string * list string)) (m : med)
  : list (string * list string) :=
  setdefault_append (time_of m) (name m) times.

(** The first loop of [medcheck]. *)
Definition group_by_time (meds : list med) : list (string * list string) :=
  fold_left step meds [].

(** The second loop of [medcheck]. *)
Definition timing_flags (times : list (string * list string)) : list flag :=
  flat_map (fun '(t, names_at_time) =>
              if (1 <? length names_at_time)%nat
              then [timing_conflict t names_at_time] else []) times.

(** ["X" in names]. *)
Definition name_in (x : string) (names : list string) : bool :=
  existsb (String.eqb x) names.

Definition medcheck (meds : list med) : list flag :=
  let names := map name meds in
  let flags := timing_flags (group_by_time meds) in
  let flags :=
    if name_in "Warfarin" names && name_in "Aspirin" names
    then (flags ++ [interaction ["Warfarin"; "Aspirin"] "high" "Bleeding risk"])%list
    else flags in
  let flags :=
    if name_in "Metformin" names && name_in "Contrast" names
    then (flags ++ [interaction ["Metformin"; "Contrast"] "moderate"
                      "Consider holding Metformin around contrast imaging"])%list
    else flags in
  flags.

(** Selectors used to state the properties of the flag list. *)
Definition is_timing_conflict (f : flag) : bool :=
  match f with timing_conflict _ _ => true | _ => false end.

Definition is_timing_conflict_at (t : string) (f : flag) : bool :=
  match f with timing_conflict t' _ => String.eqb t' t | _ => false end.

(** The names, in list order, of the entries whose time reads [t]. *)
Definition names_at (t : string) (meds : list med) : list string :=
  map name (List.filter (fun m => String.eqb (time_of m) t) meds).

Definition assoc (t : string) (times : list (string * list string))
  : option (list string) :=
  option_map snd (List.find (fun p => String.eqb (fst p) t) times).

(** An entry without a [time] key. *)
Definition no_time (m : med) : bool :=
  match time m with None => true | Some _ => false end.

End MedCheck.

(** ** Python values and exceptions *)

Module Py.

(** A Python [float]: a binary64 value, in the representation of the
    IEEE 754 specification (sign, mantissa, exponent). *)
Definition float : Type := spec_float.

(** [0.0]. *)
Definition float_zero : float := S754_zero false.

(** [f != 0.0]: both zeros are false, every other value, NaN included, is
    true. *)
Definition float_nonzero (f : float) : bool :=
  match f with
  | S754_zero _ => false
  | _ => true
  end.

(** A decoded JSON document, which is also the shape of every value that
    reaches an event.  [JNull] is Python's [None]. *)
Inductive json :=
| JNull
| JBool (b : bool)
| JInt (z : Z)
| JFloat (f : float)
| JStr (s : string)
| JList (items : list json)
| JDict (fields : list (string * json)).

(** An event is a [dict] with string keys, in insertion order. *)
Definition event := list (string * json).

Inductive exn := AttributeError | TypeError | KeyError | IndexError.

Inductive result (A : Type) :=
| Ok (a : A)
| Raise (e : exn).
Arguments Ok {A} a.
Arguments Raise {A} e.

Definition bind {A B} (r : result A) (k : A -> result B) : result B :=
  match r with
  | Ok a => k a
  | Raise e => Raise e
  end.

Fixpoint mapM {A B} (f : A -> result B) (l : list A) : result (list B) :=
  match l with
  | [] => Ok []
  | x :: l' => bind (f x) (fun y => bind (mapM f l') (fun ys => Ok (y :: ys)))
  end.

(** The truth value of [v] in [if v], [not v], [v or w]. *)
Definition truthy (v : json) : bool :=
  match v with
  | JNull => false
  | JBool b => b
  | JInt z => negb (z =? 0)%Z
  | JFloat f => float_nonzero f
  | JStr s => negb (String.eqb s "")
  | JList items => match items with [] => false | _ => true end
  | JDict fields => match fields with [] => false | _ => true end
  end.

(** [a or b]. *)
Definition py_or (a b : json) : json := if truthy a then a else b.

Fixpoint dict_lookup (k : string) (d : list (string * json)) : option json :=
  match d with
  | [] => None
  | (k', v) :: d' => if String.eqb k' k then Some v else dict_lookup k d'
  end.

(** [k in d]. *)
Definition dict_has (k : string) (d : list (string * json)) : bool :=
  match dict_lookup k d with Some _ => true | None => false end.

(** [d.get(k, dflt)] and [d.get(k)]. *)
Definition dict_get_default (k : string) (dflt : json) (d : list (string * json)) : json :=
  match dict_lookup k d with Some v => v | None => dflt end.

Definition dict_get (k : string) (d : list (string * json)) : json :=
  dict_get_default k JNull d.

(** [d.setdefault(k, v)], for its effect on [d]. *)
Definition dict_setdefault (k : string) (v : json) (d : list (string * json))
  : list (string * json) :=
  if dict_has k d then d else (d ++ [(k, v)])%list.

(** [v.get(k)] on an arbitrary value: only a [dict] has the method. *)
Definition attr_get (v : json) (k : string) : result json :=
  match v with
  | JDict fields => Ok (dict_get k fields)
  | _ => Raise AttributeError
  end.

(** [v[0]]. *)
Definition index0 (v : json) : result json :=
  match v with
  | JList (x :: _) => Ok x
  | JList [] => Raise IndexError
  | JStr (String c _) => Ok (JStr (String c EmptyString))
  | JStr EmptyString => Raise IndexError
  | JDict _ => Raise KeyError
  | _ => Raise TypeError
  end.

Fixpoint chars (s : string) : list json :=
  match s with
  | EmptyString => []
  | String c s' => JStr (String c EmptyString) :: chars s'
  end.

(** The elements visited by [for x in v]. *)
Definition py_iter (v : json) : result (list json) :=
  match v with
  | JList items => Ok items
  | JStr s => Ok (chars s)
  | JDict fields => Ok (map (fun p => JStr (fst p)) fields)
  | _ => Raise TypeError
  end.

(** [v[:n]]; slicing a [dict] raises as well (a [KeyError] from 3.12 on). *)
Definition py_slice_to (n : nat) (v : json) : result json :=
  match v with
  | JList items => Ok (JList (take n items))
  | JStr s => Ok (JStr (PyStr.slice_to n s))
  | _ => Raise TypeError
  end.

(** The items of [sep.join(items)], which must all be strings. *)
Definition as_str (v : json) : result string :=
  match v with
  | JStr s => Ok s
  | _ => Raise TypeError
  end.

Definition join_values (sep : string) (items : list json) : result string :=
  bind (mapM as_str items) (fun parts => Ok (PyStr.join sep parts)).

(** [v == "literal"]. *)
Definition str_eq (v : json) (lit : string) : bool :=
  match v with
  | JStr s => String.eqb s lit
  | _ => false
  end.

(** [{**base, **extra}]: the keys of [base] keep their place and take the
    value [extra] gives them, the new keys of [extra] follow in their
    order. *)
Fixpoint dict_set (k : string) (v : json) (d : list (string * json))
  : list (string * json) :=
  match d with
  | [] => [(k, v)]
  | (k', v') :: d' =>
      if String.eqb k' k then (k', v) :: d' else (k', v') :: dict_set k v d'
  end.

Definition dict_merge (base extra : list (string * json)) : list (string * json) :=
  fold_left (fun acc p => dict_set (fst p) (snd p) acc) extra base.

(** [d[k]]. *)
Definition dict_item (k : string) (d : list (string * json)) : result json :=
  match dict_lookup k d with
  | Some v => Ok v
  | None => Raise KeyError
  end.

(** [l[:n]] for an integer [n]: a negative [n] counts from the end. *)
Definition py_take {A} (n : Z) (l : list A) : list A :=
  if (0 <=? n)%Z then take (Z.to_nat n) l
  else take (length l - Z.to_nat (- n)) l.

End Py.

Import Py.

Notation "'let*' x ':=' e 'in' k" := (Py.bind e (fun x => k))
  (at level 10, x name, e at level 100, k at level 200).

(** ** memory/memory_bank.py *)

Module MemoryBank.

(** The object: the path of the backing file and the loaded store, a
    mapping from user identifier to that user's list of events.
    [_save] rewrites the file from [store] and leaves [store] as it is. *)
Record t := { path : string; store : gmap string (list event) }.

(** [append_user_event(self, user_id, event)]; [now] is the value of
    [time.time()] read by the call. *)
Definition append_user_event (self : t) (user_id : string) (ev : event) (now : float) : t :=
  (* self.store.setdefault(user_id, []) *)
  let store1 :=
    match store self !! user_id with
    | Some _ => store self
    | None => <[user_id := []]> (store self)
    end in
  (* event = dict(event); event.setdefault("recorded_at", time.time()) *)
  let ev' := dict_setdefault "recorded_at" (JFloat now) ev in
  (* self.store[user_id].append(event) *)
  {| path := path self;
     store := alter (fun events => (events ++ [ev'])%list) user_id store1 |}.

(** [get_user_memory(self, user_id)]: [self.store.get(user_id, [])]. *)
Definition get_user_memory (self : t) (user_id : string) : list event :=
  match store self !! user_id with
  | Some events => events
  | None => []
  end.

(** The fields the data model asks of every event. *)
Definition has_required_fields (ev : event) : bool :=
  dict_has "user_id" ev && dict_has "recorded_at" ev.

Definition all_events_have_required_fields (self : t) : Prop :=
  forall user_id ev,
    In ev (get_user_memory self user_id) -> has_required_fields ev = true.

(** A bank whose store is empty, as loaded from a fresh file. *)
Definition fresh (p : string) : t := {| path := p; store := ∅ |}.

(** [clear_user_memory(self, user_id)]: the returned flag and the bank as
    the call leaves it. *)
Definition clear_user_memory (self : t) (user_id : string) : bool * t :=
  match store self !! user_id with
  | Some _ => (true, {| path := path self; store := delete user_id (store self) |})
  | None => (false, self)
  end.

(** The test [isinstance(e, dict) and e.get("user_id") == user_id]. *)
Definition event_of (user_id : string) (e : json) : bool :=
  match e with
  | JDict fields => str_eq (dict_get "user_id" fields) user_id
  | _ => false
  end.

(** The three cases of [get_user_events] on the decoded file. *)
Definition events_in_document (data : json) (user_id : string) : list json :=
  let nested :=
    match data with
    | JDict fields =>
        flat_map (fun p =>
                    match snd p with
                    | JList items => List.filter (event_of user_id) items
                    | _ => []
                    end) fields
    | _ => []
    end in
  match data with
  | JDict fields =>
      match dict_lookup user_id fields with
      | Some (JList items) => items                        (* case A *)
      | _ => nested                                        (* case C *)
      end
  | JList items => List.filter (event_of user_id) items    (* case B *)
  | _ => nested
  end.

(** [get_user_events(self, user_id)].  [file] is the text of the file at
    [self.path], [None] when opening or reading it raises; [json_loads] is
    [json.loads], [None] when it raises. *)
Definition get_user_events (json_loads : string -> option json)
    (file : option string) (user_id : string) : list json :=
  match file with
  | None => []
  | Some text =>
      let raw := PyStr.strip text in
      if String.eqb raw "" then []
      else
        match json_loads raw with
        | None => []
        | Some data => events_in_document data user_id
        end
  end.

(** The document [_save] writes for the store, up to the order of its
    keys: an object that maps every stored user to the list of that user's
    events and has no other key. *)
Definition mirrors (self : t) (data : json) : Prop :=
  exists fields,
    data = JDict fields
    /\ List.NoDup (map fst fields)
    /\ forall user_id,
         dict_lookup user_id fields
         = option_map (fun events : list event => JList (map JDict events))
             (store self !! user_id).

End MemoryBank.

(** ** agents/convo_agent.py *)

Module ConvoAgent.

Import PyStr.

Definition DEFAULT_MAX_OUTPUT_TOKENS : Z := 512.

(** The default of the [temperature] argument, 0.2 rounded to binary64:
    [0x1.999999999999ap-3]. *)
Definition DEFAULT_TEMPERATURE : float := S754_finite false 0x1999999999999a (-55).

(** What [requests.post] is given and what it answers. *)
Record request := {
  url : string;
  x_goog_api_key : string;
  prompt_text : string;
  maxOutputTokens : Z;
  temperature : float
}.

(** [json_body] is [None] when [resp.json()] raises. *)
Record response := { status_code : Z; json_body : option json }.

Inductive post_outcome :=
| PostRaises
| PostReturns (resp : response).

(** The environment of the agent.
    - [py_repr v] is [repr(v)], which is what [str(v)] and an f-string
      give for a value that is not a [str];
    - [json_dumps v] is [json.dumps(v)];
    - [strftime_local ts] is
      [time.strftime("%Y-%m-%d %H:%M", time.localtime(float(ts)))],
      [None] when that expression raises;
    - [requests_post] is the network;
    - [extract_keywords] is [tools.docs_processor.extract_keywords], whose
      result is cut out of a [set] in iteration order. *)
Record host := {
  py_repr : json -> string;
  json_dumps : json -> string;
  strftime_local : json -> option string;
  requests_post : request -> post_outcome;
  extract_keywords : string -> list string
}.

(** [str(v)], also the rendering of [{v}] in an f-string. *)
Definition py_str (h : host) (v : json) : string :=
  match v with
  | JStr s => s
  | _ => py_repr h v
  end.

(** The fields of [self]; the logger is left out. *)
Record agent := {
  GEMINI_API_KEY : option string;
  GEMINI_ENDPOINT : string;
  GEMINI_MODEL : string;
  memory : MemoryBank.t
}.

(** [self.GEMINI_API_KEY] when it is truthy: [not self.GEMINI_API_KEY]
    holds for [None] and for the empty string. *)
Definition configured_key (self : agent) : option string :=
  match GEMINI_API_KEY self with
  | Some k => if String.eqb k "" then None else Some k
  | None => None
  end.

(** *** call_gemini *)

(** The body of the nested [extract_text], inside its [try]:
    [Ok (Some v)] is [return v], [Ok None] reaches the final [return None]. *)
Definition first_part_text (parts : json) : result (option json) :=
  if truthy parts then
    let* first := index0 parts in
    match first with
    | JDict fields =>
        if dict_has "text" fields then Ok (Some (dict_get "text" fields)) else Ok None
    | JStr _ => Ok (Some first)
    | _ => Ok None
    end
  else Ok None.

Definition candidate_text (candidates : json) : result (option json) :=
  if truthy candidates then
    let* c0 := index0 candidates in
    let* content0 := attr_get c0 "content" in
    let content := py_or content0 (JDict []) in
    let* parts0 := attr_get content "parts" in
    let parts := py_or parts0 (JList []) in
    let* r := first_part_text parts in
    match r with
    | Some v => Ok (Some v)
    | None =>
        let* output := attr_get c0 "output" in
        match output with
        | JStr _ => Ok (Some output)
        | _ => Ok None
        end
    end
  else Ok None.

(** The texts collected from one element of [messages]. *)
Definition message_texts (m : json) : result (list json) :=
  let* content0 := attr_get m "content" in
  let* cs := py_iter (py_or content0 (JList [])) in
  Ok (flat_map (fun c =>
                  match c with
                  | JDict fields =>
                      if dict_has "text" fields then [dict_get "text" fields] else []
                  | _ => []
                  end) cs).

Definition messages_text (d : list (string * json)) : result (option json) :=
  if dict_has "messages" d then
    let* ms := py_iter (dict_get_default "messages" (JList []) d) in
    let* texts := mapM message_texts ms in
    match concat texts with
    | [] => Ok None
    | ts => let* joined := join_values nl ts in Ok (Some (JStr joined))
    end
  else Ok None.

Definition extract_text_try (d : json) : result (option json) :=
  let* candidates0 := attr_get d "candidates" in
  let* r := candidate_text (py_or candidates0 (JList [])) in
  match r, d with
  | Some v, _ => Ok (Some v)
  | None, JDict fields =>
      match dict_lookup "output_text" fields with
      | Some (JStr s) => Ok (Some (JStr s))
      | _ => messages_text fields
      end
  | None, _ => Ok None
  end.

(** [extract_text(d)]: any exception and the last line give [None]. *)
Definition extract_text (d : json) : json :=
  match extract_text_try d with
  | Ok (Some v) => v
  | Ok None => JNull
  | Raise _ => JNull
  end.

Definition truncation_note : string :=
  nl ++ nl ++ "---" ++ nl
  ++ "(Note: model truncated by MAX_TOKENS; consider raising max_output_tokens)".

Definition MODEL_TRUNCATED : string :=
  "MODEL_TRUNCATED: Increase max_output_tokens. Partial candidate logged.".

(** [cand0 = (body_json.get("candidates") or [None])[0]]. *)
Definition first_candidate (body_json : json) : result json :=
  let* candidates := attr_get body_json "candidates" in
  index0 (py_or candidates (JList [JNull])).

(** The [try] block after [extract_text]: [Some v] is [return v], [None]
    leaves the block, by its end or by [except Exception: pass]. *)
Definition truncation_reply (body_json out : json) : option json :=
  match first_candidate body_json with
  | Ok (JDict fields) =>
      if truthy (JDict fields) && str_eq (dict_get "finishReason" fields) "MAX_TOKENS"
      then
        if truthy out then
          match out with
          | JStr s => Some (JStr (s ++ truncation_note))
          | _ => None       (* [out + "..."] raises TypeError *)
          end
        else Some (JStr MODEL_TRUNCATED)
      else None
  | _ => None
  end.

(** The [url], [headers] and [payload] handed to [requests.post]. *)
Definition gemini_request (self : agent) (key prompt : string)
    (max_output_tokens : Z) (temp : float) : request :=
  let base := rstrip_slash (GEMINI_ENDPOINT self) in
  {| url := base ++ "/" ++ GEMINI_MODEL self ++ ":generateContent";
     x_goog_api_key := key;
     prompt_text := prompt;
     maxOutputTokens := max_output_tokens;
     temperature := temp |}.

Definition call_gemini (h : host) (self : agent) (prompt : string)
    (max_output_tokens : Z) (temp : float) : json :=
  match configured_key self with
  | None => JStr ("SIMULATED MODEL RESPONSE: " ++ (slice_to 200 prompt ++ "..."))
  | Some key =>
      match requests_post h (gemini_request self key prompt max_output_tokens temp) with
      | PostRaises => JStr "SIMULATED MODEL RESPONSE (request error)."
      | PostReturns resp =>
          let body_json := match json_body resp with Some j => j | None => JNull end in
          if negb (status_code resp =? 200)%Z || negb (truthy body_json)
          then JStr "SIMULATED MODEL RESPONSE (API error). See logs."
          else
            let out := extract_text body_json in
            match truncation_reply body_json out with
            | Some reply => reply
            | None =>
                if truthy out then out
                else JStr "SIMULATED MODEL RESPONSE (unparseable). See logs."
            end
      end
  end.

(** *** search_memory *)

(** [[t.lower() for t in re.findall(r"\w+", query) if len(t) > 2][:10]]. *)
Definition query_tokens (query : string) : list string :=
  take 10 (map lower
             (List.filter (fun t => (2 <? String.length t)%nat) (findall_words query))).

(** The test made on one event: some token occurs in
    [json.dumps(ev).lower()]. *)
Definition event_matches (h : host) (q_tokens : list string) (ev : event) : bool :=
  let s := lower (json_dumps h (JDict ev)) in
  existsb (fun t => contains t s) q_tokens.

(** The loop over [reversed(events)], with [matches] as built so far. *)
Fixpoint search_loop (h : host) (q_tokens : list string) (max_results : Z)
    (evs : list event) (matches : list event) : list event :=
  match evs with
  | [] => matches
  | ev :: rest =>
      let matches' :=
        if event_matches h q_tokens ev then (matches ++ [ev])%list else matches in
      if (max_results <=? Z.of_nat (length matches'))%Z then matches'
      else search_loop h q_tokens max_results rest matches'
  end.

Definition search_memory (h : host) (self : agent) (user_id query : string)
    (max_results : Z) : list event :=
  let events := MemoryBank.get_user_memory (memory self) user_id in
  match events with
  | [] => []
  | _ =>
      let q_tokens := query_tokens query in
      match q_tokens with
      | [] => []
      | _ => search_loop h q_tokens max_results (rev events) []
      end
  end.

(** *** summarize_events *)

(** The bullet appended for one event. *)
Definition bullet (h : host) (ev : event) : result string :=
  let tp := dict_get_default "type" (JStr "event") ev in
  if str_eq tp "adherence_event" then
    let med := py_or (dict_get "med" ev) (py_or (dict_get "med_name" ev) (JStr "")) in
    let ts := py_or (dict_get "timestamp" ev)
                (py_or (dict_get "recorded_at" ev) (py_or (dict_get "time" ev) (JStr ""))) in
    let human_ts :=
      match strftime_local h ts with
      | Some formatted => formatted
      | None => py_str h ts
      end in
    Ok ("- Took " ++ py_str h med ++ " at " ++ human_ts)
  else if str_eq tp "uploaded_doc_summary" then
    let* first6 := py_slice_to 6 (dict_get_default "keywords" (JList []) ev) in
    let* ks := py_iter first6 in
    let* meds := join_values ", " ks in
    let* ss := py_iter (dict_get_default "suggested_specialties" (JList []) ev) in
    let* specs := join_values ", " ss in
    Ok ("- Uploaded doc keywords: " ++ meds ++ ". Suggested: " ++ specs)
  else if str_eq tp "doctor_advice" then
    let adv := dict_get_default "advice_text" (JStr "") ev in
    let doc := dict_get_default "doctor_id" (JStr "doctor") ev in
    Ok ("- Doctor " ++ py_str h doc ++ " advised: " ++ py_str h adv)
  else
    Ok ("- " ++ py_str h tp ++ ": " ++ slice_to 120 (py_repr h (JDict ev))).

Definition summarize_events (h : host) (self : agent) (events : list event)
    (concise : bool) : result json :=
  match events with
  | [] => Ok (JStr "")
  | _ =>
      let* bullets := mapM (bullet h) events in
      let summary := join nl (take 20 bullets) in
      if (20 <? length bullets)%nat && negb concise then
        let prompt :=
          "Summarize these patient events into 3 concise lines:" ++ nl ++ nl ++ summary in
        let model_out := call_gemini h self prompt 200 DEFAULT_TEMPERATURE in
        Ok (py_or model_out (JStr summary))
      else Ok (JStr summary)
  end.

(** *** respond_with_memory_first *)

Definition notes_header : string :=
  "I found these saved notes related to your question:" ++ nl ++ nl.

Definition notes_footer : string :=
  nl ++ nl ++ "If you want more details I can expand or ask the model to interpret these.".

Definition respond_with_memory_first (h : host) (self : agent)
    (user_id query : string) : result json :=
  let matches := search_memory h self user_id query 8 in
  match matches with
  | _ :: _ =>
      let* summary := summarize_events h self matches true in
      match summary with
      | JStr text =>
          if String.eqb (strip text) "" then
            Ok (call_gemini h self query DEFAULT_MAX_OUTPUT_TOKENS DEFAULT_TEMPERATURE)
          else Ok (JStr (notes_header ++ text ++ notes_footer))
      | _ => Raise AttributeError      (* [summary.strip()] *)
      end
  | [] => Ok (call_gemini h self query DEFAULT_MAX_OUTPUT_TOKENS DEFAULT_TEMPERATURE)
  end.

(** *** handle_uploaded_document *)

Definition specialty_map : list (string * list string) :=
  [ ("chest pain", ["Cardiology"]);
    ("shortness of breath", ["Pulmonology"; "Cardiology"]);
    ("high blood pressure", ["Cardiology"; "Internal Medicine"]);
    ("diabetes", ["Endocrinology"; "Internal Medicine"]);
    ("elevated lipids", ["Cardiology"; "Endocrinology"]);
    ("fracture", ["Orthopedics"]);
    ("skin rash", ["Dermatology"]);
    ("abdominal pain", ["Gastroenterology"]) ].

(** The rule-based loops, with [suggested] a [set]. *)
Definition rule_based (keywords : list string) : gset string :=
  fold_left
    (fun suggested kw =>
       fold_left
         (fun suggested '(token, specs) =>
            if contains token (lower kw) then suggested ∪ list_to_set specs
            else suggested)
         specialty_map suggested)
    keywords ∅.

Definition sentinel_markers : list string :=
  ["MODEL_TRUNCATED"; "SIMULATED MODEL RESPONSE"; "API ERROR"; "UNPARSEABLE"].

(** The guard of the defensive check on the model's reply. *)
Definition unusable_reply (ms_text : string) : bool :=
  String.eqb (strip ms_text) ""
  || existsb (fun sig => contains sig (upper ms_text)) sentinel_markers.

(** [[p.strip() for p in re.split(r"[,\n;]+", ms_text) if len(p.strip()) > 2]]. *)
Definition reply_parts (ms_text : string) : list string :=
  map strip
    (List.filter (fun p => (2 <? String.length (strip p))%nat) (re_split_seps ms_text)).

Definition specialties_prompt (h : host) (keywords : list string) : string :=
  "Given these extracted keywords from a medical record: "
  ++ py_repr h (JList (map JStr (take 20 keywords)))
  ++ ", suggest likely medical specialties a patient should visit.".

(** The [if not suggested:] block. *)
Definition model_suggested (h : host) (self : agent) (keywords : list string)
  : gset string :=
  let model_suggestions :=
    call_gemini h self (specialties_prompt h keywords) 200 DEFAULT_TEMPERATURE in
  let ms_text := py_str h (py_or model_suggestions (JStr "")) in
  if unusable_reply ms_text then list_to_set ["Primary Care"; "Internal Medicine"]
  else list_to_set (take 6 (reply_parts ms_text)).

(** The function returns [list(suggested)], whose order is that of the
    set's iteration; the embedding returns the set, with the memory bank as
    the call leaves it.  [now] is the clock read for the entry, [now']
    the one read inside [append_user_event]. *)
Definition handle_uploaded_document (h : host) (self : agent)
    (user_id doc_text : string) (now now' : float) : gset string * MemoryBank.t :=
  let keywords := extract_keywords h doc_text in
  let suggested := rule_based keywords in
  let suggested :=
    if bool_decide (suggested = ∅) then model_suggested h self keywords
    else suggested in
  let summary_entry : event :=
    [ ("type", JStr "uploaded_doc_summary");
      ("user_id", JStr user_id);
      ("keywords", JList (map JStr keywords));
      ("suggested_specialties", JList (map JStr (elements suggested)));
      ("raw_excerpt", JStr (slice_to 500 doc_text));
      ("recorded_at", JFloat now) ] in
  (suggested, MemoryBank.append_user_event (memory self) user_id summary_entry now').

(** *** send_reminder_and_record

    The argument [event] of the source is [ev] here. *)

Definition reminder_med (ev : event) : json :=
  py_or (dict_get "med" ev) (py_or (dict_get "med_name" ev) (JStr "medication")).

Definition reminder_dose (ev : event) : json :=
  py_or (dict_get "dose" ev) (py_or (dict_get "dosage" ev) (JStr "")).

Definition reminder_prompt (h : host) (ev : event) : string :=
  "Reminder: It's time to take " ++ py_str h (reminder_med ev) ++ " "
  ++ py_str h (reminder_dose ev)
  ++ ". Ask the user to confirm 'Did you take " ++ py_str h (reminder_med ev)
  ++ "?' and handle yes/no.".

(** The [entry] written to memory; [timestamp] is the clock read by the
    function. *)
Definition reminder_entry (user_id : string) (ev : event) (timestamp : float) : event :=
  [ ("type", JStr "adherence_event");
    ("user_id", JStr user_id);
    ("med", reminder_med ev);
    ("dose", reminder_dose ev);
    ("timestamp", JFloat timestamp);
    ("user_reply", JStr "Yes, I took it.");
    ("recorded_at", JFloat timestamp) ].

(** The returned dictionary and the memory bank as the call leaves it;
    [now'] is the clock read inside [append_user_event]. *)
Definition send_reminder_and_record (h : host) (self : agent) (user_id : string)
    (ev : event) (timestamp now' : float) : event * MemoryBank.t :=
  let model_resp :=
    call_gemini h self (reminder_prompt h ev) DEFAULT_MAX_OUTPUT_TOKENS DEFAULT_TEMPERATURE in
  let entry := reminder_entry user_id ev timestamp in
  ([ ("model_response", model_resp);
     ("user_reply", JStr "Yes, I took it.");
     ("saved", JBool true) ],
   MemoryBank.append_user_event (memory self) user_id entry now').

(** *** doctor_add_advice *)

(** The [note]; [t1] and [t2] are the two clock readings of the dictionary
    display, [related_specialties] is [None] when the argument is left out. *)
Definition doctor_note (user_id doctor_id advice_text : string)
    (related_specialties : option (list string)) (t1 t2 : float) : event :=
  [ ("type", JStr "doctor_advice");
    ("user_id", JStr user_id);
    ("doctor_id", JStr doctor_id);
    ("advice_text", JStr advice_text);
    ("related_specialties",
     JList (map JStr (match related_specialties with Some l => l | None => [] end)));
    ("timestamp", JFloat t1);
    ("recorded_at", JFloat t2) ].

Definition doctor_add_advice (self : agent) (user_id doctor_id advice_text : string)
    (related_specialties : option (list string)) (t1 t2 now' : float)
  : bool * MemoryBank.t :=
  (true,
   MemoryBank.append_user_event (memory self) user_id
     (doctor_note user_id doctor_id advice_text related_specialties t1 t2) now').

(** *** get_recent_adherence *)

Definition is_adherence (e : event) : bool :=
  str_eq (dict_get "type" e) "adherence_event".

Definition get_recent_adherence (self : agent) (user_id : string) (n : Z) : list event :=
  let evs := rev (MemoryBank.get_user_memory (memory self) user_id) in
  py_take n (List.filter is_adherence evs).

(** A message whose [content] is a list of parts, each a dictionary with
    a string under [text]; [texts] are these strings in order. *)
Definition message_with_texts (m : json) (texts : list string) : Prop :=
  exists mfields parts,
    m = JDict mfields
    /\ dict_lookup "content" mfields = Some (JList parts)
    /\ Forall2 (fun p s => exists pfields,
                    p = JDict pfields /\ dict_lookup "text" pfields = Some (JStr s))
         parts texts.

(** The specialties the rule table can give. *)
Definition table_specialties : list string :=
  [ "Cardiology"; "Pulmonology"; "Internal Medicine"; "Endocrinology";
    "Orthopedics"; "Dermatology"; "Gastroenterology" ].

(** The agent after a call that changed its memory bank. *)
Definition with_memory (self : agent) (m : MemoryBank.t) : agent :=
  {| GEMINI_API_KEY := GEMINI_API_KEY self;
     GEMINI_ENDPOINT := GEMINI_ENDPOINT self;
     GEMINI_MODEL := GEMINI_MODEL self;
     memory := m |}.

End ConvoAgent.

(** Events as [handle_uploaded_document] writes them: in a document
    summary, [keywords] and [suggested_specialties] are lists of strings
    when they are present. *)
Module EventShape.

Import ConvoAgent.

Definition is_str (v : json) : bool :=
  match v with JStr _ => true | _ => false end.

Definition str_list (v : json) : bool :=
  match v with
  | JList items => forallb is_str items
  | _ => false
  end.

Definition well_formed (ev : event) : bool :=
  if str_eq (dict_get_default "type" (JStr "event") ev) "uploaded_doc_summary"
  then str_list (dict_get_default "keywords" (JList []) ev)
       && str_list (dict_get_default "suggested_specialties" (JList []) ev)
  else true.

(** The values [v] on which [", ".join([k for k in v[:6]])] returns: a
    string, or a list whose first 6 items are strings. *)
Definition joins_sliced (v : json) : bool :=
  match v with
  | JList items => forallb is_str (take 6 items)
  | JStr _ => true
  | _ => false
  end.

(** The values [v] on which [", ".join(v)] returns: a string, a dict (its
    keys are joined) or a list of strings. *)
Definition joins (v : json) : bool :=
  match v with
  | JList items => forallb is_str items
  | JStr _ | JDict _ => true
  | _ => false
  end.

(** The events for which the loop of [summarize_events] builds a bullet:
    only the branch of a document summary can raise. *)
Definition renders (ev : event) : bool :=
  if str_eq (dict_get_default "type" (JStr "event") ev) "uploaded_doc_summary"
  then joins_sliced (dict_get_default "keywords" (JList []) ev)
       && joins (dict_get_default "suggested_specialties" (JList []) ev)
  else true.

End EventShape.

(** The parsing rule of the model's reply read without the trimming of
    fragments: the fragments between separators that are longer than two
    characters. *)
Definition untrimmed_reply_parts (ms_text : string) : list string :=
  List.filter (fun p => (2 <? String.length p)%nat) (PyStr.re_split_seps ms_text).

(** ** A concrete environment

    A plain rendering of values stands for [repr] and [json.dumps], no
    timestamp is formatted, and the network gives one fixed answer. *)

Module Sample.

Import ConvoAgent.

Definition dquote : string := String (ascii_of_nat 34) EmptyString.

Definition render_float (f : float) : string :=
  match f with
  | S754_zero s => if s then "-0.0" else "0.0"
  | S754_infinity s => if s then "-Infinity" else "Infinity"
  | S754_nan => "NaN"
  | S754_finite s m e =>
      (if s then "-" else "") ++ pretty (Zpos m) ++ "*2**" ++ pretty e
  end.

Fixpoint render (v : json) : string :=
  match v with
  | JNull => "null"
  | JBool b => if b then "true" else "false"
  | JInt z => pretty z
  | JFloat f => render_float f
  | JStr s => dquote ++ s ++ dquote
  | JList items =>
      "[" ++ PyStr.join ", " (map render items) ++ "]"
  | JDict fields =>
      "{" ++ PyStr.join ", "
               (map (fun p => dquote ++ fst p ++ dquote ++ ": " ++ render (snd p)) fields)
      ++ "}"
  end.

Definition sample_host (answer : post_outcome) (keywords : list string) : host :=
  {| py_repr := render;
     json_dumps := render;
     strftime_local := fun _ => None;
     requests_post := fun _ => answer;
     extract_keywords := fun _ => keywords |}.

(** A successful answer of the model service carrying [text], with the
    finish reason [reason]. *)
Definition model_answer (text reason : string) : post_outcome :=
  PostReturns
    {| status_code := 200;
       json_body :=
         Some (JDict
                 [("candidates",
                   JList [JDict [("content",
                                  JDict [("parts", JList [JDict [("text", JStr text)]])]);
                                 ("finishReason", JStr reason)]])]) |}.

Definition bank (events : list event) : MemoryBank.t :=
  {| MemoryBank.path := "memory/memory_bank.json";
     MemoryBank.store := {[ "u1" := events ]} |}.

Definition offline_agent (events : list event) : agent :=
  {| GEMINI_API_KEY := None;
     GEMINI_ENDPOINT := "https://generativelanguage.googleapis.com/v1beta";
     GEMINI_MODEL := "models/gemini-2.5-pro";
     memory := bank events |}.

Definition online_agent (events : list event) : agent :=
  {| GEMINI_API_KEY := Some "key";
     GEMINI_ENDPOINT := "https://generativelanguage.googleapis.com/v1beta";
     GEMINI_MODEL := "models/gemini-2.5-pro";
     memory := bank events |}.

Definition took_metformin : event :=
  [ ("type", JStr "adherence_event"); ("user_id", JStr "u1");
    ("med", JStr "Metformin"); ("timestamp", JInt 1700000000) ].

Definition malformed_summary : event :=
  [ ("type", JStr "uploaded_doc_summary"); ("user_id", JStr "u1");
    ("keywords", JInt 5) ].

End Sample.

(** ** agents/calendar_agent.py *)

Module CalendarAgent.

Import ConvoAgent.

(** [self.store]: a [dict] from user identifier to the list of that user's
    scheduled events, in insertion order, and the store as [_save_store]
    last wrote it to the file. *)
Record t := {
  store : list (string * list event);
  saved : list (string * list event)
}.

(** [self.store.setdefault(user_id, [])]. *)
Fixpoint setdefault_empty (user_id : string) (s : list (string * list event))
  : list (string * list event) :=
  match s with
  | [] => [(user_id, [])]
  | (u, evs) :: s' =>
      if String.eqb u user_id then s else (u, evs) :: setdefault_empty user_id s'
  end.

(** [self.store[user_id].append(ev)], for a key that is present. *)
Fixpoint append_for (user_id : string) (ev : event) (s : list (string * list event))
  : list (string * list event) :=
  match s with
  | [] => []
  | (u, evs) :: s' =>
      if String.eqb u user_id then (u, (evs ++ [ev])%list) :: s'
      else (u, evs) :: append_for user_id ev s'
  end.

(** The dictionary built for one medication [m]; [m['name']] and
    [m['time']] raise [KeyError] when the key is missing. *)
Definition scheduled_event (h : host) (user_id : string) (m : event) : result event :=
  let* name := dict_item "name" m in
  let* time := dict_item "time" m in
  Ok [ ("id", JStr (user_id ++ "-" ++ py_str h name ++ "-" ++ py_str h time));
       ("med", name);
       ("dose", dict_get "dose" m);
       ("time", dict_get "time" m) ].

(** The loop of [schedule_user_meds]: the outcome and the store as the loop
    leaves it. *)
Fixpoint schedule_loop (h : host) (user_id : string) (meds : list event)
    (s : list (string * list event)) : result unit * list (string * list event) :=
  match meds with
  | [] => (Ok tt, s)
  | m :: rest =>
      match scheduled_event h user_id m with
      | Ok ev => schedule_loop h user_id rest (append_for user_id ev s)
      | Raise e => (Raise e, s)
      end
  end.

(** [schedule_user_meds(self, user_id, meds)]: the file is written only
    when the loop ends without an exception. *)
Definition schedule_user_meds (h : host) (self : t) (user_id : string)
    (meds : list event) : result unit * t :=
  match schedule_loop h user_id meds (setdefault_empty user_id (store self)) with
  | (Ok _, s) => (Ok tt, {| store := s; saved := s |})
  | (Raise e, s) => (Raise e, {| store := s; saved := saved self |})
  end.

(** [get_due_events(self, user_id, simulate_now)]. *)
Definition get_due_events (self : t) (user_id : option string) (simulate_now : bool)
  : list event :=
  if simulate_now then
    flat_map (fun p => map (fun e => dict_merge [("user_id", JStr (fst p))] e) (snd p))
      (store self)
  else [].

(** All the events of the store, user after user. *)
Definition all_events (s : list (string * list event)) : list event :=
  flat_map snd s.

Definition events_of (user_id : string) (s : list (string * list event)) : list event :=
  match List.find (fun p => String.eqb (fst p) user_id) s with
  | Some p => snd p
  | None => []
  end.

End CalendarAgent.

(** ** logs/json_logger.py *)

Module JSONLogger.

Import ConvoAgent.

(** The logger and the lines of its file, each the text of one
    [json.dumps(o)], the line feed left out. *)
Record t := { filepath : string; lines : list string }.

(** The object written by [info] and [error]: [{"level": ..., "ts": ..., **obj}]. *)
Definition log_object (level : string) (now : float) (obj : event) : event :=
  dict_merge [("level", JStr level); ("ts", JFloat now)] obj.

Definition _write (h : host) (self : t) (o : event) : t :=
  {| filepath := filepath self;
     lines := (lines self ++ [json_dumps h (JDict o)])%list |}.

Definition info (h : host) (self : t) (obj : event) (now : float) : t :=
  _write h self (log_object "info" now obj).

Definition error (h : host) (self : t) (obj : event) (now : float) : t :=
  _write h self (log_object "error" now obj).

End JSONLogger.

(** ** agents/cli_chat.py *)

Module CliChat.

Import PyStr.

(** What the loop does with one line of input. *)
Inductive command :=
| Skip              (* [continue] on an empty line *)
| Quit              (* [break] *)
| Reminder          (* [interactive_reminder_flow()] *)
| TestReminder      (* the test message *)
| DocUpload         (* [simulate_doc_upload()] *)
| DoctorAdvice      (* [simulate_doctor_advice()] *)
| Chat (q : string) (* [agent.respond_with_memory_first(UID, q)] *).

(** The command routing of the loop, on the line as typed. *)
Definition route (line : string) : command :=
  let q := strip line in
  if String.eqb q "" then Skip
  else if existsb (String.eqb (lower q)) ["exit"; "quit"] then Quit
  else
    let low := lower q in
    if contains "remind" low then Reminder
    else if String.prefix "test reminder" low || String.prefix "test" low then TestReminder
    else if String.prefix "doc" low then DocUpload
    else if String.prefix "doctor" low then DoctorAdvice
    else Chat q.

Definition UID : string := "cli-user".

(** The event stored after a chat answer [resp]; [ts] is the clock read
    for it. *)
Definition chat_event (h : ConvoAgent.host) (q : string) (resp : json) (ts : float) : event :=
  [ ("type", JStr "cli_chat"); ("user_id", JStr UID); ("prompt", JStr q);
    ("response", JStr (ConvoAgent.py_str h resp)); ("ts", JFloat ts) ].

(** One turn of the loop on a chat line: the answer printed and the memory
    bank after the turn, or the exception that ends the program. *)
Definition chat_turn (h : ConvoAgent.host) (self : ConvoAgent.agent) (q : string)
    (ts now' : float) : result (json * MemoryBank.t) :=
  let* resp := ConvoAgent.respond_with_memory_first h self UID q in
  Ok (resp,
      MemoryBank.append_user_event (ConvoAgent.memory self) UID (chat_event h q resp ts) now').

End CliChat.

(** ** tools/docs_processor.py *)

Module DocsProcessor.

Import PyStr.

(** The characters [re.sub(r"[^a-z0-9\s\-]", " ", t)] leaves in place. *)
Definition is_kept (c : ascii) : bool :=
  let n := nat_of_ascii c in
  (((97 <=? n) && (n <=? 122)) || ((48 <=? n) && (n <=? 57)) || (n =? 45))%nat
  || is_space c.

Definition clean (t : string) : string :=
  map_chars (fun c => if is_kept c then c else " "%char) t.

(** [t.split()]: the maximal runs of characters that are not whitespace.
    When [in_word] holds, the head of the result continues the word that is
    being read. *)
Fixpoint split_ws (in_word : bool) (s : string) : list string :=
  match s with
  | EmptyString => if in_word then [EmptyString] else []
  | String c s' =>
      if is_space c then
        if in_word then EmptyString :: split_ws false s' else split_ws false s'
      else
        match split_ws true s' with
        | w :: ws => String c w :: ws
        | [] => [String c EmptyString]
        end
  end.

(** Every character of [s] satisfies [p]. *)
Fixpoint all_chars (p : ascii -> bool) (s : string) : bool :=
  match s with
  | EmptyString => true
  | String c s' => p c && all_chars p s'
  end.

(** A character of a token: a lower-case letter, a digit or a hyphen. *)
Definition is_token_char (c : ascii) : bool := is_kept c && negb (is_space c).

(** [tokens] in [extract_keywords]. *)
Definition tokens (text : string) : list string :=
  List.filter (fun w => (2 <? String.length w)%nat) (split_ws false (clean (lower text))).

(** The n-grams added for one [n]:
    [" ".join(tokens[i:i+n]) for i in range(len(tokens)-n+1)]. *)
Definition ngrams_of (n : nat) (toks : list string) : list string :=
  map (fun i => join " " (take n (drop i toks))) (seq 0 (length toks + 1 - n)).

(** The set [ngrams]. *)
Definition ngrams (text : string) : gset string :=
  list_to_set (ngrams_of 1 (tokens text) ++ ngrams_of 2 (tokens text)
               ++ ngrams_of 3 (tokens text))%list.

Definition medical_terms : list string :=
  [ "pain"; "pressure"; "diabetes"; "fever"; "cough"; "fracture"; "rash"; "lipid";
    "cholesterol"; "blood"; "pressure"; "metformin"; "atorvastatin"; "aspirin";
    "warfarin" ].

Definition is_medical (g : string) : bool :=
  existsb (fun k => contains k g) medical_terms.

(** What is cut out of the set when it is iterated in the order [order]. *)
Definition keywords_in_order (order : list string) (top_k : Z) : list string :=
  let prioritized := List.filter is_medical order in
  let prioritized := match prioritized with [] => order | _ => prioritized end in
  py_take top_k prioritized.

(** [extract_keywords(text, top_k)] returns [result]: the iteration of a
    [set] visits its elements once each, in an order the language leaves
    open. *)
Definition extract_keywords_returns (text : string) (top_k : Z) (result : list string)
  : Prop :=
  exists order,
    Permutation order (elements (ngrams text))
    /\ result = keywords_in_order order top_k.

End DocsProcessor.

(** * Properties *)

(** ** The medication checker *)

Module MedCheckFacts.

Import MedCheck.

Lemma assoc_cons t t' ns times :
  assoc t ((t', ns) :: times) = if String.eqb t' t then Some ns else assoc t times.
Proof. unfold assoc; simpl. destruct (String.eqb t' t); reflexivity. Qed.

Lemma assoc_absent t times : ~ In t (map fst times) -> assoc t times = None.
Proof.
  induction times as [|[t' ns] times IH]; intros Hnot; [reflexivity|].
  rewrite assoc_cons. destruct (String.eqb_spec t' t) as [->|Hne].
  - exfalso. apply Hnot. now left.
  - apply IH. intros Hin. apply Hnot. now right.
Qed.

Lemma assoc_setdefault_append t t' n times :
  assoc t (setdefault_append t' n times) =
  if String.eqb t' t
  then Some (match assoc t times with Some ns => ns | None => [] end ++ [n])%list
  else assoc t times.
Proof.
  induction times as [|[k ns] times IH]; simpl.
  - rewrite assoc_cons. destruct (String.eqb t' t); reflexivity.
  - destruct (String.eqb_spec k t') as [->|Hk].
    + rewrite !assoc_cons. destruct (String.eqb t' t); reflexivity.
    + rewrite !assoc_cons, IH.
      destruct (String.eqb_spec k t) as [->|Hkt]; [|reflexivity].
      destruct (String.eqb_spec t' t) as [->|_]; [congruence|reflexivity].
Qed.

Lemma keys_setdefault_append k t n times :
  In k (map fst (setdefault_append t n times)) -> k = t \/ In k (map fst times).
Proof.
  induction times as [|[t' ns] times IH]; simpl.
  - intros [<-|[]]. now left.
  - destruct (String.eqb t' t); simpl; intros [H|H]; auto.
    destruct (IH H); auto.
Qed.

Lemma NoDup_setdefault_append t n times :
  NoDup (map fst times) -> NoDup (map fst (setdefault_append t n times)).
Proof.
  induction times as [|[t' ns] times IH]; simpl; intros Hnd.
  - apply NoDup_singleton.
  - destruct (String.eqb_spec t' t) as [->|Hne]; simpl; [exact Hnd|].
    apply NoDup_cons_1_1 in Hnd as Hnotin. apply NoDup_cons_1_2 in Hnd as Hrest.
    apply NoDup_cons. split.
    + rewrite list_elem_of_In. intros Hin.
      apply keys_setdefault_append in Hin as [->|Hin]; [congruence|].
      apply Hnotin. now rewrite list_elem_of_In.
    + now apply IH.
Qed.

Lemma NoDup_fold meds : forall acc,
  NoDup (map fst acc) -> NoDup (map fst (fold_left step meds acc)).
Proof.
  induction meds as [|m meds IH]; intros acc Hnd; simpl; [exact Hnd|].
  apply IH. now apply NoDup_setdefault_append.
Qed.

Lemma names_at_cons t m meds :
  names_at t (m :: meds) =
  if String.eqb (time_of m) t then name m :: names_at t meds else names_at t meds.
Proof. unfold names_at; simpl. destruct (String.eqb (time_of m) t); reflexivity. Qed.

Lemma names_at_app t l1 l2 :
  names_at t (l1 ++ l2)%list = (names_at t l1 ++ names_at t l2)%list.
Proof. unfold names_at. now rewrite List.filter_app, map_app. Qed.

Lemma names_at_none t l :
  (forall m, In m l -> time_of m <> t) -> names_at t l = [].
Proof.
  induction l as [|m l IH]; intros H; [reflexivity|].
  rewrite names_at_cons. destruct (String.eqb_spec (time_of m) t) as [E|_].
  - exfalso. apply (H m); [now left|exact E].
  - apply IH. intros m' Hm'. apply H. now right.
Qed.

(** What the first loop has stored under [t] once it has run over [meds],
    started from the dictionary [acc]. *)
Lemma assoc_fold t meds : forall acc,
  assoc t (fold_left step meds acc) =
  match assoc t acc, names_at t meds with
  | Some ns, extra => Some (ns ++ extra)%list
  | None, [] => None
  | None, extra => Some extra
  end.
Proof.
  induction meds as [|m meds IH]; intros acc; simpl.
  - destruct (assoc t acc) as [ns|]; [|reflexivity]. now rewrite app_nil_r.
  - rewrite IH. unfold step. rewrite assoc_setdefault_append, names_at_cons.
    destruct (String.eqb (time_of m) t).
    + destruct (assoc t acc) as [ns|]; simpl.
      * now rewrite <- app_assoc.
      * reflexivity.
    + reflexivity.
Qed.

Lemma assoc_group_by_time t meds :
  assoc t (group_by_time meds) =
  match names_at t meds with [] => None | ns => Some ns end.
Proof. unfold group_by_time. apply (assoc_fold t meds []). Qed.

Lemma NoDup_group_by_time meds : NoDup (map fst (group_by_time meds)).
Proof. apply (NoDup_fold meds []). constructor. Qed.

Lemma timing_flags_cons t ns times :
  timing_flags ((t, ns) :: times) =
  ((if (1 <? length ns)%nat then [timing_conflict t ns] else []) ++ timing_flags times)%list.
Proof. reflexivity. Qed.

Lemma timing_flags_absent t times :
  ~ In t (map fst times) ->
  List.filter (is_timing_conflict_at t) (timing_flags times) = [].
Proof.
  induction times as [|[t' ns] times IH]; intros Hnot; [reflexivity|].
  rewrite timing_flags_cons, List.filter_app, IH.
  - rewrite app_nil_r. destruct (1 <? length ns)%nat; [|reflexivity]. simpl.
    destruct (String.eqb_spec t' t) as [->|_]; [|reflexivity].
    exfalso. apply Hnot. now left.
  - intros Hin. apply Hnot. now right.
Qed.

(** The flags of the second loop that carry the time [t]. *)
Lemma timing_flags_at t times :
  NoDup (map fst times) ->
  List.filter (is_timing_conflict_at t) (timing_flags times) =
  match assoc t times with
  | Some ns => if (1 <? length ns)%nat then [timing_conflict t ns] else []
  | None => []
  end.
Proof.
  induction times as [|[t' ns] times IH]; intros Hnd; [reflexivity|].
  simpl in Hnd. apply NoDup_cons_1_1 in Hnd as Hnotin. apply NoDup_cons_1_2 in Hnd as Hrest.
  rewrite timing_flags_cons, List.filter_app, assoc_cons.
  destruct (String.eqb_spec t' t) as [->|Hne].
  - rewrite timing_flags_absent by (now rewrite <- list_elem_of_In).
    rewrite app_nil_r. destruct (1 <? length ns)%nat; [|reflexivity].
    simpl. now rewrite String.eqb_refl.
  - rewrite IH by exact Hrest.
    destruct (1 <? length ns)%nat; [|reflexivity]. simpl.
    destruct (String.eqb_spec t' t); [congruence|reflexivity].
Qed.

(** The interaction rules add no timing flag. *)
Lemma medcheck_timing_part (sel : flag -> bool) meds :
  (forall p s n, sel (interaction p s n) = false) ->
  List.filter sel (medcheck meds) = List.filter sel (timing_flags (group_by_time meds)).
Proof.
  intros Hsel. unfold medcheck.
  destruct (name_in "Warfarin" _ && name_in "Aspirin" _);
    destruct (name_in "Metformin" _ && name_in "Contrast" _);
    rewrite ?List.filter_app; simpl; rewrite ?Hsel, ?app_nil_r; reflexivity.
Qed.

Lemma medcheck_at t meds :
  List.filter (is_timing_conflict_at t) (medcheck meds) =
  if (1 <? length (names_at t meds))%nat
  then [timing_conflict t (names_at t meds)] else [].
Proof.
  rewrite medcheck_timing_part by reflexivity.
  rewrite timing_flags_at by apply NoDup_group_by_time.
  rewrite assoc_group_by_time.
  destruct (names_at t meds) as [|n1 [|n2 ns]]; reflexivity.
Qed.

(** C5.  Two entries of a medication list carry the same [time] string [t]
    and no other entry of the list reads that time: the flags returned by
    [medcheck] hold exactly one timing conflict for [t], and it lists the
    two names.  When the list is made of these two entries only, that flag
    is the only timing conflict returned. *)
Theorem medcheck_shared_time (l1 l2 l3 : list med) (m1 m2 : med) (t : string) :
  time m1 = Some t ->
  time m2 = Some t ->
  (forall m, In m (l1 ++ l2 ++ l3)%list -> time_of m <> t) ->
  List.filter (is_timing_conflict_at t) (medcheck (l1 ++ m1 :: l2 ++ m2 :: l3)%list)
    = [timing_conflict t [name m1; name m2]]
  /\ List.filter is_timing_conflict (medcheck [m1; m2])
    = [timing_conflict t [name m1; name m2]].
Proof.
  intros H1 H2 Hothers.
  assert (T1 : time_of m1 = t) by (unfold time_of; now rewrite H1).
  assert (T2 : time_of m2 = t) by (unfold time_of; now rewrite H2).
  split.
  - rewrite medcheck_at.
    replace (l1 ++ m1 :: l2 ++ m2 :: l3)%list
      with (l1 ++ [m1] ++ l2 ++ [m2] ++ l3)%list by reflexivity.
    rewrite !names_at_app, !names_at_cons, T1, T2, String.eqb_refl.
    rewrite (names_at_none t l1), (names_at_none t l2), (names_at_none t l3);
      [reflexivity| | |];
      intros m Hm; apply Hothers; rewrite !in_app_iff; auto.
  - rewrite medcheck_timing_part by reflexivity.
    unfold group_by_time, step; simpl. rewrite T1, T2, String.eqb_refl. reflexivity.
Qed.

Lemma medcheck_shared_time_witness :
  List.filter (is_timing_conflict_at "08:00")
    (medcheck [ {| name := "Warfarin"; time := Some "08:00" |};
                {| name := "Lisinopril"; time := None |};
                {| name := "Aspirin"; time := Some "08:00" |};
                {| name := "Metformin"; time := Some "20:00" |} ])
    = [timing_conflict "08:00" ["Warfarin"; "Aspirin"]]
  /\ List.filter is_timing_conflict
       (medcheck [ {| name := "Warfarin"; time := Some "08:00" |};
                   {| name := "Aspirin"; time := Some "08:00" |} ])
    = [timing_conflict "08:00" ["Warfarin"; "Aspirin"]].
Proof.
  apply (medcheck_shared_time []
           [ {| name := "Lisinopril"; time := None |} ]
           [ {| name := "Metformin"; time := Some "20:00" |} ]
           {| name := "Warfarin"; time := Some "08:00" |}
           {| name := "Aspirin"; time := Some "08:00" |} "08:00").
  - reflexivity.
  - reflexivity.
  - intros m [<-|[<-|[]]]; vm_compute; discriminate.
Defined.

Lemma names_at_no_time_length meds :
  (length (List.filter no_time meds) <= length (names_at "00:00" meds))%nat.
Proof.
  induction meds as [|m meds IH]; [reflexivity|].
  rewrite names_at_cons. simpl. unfold no_time at 1, time_of.
  destruct (time m) as [t|]; simpl.
  - destruct (String.eqb t "00:00"); simpl; lia.
  - lia.
Qed.

(** C9.  At least two entries have no [time] key: each of them is read as
    ["00:00"], and [medcheck] returns one timing conflict for ["00:00"]
    whose list holds the name of every entry read at that time, so of
    every entry that left the time out. *)
Theorem medcheck_missing_times (meds : list med) :
  (2 <= length (List.filter no_time meds))%nat ->
  List.filter (is_timing_conflict_at "00:00") (medcheck meds)
    = [timing_conflict "00:00" (names_at "00:00" meds)]
  /\ In (timing_conflict "00:00" (names_at "00:00" meds)) (medcheck meds)
  /\ (forall m, In m meds -> time m = None ->
        time_of m = "00:00" /\ In (name m) (names_at "00:00" meds)).
Proof.
  intros Hlen.
  assert (Hflags : List.filter (is_timing_conflict_at "00:00") (medcheck meds)
                   = [timing_conflict "00:00" (names_at "00:00" meds)]).
  { rewrite medcheck_at. pose proof (names_at_no_time_length meds) as Hle.
    destruct (Nat.ltb_spec 1 (length (names_at "00:00" meds))); [reflexivity|lia]. }
  split; [exact Hflags|]. split.
  - assert (Hin : In (timing_conflict "00:00" (names_at "00:00" meds))
                    (List.filter (is_timing_conflict_at "00:00") (medcheck meds)))
      by (rewrite Hflags; now left).
    apply filter_In in Hin. tauto.
  - intros m Hm Hnone.
    assert (Ht : time_of m = "00:00") by (unfold time_of; now rewrite Hnone).
    split; [exact Ht|]. unfold names_at. apply in_map, filter_In.
    split; [exact Hm|]. now rewrite Ht.
Qed.

Lemma medcheck_missing_times_witness :
  List.filter (is_timing_conflict_at "00:00")
    (medcheck [ {| name := "A"; time := None |};
                {| name := "B"; time := Some "09:30" |};
                {| name := "C"; time := None |} ])
    = [timing_conflict "00:00" ["A"; "C"]].
Proof.
  apply (medcheck_missing_times
           [ {| name := "A"; time := None |};
             {| name := "B"; time := Some "09:30" |};
             {| name := "C"; time := None |} ]).
  simpl. lia.
Defined.

End MedCheckFacts.

(** ** The event store *)

Module MemoryBankFacts.

Import MemoryBank.

Lemma dict_lookup_app k (d1 d2 : list (string * json)) :
  dict_lookup k (d1 ++ d2)%list =
  match dict_lookup k d1 with
  | Some v => Some v
  | None => dict_lookup k d2
  end.
Proof.
  induction d1 as [|[k' v] d1 IH]; simpl; [reflexivity|].
  destruct (String.eqb k' k); [reflexivity|exact IH].
Qed.

Lemma get_user_memory_append_same self user_id ev now :
  get_user_memory (append_user_event self user_id ev now) user_id
  = (get_user_memory self user_id
       ++ [dict_setdefault "recorded_at" (JFloat now) ev])%list.
Proof.
  unfold get_user_memory, append_user_event; simpl.
  rewrite lookup_alter_eq.
  destruct (store self !! user_id) as [events|] eqn:E.
  - now rewrite E.
  - now rewrite lookup_insert_eq.
Qed.

Lemma get_user_memory_append_other self user_id other ev now :
  user_id <> other ->
  get_user_memory (append_user_event self user_id ev now) other
  = get_user_memory self other.
Proof.
  intros Hne. unfold get_user_memory, append_user_event; simpl.
  rewrite lookup_alter_ne by exact Hne.
  destruct (store self !! user_id); [reflexivity|].
  now rewrite lookup_insert_ne.
Qed.

(** C7.  Reading a user's memory right after an append gives the events
    stored before, in their order, followed by the appended event; the
    stored copy is the event itself when it already had a [recorded_at]
    key, and otherwise the event with [recorded_at] set to the clock value
    of the append added after its own keys.  Every other key reads as in the
    appended event. *)
Theorem append_then_read (self : t) (user_id : string) (ev : event) (now : float) :
  let after := get_user_memory (append_user_event self user_id ev now) user_id in
  let stored :=
    if dict_has "recorded_at" ev then ev
    else (ev ++ [("recorded_at", JFloat now)])%list in
  after = (get_user_memory self user_id ++ [stored])%list
  /\ last after = Some stored
  /\ dict_lookup "recorded_at" stored
     = Some (match dict_lookup "recorded_at" ev with Some v => v | None => JFloat now end)
  /\ (forall k, k <> "recorded_at" -> dict_lookup k stored = dict_lookup k ev).
Proof.
  cbv zeta. rewrite get_user_memory_append_same. unfold dict_setdefault, dict_has.
  split; [reflexivity|]. split; [apply last_snoc|].
  destruct (dict_lookup "recorded_at" ev) as [v|] eqn:E.
  - split; [exact E|reflexivity].
  - split.
    + rewrite dict_lookup_app, E. reflexivity.
    + intros k Hk. rewrite dict_lookup_app.
      destruct (dict_lookup k ev); [reflexivity|].
      change (dict_lookup k [("recorded_at", JFloat now)])
        with (if String.eqb "recorded_at" k then Some (JFloat now) else None).
      destruct (String.eqb_spec "recorded_at" k); [congruence|reflexivity].
Qed.

Lemma dict_has_setdefault k v d : dict_has k (dict_setdefault k v d) = true.
Proof.
  unfold dict_setdefault. destruct (dict_has k d) eqn:E; [exact E|].
  unfold dict_has in *. rewrite dict_lookup_app.
  destruct (dict_lookup k d); [discriminate|].
  unfold dict_lookup. now rewrite String.eqb_refl.
Qed.

Lemma dict_has_setdefault_other k k' v d :
  k' <> k -> dict_has k (dict_setdefault k' v d) = dict_has k d.
Proof.
  intros Hne. unfold dict_setdefault. destruct (dict_has k' d); [reflexivity|].
  unfold dict_has. rewrite dict_lookup_app.
  destruct (dict_lookup k d); [reflexivity|].
  unfold dict_lookup. destruct (String.eqb_spec k' k); [congruence|reflexivity].
Qed.

Lemma get_user_memory_fresh p user_id : get_user_memory (fresh p) user_id = [].
Proof. unfold get_user_memory, fresh; simpl. now rewrite lookup_empty. Qed.

(** C8, as stated, fails: an event appended without a [user_id] key to an
    empty store is stored without one. *)
Lemma append_without_user_id :
  ~ (forall (self : t) (user_id : string) (ev : event) (now : float),
       all_events_have_required_fields (append_user_event self user_id ev now)).
Proof.
  intros H.
  specialize (H (fresh "memory/memory_bank.json") "u1" [("type", JStr "note")] float_zero
                "u1" [("type", JStr "note"); ("recorded_at", JFloat float_zero)]).
  rewrite get_user_memory_append_same, get_user_memory_fresh in H.
  assert (E : has_required_fields [("type", JStr "note"); ("recorded_at", JFloat float_zero)]
              = true) by (apply H; now left).
  vm_compute in E. discriminate E.
Qed.

(** C8, amended.  The event stored by an append has a [recorded_at] key,
    and has a [user_id] key exactly when the appended event had one; when
    every stored event had both keys before and the appended event has a
    [user_id] key, every stored event has both keys after the append; and
    the memory of a user who is not in the store, or has an empty list
    there, reads as the empty list. *)
Theorem append_required_fields (self : t) (user_id : string) (ev : event) (now : float) :
  let stored := dict_setdefault "recorded_at" (JFloat now) ev in
  last (get_user_memory (append_user_event self user_id ev now) user_id) = Some stored
  /\ dict_has "recorded_at" stored = true
  /\ dict_has "user_id" stored = dict_has "user_id" ev
  /\ (all_events_have_required_fields self ->
      dict_has "user_id" ev = true ->
      all_events_have_required_fields (append_user_event self user_id ev now))
  /\ (forall u, store self !! u = None \/ store self !! u = Some [] ->
                get_user_memory self u = []).
Proof.
  cbv zeta. split; [|split; [|split; [|split]]].
  - rewrite get_user_memory_append_same. apply last_snoc.
  - apply dict_has_setdefault.
  - apply dict_has_setdefault_other. discriminate.
  - intros Hall Huid u e Hin.
    destruct (String.eqb_spec user_id u) as [<-|Hne].
    + rewrite get_user_memory_append_same in Hin.
      apply in_app_iff in Hin as [Hold|[<-|[]]]; [now apply (Hall user_id)|].
      unfold has_required_fields.
      rewrite dict_has_setdefault, dict_has_setdefault_other by discriminate.
      now rewrite Huid.
    + rewrite get_user_memory_append_other in Hin by exact Hne.
      now apply (Hall u).
  - intros u [E|E]; unfold get_user_memory; now rewrite E.
Qed.

Lemma append_required_fields_witness :
  all_events_have_required_fields
    (append_user_event (fresh "memory/memory_bank.json") "u1"
       [("type", JStr "cli_chat"); ("user_id", JStr "u1")] float_zero).
Proof.
  apply (append_required_fields (fresh "memory/memory_bank.json") "u1"
           [("type", JStr "cli_chat"); ("user_id", JStr "u1")] float_zero).
  - intros u e. rewrite get_user_memory_fresh. intros [].
  - reflexivity.
Defined.

End MemoryBankFacts.

(** ** Python strings *)

Module PyStrFacts.

Import PyStr.

Lemma append_cons c (a b : string) : String c a ++ b = String c (a ++ b).
Proof. reflexivity. Qed.

Lemma append_empty_l (s : string) : "" ++ s = s.
Proof. reflexivity. Qed.

Lemma append_empty_r (s : string) : s ++ "" = s.
Proof.
  induction s as [|c s IH]; [reflexivity|]. now rewrite append_cons, IH.
Qed.

Lemma append_assoc (a b c : string) : (a ++ b) ++ c = a ++ (b ++ c).
Proof.
  induction a as [|x a IH]; [reflexivity|]. now rewrite !append_cons, IH.
Qed.

Lemma prefix_cons c a s : String.prefix (String c a) (String c s) = String.prefix a s.
Proof. simpl. destruct (ascii_dec c c); [reflexivity|congruence]. Qed.

Lemma prefix_append (a b : string) : String.prefix a (a ++ b) = true.
Proof.
  induction a as [|c a IH]; [now destruct b|].
  now rewrite append_cons, prefix_cons.
Qed.

Lemma prefix_split (a s : string) :
  String.prefix a s = true -> exists b, s = a ++ b.
Proof.
  revert s. induction a as [|c a IH]; intros s H.
  - now exists s.
  - destruct s as [|d s]; simpl in H; [discriminate|].
    destruct (ascii_dec c d) as [<-|]; [|discriminate].
    destruct (IH s H) as [b ->]. exists b. now rewrite append_cons.
Qed.

Lemma contains_unfold (m s : string) :
  contains m s =
  String.prefix m s
  || match s with
     | EmptyString => false
     | String _ s' => contains m s'
     end.
Proof. destruct s; reflexivity. Qed.

Lemma contains_prefix (m s : string) : String.prefix m s = true -> contains m s = true.
Proof. intros H. now rewrite contains_unfold, H. Qed.

Lemma contains_append (a m b : string) : contains m (a ++ m ++ b) = true.
Proof.
  induction a as [|c a IH].
  - rewrite append_empty_l. apply contains_prefix, prefix_append.
  - rewrite append_cons, contains_unfold, IH. apply orb_true_r.
Qed.

Lemma contains_split (m s : string) :
  contains m s = true -> exists a b, s = a ++ m ++ b.
Proof.
  induction s as [|c s IH]; intros H.
  - rewrite contains_unfold, orb_false_r in H.
    destruct (prefix_split _ _ H) as [b Hb]. now exists "", b.
  - rewrite contains_unfold in H. apply orb_true_iff in H as [H|H].
    + destruct (prefix_split _ _ H) as [b Hb]. now exists "", b.
    + destruct (IH H) as (a & b & ->). exists (String c a), b.
      now rewrite append_cons.
Qed.

Lemma slice_to_length n s : (String.length (slice_to n s) <= n)%nat.
Proof.
  revert s. induction n as [|n IH]; intros [|c s]; simpl; try lia.
  specialize (IH s). lia.
Qed.

Lemma slice_to_prefix n s : String.prefix (slice_to n s) s = true.
Proof.
  revert s. induction n as [|n IH]; intros [|c s]; try reflexivity.
  change (slice_to (S n) (String c s)) with (String c (slice_to n s)).
  rewrite prefix_cons. apply IH.
Qed.

Lemma slice_to_all n s : (String.length s <= n)%nat -> slice_to n s = s.
Proof.
  revert s. induction n as [|n IH]; intros [|c s]; simpl; intros H; try reflexivity; try lia.
  rewrite IH by lia. reflexivity.
Qed.

Lemma all_space_rstrip s : all_space (rstrip s) = all_space s.
Proof.
  induction s as [|c s IH]; [reflexivity|].
  change (all_space (String c s)) with (is_space c && all_space s).
  rewrite <- IH. simpl rstrip. destruct (rstrip s) as [|d r]; [|reflexivity].
  destruct (is_space c) eqn:E; simpl; rewrite ?E; reflexivity.
Qed.

Lemma lstrip_empty s : lstrip s = "" <-> all_space s = true.
Proof.
  induction s as [|c s IH]; simpl; [tauto|].
  destruct (is_space c); simpl; [exact IH|]. split; discriminate.
Qed.

(** [not s.strip()] holds exactly for the strings made of whitespace. *)
Lemma strip_empty s : strip s = "" <-> all_space s = true.
Proof. unfold strip. now rewrite lstrip_empty, all_space_rstrip. Qed.

Lemma strip_starts_visible c s : is_space c = false -> strip (String c s) <> "".
Proof.
  intros Hc H. apply strip_empty in H. simpl in H. now rewrite Hc in H.
Qed.

Lemma map_chars_length f s : String.length (map_chars f s) = String.length s.
Proof. induction s as [|c s IH]; simpl; [reflexivity|now rewrite IH]. Qed.

Lemma map_chars_append f a b : map_chars f (a ++ b) = map_chars f a ++ map_chars f b.
Proof.
  induction a as [|c a IH]; [reflexivity|].
  rewrite !append_cons. simpl. now rewrite IH, append_cons.
Qed.

Lemma map_chars_split f s a' b' :
  map_chars f s = a' ++ b' ->
  exists a b, s = a ++ b /\ map_chars f a = a' /\ map_chars f b = b'.
Proof.
  revert s. induction a' as [|c a' IH]; intros s H.
  - exists "", s. auto.
  - rewrite append_cons in H. destruct s as [|d s]; simpl in H; [discriminate|].
    injection H as Hc Hs. destruct (IH s Hs) as (a & b & -> & Ha & Hb).
    exists (String d a), b. simpl. now rewrite Hc, Ha, append_cons.
Qed.

Lemma lower_char_idem c : lower_char (lower_char c) = lower_char c.
Proof. destruct c as [[] [] [] [] [] [] [] []]; reflexivity. Qed.

Lemma lower_idem s : lower (lower s) = lower s.
Proof.
  unfold lower. induction s as [|c s IH]; simpl; [reflexivity|].
  now rewrite lower_char_idem, IH.
Qed.

(** [marker in text.upper()] is the search for [marker] that ignores case. *)
Lemma contains_upper marker text :
  contains marker (upper text) = true <-> occurs_ignoring_case marker text.
Proof.
  unfold occurs_ignoring_case, upper. split.
  - intros H. apply contains_split in H as (a' & b' & H).
    apply map_chars_split in H as (a & rest & -> & Ha & Hrest).
    apply map_chars_split in Hrest as (mid & b & -> & Hmid & Hb).
    now exists a, mid, b.
  - intros (a & mid & b & -> & <-).
    rewrite !map_chars_append. apply contains_append.
Qed.

End PyStrFacts.

(** ** The model gateway *)

Module GatewayFacts.

Import PyStr ConvoAgent PyStrFacts.

Lemma configured_key_none self :
  GEMINI_API_KEY self = None \/ GEMINI_API_KEY self = Some "" ->
  configured_key self = None.
Proof. unfold configured_key. intros [->| ->]; reflexivity. Qed.

(** C2.  Without a credential ([GEMINI_API_KEY] unset or empty),
    [call_gemini] returns a string, for every prompt and without consulting
    the network: the prefix ["SIMULATED MODEL RESPONSE:"], a space, the
    first 200 characters of the prompt (the whole prompt when it is not
    longer) and three dots. *)
Theorem call_gemini_without_key (h : host) (self : agent) (prompt : string)
    (max_output_tokens : Z) (temp : float) :
  GEMINI_API_KEY self = None \/ GEMINI_API_KEY self = Some "" ->
  exists reply,
    call_gemini h self prompt max_output_tokens temp = JStr reply
    /\ reply = "SIMULATED MODEL RESPONSE: " ++ slice_to 200 prompt ++ "..."
    /\ String.prefix "SIMULATED MODEL RESPONSE:" reply = true
    /\ contains (slice_to 200 prompt) reply = true
    /\ (String.length (slice_to 200 prompt) <= 200)%nat
    /\ String.prefix (slice_to 200 prompt) prompt = true
    /\ ((String.length prompt <= 200)%nat -> slice_to 200 prompt = prompt).
Proof.
  intros Hkey. apply configured_key_none in Hkey.
  exists ("SIMULATED MODEL RESPONSE: " ++ slice_to 200 prompt ++ "...").
  split; [unfold call_gemini; now rewrite Hkey|]. split; [reflexivity|].
  split; [|split; [|split; [|split]]].
  - change ("SIMULATED MODEL RESPONSE: " ++ slice_to 200 prompt ++ "...")
      with ("SIMULATED MODEL RESPONSE:" ++ (" " ++ slice_to 200 prompt ++ "...")).
    apply prefix_append.
  - apply contains_append.
  - apply slice_to_length.
  - apply slice_to_prefix.
  - apply slice_to_all.
Qed.

Lemma call_gemini_without_key_witness :
  exists reply,
    call_gemini (Sample.sample_host PostRaises []) (Sample.offline_agent [])
      "hello" DEFAULT_MAX_OUTPUT_TOKENS DEFAULT_TEMPERATURE = JStr reply
    /\ reply = "SIMULATED MODEL RESPONSE: " ++ slice_to 200 "hello" ++ "..."
    /\ String.prefix "SIMULATED MODEL RESPONSE:" reply = true
    /\ contains (slice_to 200 "hello") reply = true
    /\ (String.length (slice_to 200 "hello") <= 200)%nat
    /\ String.prefix (slice_to 200 "hello") "hello" = true
    /\ ((String.length "hello" <= 200)%nat -> slice_to 200 "hello" = "hello").
Proof.
  apply (call_gemini_without_key (Sample.sample_host PostRaises [])
           (Sample.offline_agent []) "hello").
  left. reflexivity.
Defined.

Lemma dict_lookup_nonempty k v (d : list (string * json)) :
  dict_lookup k d = Some v -> truthy (JDict d) = true.
Proof. destruct d; [discriminate|reflexivity]. Qed.




End GatewayFacts.

(** ** The memory search *)

Module SearchFacts.

Import PyStr ConvoAgent PyStrFacts.

(** The tokens found by [re.findall(r"\w+", s)] are made of word characters,
    and none of them is empty. *)
Lemma word_runs_tokens s : forall in_word,
  Forall (fun w => all_word w = true) (word_runs in_word s)
  /\ match word_runs in_word s with
     | [] => True
     | w :: ws => (in_word = false -> w <> "") /\ Forall (fun w' => w' <> "") ws
     end.
Proof.
  induction s as [|c s IH]; intros in_word.
  - destruct in_word; simpl; repeat constructor. discriminate.
  - simpl. destruct (is_word c) eqn:Hc.
    + destruct (IH true) as [Hall Hne].
      destruct (word_runs true s) as [|w ws].
      * split; [|split; [discriminate|constructor]].
        constructor; [simpl; now rewrite Hc|constructor].
      * inversion Hall as [|? ? Hw Hws]; subst. destruct Hne as [_ Hne].
        split; [|split; [discriminate|exact Hne]].
        constructor; [simpl; now rewrite Hc, Hw|exact Hws].
    + destruct (IH false) as [Hall Hne]. destruct in_word.
      * split; [constructor; [reflexivity|exact Hall]|].
        split; [discriminate|].
        destruct (word_runs false s) as [|w ws]; [constructor|].
        destruct Hne as [Hw Hws]. constructor; auto.
      * split; [exact Hall|exact Hne].
Qed.

Lemma findall_words_tokens s :
  Forall (fun w => all_word w = true /\ w <> "") (findall_words s).
Proof.
  unfold findall_words. destruct (word_runs_tokens s false) as [Hall Hne].
  destruct (word_runs false s) as [|w ws]; [constructor|].
  destruct Hne as [Hw Hws]. inversion Hall as [|? ? Hw' Hws']; subst.
  constructor; [auto|].
  rewrite List.Forall_forall in *. intros x Hx. split; [now apply Hws'|now apply Hws].
Qed.

Lemma filter_sublist {A} (f : A -> bool) (l : list A) : sublist (List.filter f l) l.
Proof.
  induction l as [|x l IH]; simpl; [constructor|].
  destruct (f x); now constructor.
Qed.

(** The loop of [search_memory] keeps the first [n] matching events. *)
Lemma search_loop_take h toks n evs : forall matches,
  (length matches < n)%nat ->
  search_loop h toks (Z.of_nat n) evs matches
  = take n (matches ++ List.filter (event_matches h toks) evs)%list.
Proof.
  induction evs as [|ev evs IH]; intros matches Hlt; simpl.
  - rewrite app_nil_r, take_ge by lia. reflexivity.
  - destruct (event_matches h toks ev) eqn:E.
    + replace (matches ++ ev :: List.filter (event_matches h toks) evs)%list
        with ((matches ++ [ev]) ++ List.filter (event_matches h toks) evs)%list
        by (now rewrite <- app_assoc).
      destruct (Z.leb_spec (Z.of_nat n) (Z.of_nat (length (matches ++ [ev])%list))) as [Hle|Hgt].
      * rewrite length_app in Hle. simpl in Hle.
        rewrite take_app_length'; [reflexivity|].
        rewrite length_app. simpl. lia.
      * apply IH. lia.
    + destruct (Z.leb_spec (Z.of_nat n) (Z.of_nat (length matches))) as [Hle|Hgt]; [lia|].
      now apply IH.
Qed.

Lemma search_memory_take h self user_id query n :
  (0 < n)%nat ->
  search_memory h self user_id query (Z.of_nat n) =
  match query_tokens query with
  | [] => []
  | _ =>
      take n (List.filter (event_matches h (query_tokens query))
                (rev (MemoryBank.get_user_memory (memory self) user_id)))
  end.
Proof.
  intros Hn. unfold search_memory.
  destruct (MemoryBank.get_user_memory (memory self) user_id) as [|e es] eqn:E.
  - destruct (query_tokens query); [reflexivity|]. simpl. now rewrite take_nil.
  - destruct (query_tokens query) as [|t ts]; [reflexivity|].
    now rewrite search_loop_take by (simpl; lia).
Qed.

Lemma query_tokens_shape query :
  Forall (fun t => lower t = t /\ (2 < String.length t)%nat
                   /\ exists w, In w (findall_words query) /\ t = lower w)
         (query_tokens query).
Proof.
  unfold query_tokens. apply Forall_take. rewrite List.Forall_forall.
  intros t Ht. apply in_map_iff in Ht as (w & <- & Hw).
  apply filter_In in Hw as [Hw Hlen]. apply Nat.ltb_lt in Hlen.
  split; [apply lower_idem|]. split.
  - unfold lower. now rewrite map_chars_length.
  - now exists w.
Qed.

(** Characters that are not word characters are skipped between words. *)
Lemma word_runs_gap gap s :
  no_word gap = true -> word_runs false (gap ++ s) = word_runs false s.
Proof.
  induction gap as [|c gap IH]; intros H; [now rewrite append_empty_l|].
  cbn [no_word] in H. apply andb_true_iff in H as [Hc Hgap].
  apply negb_true_iff in Hc.
  rewrite append_cons. cbn [word_runs]. rewrite Hc. now apply IH.
Qed.

(** A run of word characters that ends at the end of the text, or before a
    character that is not a word character, is one token. *)
Lemma word_runs_word w rest : forall in_word,
  all_word w = true ->
  rest = "" \/ (exists c r, rest = String c r /\ is_word c = false) ->
  in_word = true \/ w <> "" ->
  word_runs in_word (w ++ rest) = w :: word_runs false rest.
Proof.
  induction w as [|c w IH]; intros in_word Hw Hrest Hin.
  - rewrite append_empty_l. destruct Hin as [->|Hne]; [|congruence].
    destruct Hrest as [->|(c & r & -> & Hc)]; [reflexivity|].
    cbn [word_runs]. now rewrite Hc.
  - cbn [all_word] in Hw. apply andb_true_iff in Hw as [Hc Hw].
    rewrite append_cons. cbn [word_runs]. rewrite Hc.
    now rewrite (IH true Hw Hrest (or_introl eq_refl)).
Qed.

Lemma word_runs_no_word s : no_word s = true -> word_runs false s = [].
Proof.
  induction s as [|c s IH]; intros H; [reflexivity|].
  cbn [no_word] in H. apply andb_true_iff in H as [Hc Hs].
  apply negb_true_iff in Hc. cbn [word_runs]. rewrite Hc. now apply IH.
Qed.

(** An event matches when one of the tokens occurs in the lower-cased
    [json.dumps] of the event. *)
Lemma event_matches_spec h toks ev :
  event_matches h toks ev = true
  <-> exists t a b, In t toks /\ lower (json_dumps h (JDict ev)) = a ++ t ++ b.
Proof.
  unfold event_matches. rewrite existsb_exists. split.
  - intros (t & Ht & Hc). apply contains_split in Hc as (a & b & E). now exists t, a, b.
  - intros (t & a & b & Ht & E). exists t. split; [exact Ht|].
    rewrite E. apply contains_append.
Qed.

(** C4.  The search made by the responder ([max_results = 8]) returns the
    first eight events, newest first, that match a token of the query: at
    most 8 events, a subsequence of the reversed insertion order.  The
    tokens are the first 10, in the order of the query, of the words of the
    query longer than 2 characters, each in lower case; when the query has
    no such word the result is empty, whatever the store holds.  The words
    are the maximal runs of word characters, from left to right, and an
    event matches when a token occurs in the lower-cased [json.dumps] of
    the event. *)
Theorem search_memory_for_responder (h : host) (self : agent) (user_id query : string) :
  let events := MemoryBank.get_user_memory (memory self) user_id in
  let tokens := query_tokens query in
  let found := search_memory h self user_id query 8 in
  found = match tokens with
          | [] => []
          | _ => take 8 (List.filter (event_matches h tokens) (rev events))
          end
  /\ (length found <= 8)%nat
  /\ sublist found (rev events)
  /\ (length tokens <= 10)%nat
  /\ Forall (fun t => lower t = t /\ (2 < String.length t)%nat
                      /\ exists w, In w (findall_words query) /\ t = lower w) tokens
  /\ (Forall (fun w => (String.length w <= 2)%nat) (findall_words query) -> found = [])
  /\ tokens
     = take 10 (map lower
                  (List.filter (fun w => (2 <? String.length w)%nat) (findall_words query)))
  /\ (no_word query = true -> findall_words query = [])
  /\ (forall gap w rest,
        query = gap ++ w ++ rest ->
        no_word gap = true ->
        all_word w = true ->
        w <> "" ->
        rest = "" \/ (exists c r, rest = String c r /\ is_word c = false) ->
        findall_words query = w :: findall_words rest)
  /\ (forall ev,
        event_matches h tokens ev = true
        <-> exists t a b,
              In t tokens /\ lower (json_dumps h (JDict ev)) = a ++ t ++ b)
  /\ (forall ev, In ev found -> event_matches h tokens ev = true /\ In ev events).
Proof.
  cbv zeta.
  assert (Hfound := search_memory_take h self user_id query 8 ltac:(lia)).
  change (Z.of_nat 8) with 8%Z in Hfound.
  split; [exact Hfound|]. repeat apply conj.
  - rewrite Hfound. destruct (query_tokens query); [simpl; lia|].
    rewrite length_take. lia.
  - rewrite Hfound. destruct (query_tokens query); [apply sublist_nil_l|].
    etransitivity; [apply sublist_take|apply filter_sublist].
  - unfold query_tokens. rewrite length_take. lia.
  - apply query_tokens_shape.
  - intros Hshort. rewrite Hfound.
    replace (query_tokens query) with (@nil string); [reflexivity|].
    unfold query_tokens.
    replace (List.filter (fun t => (2 <? String.length t)%nat) (findall_words query))
      with (@nil string); [reflexivity|].
    symmetry. induction Hshort as [|w ws Hw _ IH]; [reflexivity|].
    simpl. destruct (Nat.ltb_spec 2 (String.length w)); [lia|exact IH].
  - reflexivity.
  - apply word_runs_no_word.
  - intros gap w rest -> Hgap Hw Hne Hrest. unfold findall_words.
    rewrite (word_runs_gap gap _ Hgap).
    apply word_runs_word; [exact Hw|exact Hrest|now right].
  - intros ev. apply event_matches_spec.
  - intros ev Hev. rewrite Hfound in Hev.
    destruct (query_tokens query) as [|t ts]; [destruct Hev|].
    apply list_elem_of_In in Hev.
    pose proof (elem_of_sublist _ _ _ Hev (sublist_take _ 8)) as Hin.
    apply list_elem_of_In, filter_In in Hin as [Hin Hm].
    split; [exact Hm|]. now apply in_rev.
Qed.

End SearchFacts.

(** ** The summarizer and the responder *)

Module ResponderFacts.

Import PyStr ConvoAgent PyStrFacts.

(** C1.  When the search finds no event, the responder returns what
    [call_gemini] returns for the raw query, as it is; when the search finds
    events and their summary is a string that is not blank, it returns the
    header, the summary and the footer of the fixed template. *)
Theorem respond_with_memory_first_cases (h : host) (self : agent)
    (user_id query : string) :
  (search_memory h self user_id query 8 = [] ->
   respond_with_memory_first h self user_id query
   = Ok (call_gemini h self query DEFAULT_MAX_OUTPUT_TOKENS DEFAULT_TEMPERATURE))
  /\ (forall summary,
        search_memory h self user_id query 8 <> [] ->
        summarize_events h self (search_memory h self user_id query 8) true
        = Ok (JStr summary) ->
        strip summary <> "" ->
        respond_with_memory_first h self user_id query
        = Ok (JStr ("I found these saved notes related to your question:" ++ nl ++ nl
                    ++ summary ++ nl ++ nl
                    ++ "If you want more details I can expand or ask the model to interpret these."))).
Proof.
  unfold respond_with_memory_first. split.
  - intros ->. reflexivity.
  - intros summary Hfound Hsum Hvisible.
    destruct (search_memory h self user_id query 8) as [|ev evs]; [congruence|].
    rewrite Hsum. unfold bind.
    destruct (String.eqb_spec (strip summary) ""); [congruence|].
    unfold notes_header, notes_footer. now rewrite !append_assoc.
Qed.

Lemma respond_with_memory_first_cases_witness :
  respond_with_memory_first (Sample.sample_host PostRaises [])
    (Sample.online_agent [Sample.took_metformin]) "u1" "Metformin today?"
  = Ok (JStr ("I found these saved notes related to your question:" ++ nl ++ nl
              ++ "- Took Metformin at 1700000000" ++ nl ++ nl
              ++ "If you want more details I can expand or ask the model to interpret these.")).
Proof.
  apply (proj2 (respond_with_memory_first_cases (Sample.sample_host PostRaises [])
                  (Sample.online_agent [Sample.took_metformin]) "u1" "Metformin today?")).
  - vm_compute. discriminate.
  - vm_compute. reflexivity.
  - vm_compute. discriminate.
Defined.

Lemma mapM_Forall2 {A B} (f : A -> result B) (l : list A) : forall ys,
  mapM f l = Ok ys -> Forall2 (fun x y => f x = Ok y) l ys.
Proof.
  induction l as [|x l IH]; intros ys H; simpl in H.
  - injection H as <-. constructor.
  - destruct (f x) as [y|e] eqn:Ex; simpl in H; [|discriminate].
    destruct (mapM f l) as [ys'|e] eqn:El; simpl in H; [|discriminate].
    injection H as <-. constructor; [exact Ex|now apply IH].
Qed.

Lemma mapM_all_ok {A B} (f : A -> result B) (l : list A) :
  Forall (fun x => exists y, f x = Ok y) l -> exists ys, mapM f l = Ok ys.
Proof.
  induction 1 as [|x l [y Hy] _ [ys Hys]]; simpl.
  - now exists [].
  - rewrite Hy, Hys. now exists (y :: ys).
Qed.

Lemma join_values_strings sep items :
  forallb EventShape.is_str items = true -> exists s, join_values sep items = Ok s.
Proof.
  intros Hall. unfold join_values.
  destruct (mapM_all_ok as_str items) as [parts Hparts].
  - rewrite List.Forall_forall. intros v Hv.
    rewrite forallb_forall in Hall. specialize (Hall v Hv).
    destruct v; try discriminate. now eexists.
  - rewrite Hparts. now eexists.
Qed.

Lemma forallb_take {A} (f : A -> bool) n (l : list A) :
  forallb f l = true -> forallb f (take n l) = true.
Proof.
  revert n. induction l as [|x l IH]; intros [|n] H; try reflexivity.
  simpl in *. apply andb_true_iff in H as [-> H]. now apply IH.
Qed.

Lemma str_list_items v :
  EventShape.str_list v = true ->
  exists items, v = JList items /\ forallb EventShape.is_str items = true.
Proof. destruct v; try discriminate. intros H. now eexists. Qed.

(** Every bullet that is built begins with a dash and a space. *)
Lemma bullet_prefix h ev b : bullet h ev = Ok b -> exists rest, b = "- " ++ rest.
Proof.
  unfold bullet. intros H.
  destruct (str_eq _ "adherence_event"); [injection H as <-; now eexists|].
  destruct (str_eq _ "uploaded_doc_summary").
  - unfold bind in H.
    destruct (py_slice_to 6 _); [|discriminate].
    destruct (py_iter _); [|discriminate].
    destruct (join_values _ _); [|discriminate].
    destruct (py_iter _); [|discriminate].
    destruct (join_values _ _); [|discriminate].
    injection H as <-. now eexists.
  - destruct (str_eq _ "doctor_advice"); injection H as <-; now eexists.
Qed.

(** A well-formed event always renders. *)
Lemma bullet_well_formed h ev :
  EventShape.well_formed ev = true -> exists b, bullet h ev = Ok b.
Proof.
  unfold bullet, EventShape.well_formed. intros H.
  destruct (str_eq _ "adherence_event"); [now eexists|].
  destruct (str_eq _ "uploaded_doc_summary").
  - apply andb_true_iff in H as [Hk Hs].
    apply str_list_items in Hk as (ks & -> & Hks).
    apply str_list_items in Hs as (ss & -> & Hss).
    unfold py_slice_to, py_iter, bind.
    destruct (join_values_strings ", " (take 6 ks) (forallb_take _ 6 _ Hks)) as [meds ->].
    destruct (join_values_strings ", " ss Hss) as [specs ->].
    now eexists.
  - destruct (str_eq _ "doctor_advice"); now eexists.
Qed.

Lemma join_head sep b l : exists tail, join sep (b :: l) = b ++ tail.
Proof.
  unfold join. destruct l as [|b' l]; simpl.
  - exists "". now rewrite append_empty_r.
  - now eexists.
Qed.

Lemma dash_visible text : strip ("- " ++ text) <> "".
Proof. apply strip_starts_visible. reflexivity. Qed.

(** Whenever [summarize_events] returns for a non-empty list, without
    handing the bullets to the model, it returns a string that begins with
    a bullet. *)
Lemma summarize_events_returns h self events concise v :
  events <> [] ->
  concise = true \/ (length events <= 20)%nat ->
  summarize_events h self events concise = Ok v ->
  exists text, v = JStr ("- " ++ text).
Proof.
  intros Hne Hlocal H. unfold summarize_events in H.
  destruct events as [|ev evs]; [congruence|].
  destruct (mapM (bullet h) (ev :: evs)) as [bullets|e] eqn:Hm; [|discriminate].
  apply mapM_Forall2 in Hm as Hall. unfold bind in H.
  assert (Hlen : length bullets = length (ev :: evs))
    by (symmetry; eapply Forall2_length; exact Hall).
  replace ((20 <? length bullets)%nat && negb concise) with false in H.
  - injection H as <-.
    inversion Hall as [|? b ? bs Hb _]; subst.
    apply bullet_prefix in Hb as [rest ->].
    change (take 20 (("- " ++ rest) :: bs)) with (("- " ++ rest) :: take 19 bs).
    destruct (join_head nl ("- " ++ rest) (take 19 bs)) as [tail ->].
    exists (rest ++ tail). now rewrite !append_assoc.
  - symmetry. destruct Hlocal as [->|Hle]; [apply andb_false_r|].
    destruct (Nat.ltb_spec 20 (length bullets)); [lia|reflexivity].
Qed.

(** [mapM] returns exactly when the function returns on every element. *)
Lemma mapM_exact {A B} (f : A -> result B) (p : A -> bool) (l : list A) :
  (forall x, match f x with Ok _ => p x = true | Raise _ => p x = false end) ->
  match mapM f l with
  | Ok _ => forallb p l = true
  | Raise _ => forallb p l = false
  end.
Proof.
  intros Hf. induction l as [|x l IH]; [reflexivity|].
  cbn [mapM forallb]. specialize (Hf x).
  destruct (f x) as [y|e]; cbn [bind]; rewrite Hf; [|reflexivity].
  destruct (mapM f l) as [ys|e]; cbn [bind]; exact IH.
Qed.

(** [sep.join(items)] returns exactly when every item is a string. *)
Lemma join_values_exact sep items :
  match join_values sep items with
  | Ok _ => forallb EventShape.is_str items = true
  | Raise _ => forallb EventShape.is_str items = false
  end.
Proof.
  unfold join_values.
  pose proof (mapM_exact as_str EventShape.is_str items) as H.
  destruct (mapM as_str items); cbn [bind]; apply H; intros [| | | | | |]; reflexivity.
Qed.

Lemma chars_strs s : forallb EventShape.is_str (chars s) = true.
Proof. induction s as [|c s IH]; [reflexivity|exact IH]. Qed.

Lemma keys_strs (fields : list (string * json)) :
  forallb EventShape.is_str (map (fun p => JStr (fst p)) fields) = true.
Proof. induction fields as [|f fields IH]; [reflexivity|exact IH]. Qed.

(** The second half of the bullet of a document summary. *)
Lemma joins_exact {A} (sp : json) (k : string -> A) :
  match (let* ss := py_iter sp in
         let* specs := join_values ", " ss in
         Ok (k specs)) with
  | Ok _ => EventShape.joins sp = true
  | Raise _ => EventShape.joins sp = false
  end.
Proof.
  destruct sp as [| | | |s|items|fields]; try reflexivity; cbn [py_iter bind EventShape.joins].
  - pose proof (join_values_exact ", " (chars s)) as J. rewrite chars_strs in J.
    destruct (join_values ", " (chars s)); [reflexivity|discriminate J].
  - pose proof (join_values_exact ", " items) as J.
    destruct (join_values ", " items); exact J.
  - pose proof (join_values_exact ", " (map (fun p => JStr (fst p)) fields)) as J.
    rewrite keys_strs in J.
    destruct (join_values ", " _); [reflexivity|discriminate J].
Qed.

(** The bullet of an event is built exactly when the event renders;
    otherwise the loop raises. *)
Lemma bullet_renders h ev :
  match bullet h ev with
  | Ok _ => EventShape.renders ev = true
  | Raise _ => EventShape.renders ev = false
  end.
Proof.
  unfold bullet, EventShape.renders.
  destruct (str_eq _ "adherence_event") eqn:Ea.
  - destruct (dict_get_default "type" (JStr "event") ev) as [| | | |s| |];
      try discriminate Ea.
    cbn [str_eq] in Ea. apply String.eqb_eq in Ea. subst s. reflexivity.
  - destruct (str_eq _ "uploaded_doc_summary");
      [|destruct (str_eq _ "doctor_advice"); reflexivity].
    generalize (dict_get_default "suggested_specialties" (JList []) ev) as sp.
    generalize (dict_get_default "keywords" (JList []) ev) as kws.
    intros kws sp.
    destruct kws as [| | | |s|items|fields]; try reflexivity;
      cbn [py_slice_to py_iter bind EventShape.joins_sliced].
    + pose proof (join_values_exact ", " (chars (slice_to 6 s))) as J.
      rewrite chars_strs in J.
      destruct (join_values ", " (chars (slice_to 6 s))) as [meds|e];
        [|discriminate J].
      cbn [bind andb]. apply joins_exact.
    + pose proof (join_values_exact ", " (take 6 items)) as J.
      destruct (join_values ", " (take 6 items)) as [meds|e]; rewrite J.
      * cbn [bind andb]. apply joins_exact.
      * reflexivity.
Qed.

(** [summarize_events] returns exactly when every event renders. *)
Lemma summarize_events_exact h self (events : list event) concise :
  match summarize_events h self events concise with
  | Ok _ => forallb EventShape.renders events = true
  | Raise _ => forallb EventShape.renders events = false
  end.
Proof.
  unfold summarize_events. destruct events as [|ev evs]; [reflexivity|].
  pose proof (mapM_exact (bullet h) EventShape.renders (ev :: evs) (bullet_renders h)) as H.
  destruct (mapM (bullet h) (ev :: evs)) as [bullets|e]; cbn [bind]; [|exact H].
  destruct (_ && _); exact H.
Qed.

Lemma well_formed_renders ev :
  EventShape.well_formed ev = true -> EventShape.renders ev = true.
Proof.
  unfold EventShape.well_formed, EventShape.renders.
  destruct (str_eq _ "uploaded_doc_summary"); [|reflexivity].
  intros H. apply andb_true_iff in H as [Hk Hs].
  apply str_list_items in Hk as (ks & -> & Hks).
  apply str_list_items in Hs as (ss & -> & Hss).
  cbn [EventShape.joins_sliced EventShape.joins].
  now rewrite (forallb_take _ 6 _ Hks), Hss.
Qed.

(** C10, as stated, fails: a document summary whose [keywords] value is a
    number makes [summarize_events] raise. *)
Lemma summarize_events_can_raise :
  ~ (forall (h : host) (self : agent) (events : list event) (concise : bool),
       events <> [] ->
       exists text,
         summarize_events h self events concise = Ok (JStr text) /\ strip text <> "").
Proof.
  intros H.
  destruct (H (Sample.sample_host PostRaises []) (Sample.offline_agent [])
              [Sample.malformed_summary] true ltac:(discriminate)) as (text & Heq & _).
  vm_compute in Heq. discriminate Heq.
Qed.

(** C10, amended.  For a non-empty list of events, summarized locally
    ([concise] set, or at most 20 events):
    - when every document summary of the list holds lists of strings under
      [keywords] and [suggested_specialties], [summarize_events] returns a
      string that begins with ["- "] and is not blank;
    - whatever the events, a value it returns is such a string, every bullet
      beginning with ["- "];
    - so the responder, once the search has found events, either raises or
      returns the template around such a summary: the branch that hands a
      blank summary to the model is never taken;
    - [summarize_events] returns such a string exactly when every event
      renders, and raises otherwise.  Only a document summary can fail to
      render: it renders when its [keywords] is a string or a list whose
      first 6 items are strings, and its [suggested_specialties] is a
      string, a dict or a list of strings (a missing key reads as the empty
      list).  Lists of strings under both keys are one such case. *)
Theorem summarize_events_not_blank (h : host) (self : agent) (events : list event)
    (concise : bool) :
  events <> [] ->
  concise = true \/ (length events <= 20)%nat ->
  (Forall (fun ev => EventShape.well_formed ev = true) events ->
   exists text,
     summarize_events h self events concise = Ok (JStr ("- " ++ text))
     /\ strip ("- " ++ text) <> "")
  /\ (forall v,
        summarize_events h self events concise = Ok v ->
        exists text, v = JStr ("- " ++ text) /\ strip ("- " ++ text) <> "")
  /\ (forall ev b, bullet h ev = Ok b -> String.prefix "- " b = true)
  /\ (forall user_id query,
        events = search_memory h self user_id query 8 ->
        (exists e, respond_with_memory_first h self user_id query = Raise e)
        \/ (exists text,
              summarize_events h self events true = Ok (JStr ("- " ++ text))
              /\ respond_with_memory_first h self user_id query
                 = Ok (JStr (notes_header ++ ("- " ++ text) ++ notes_footer))))
  /\ (forallb EventShape.renders events = true ->
      exists text,
        summarize_events h self events concise = Ok (JStr ("- " ++ text))
        /\ strip ("- " ++ text) <> "")
  /\ (forallb EventShape.renders events = false ->
      exists e, summarize_events h self events concise = Raise e)
  /\ (forall ev, EventShape.well_formed ev = true -> EventShape.renders ev = true)
  /\ (forall ev,
        EventShape.renders ev = false ->
        dict_get_default "type" (JStr "event") ev = JStr "uploaded_doc_summary").
Proof.
  intros Hne Hlocal.
  assert (Hret : forall c v,
             c = true \/ (length events <= 20)%nat ->
             summarize_events h self events c = Ok v ->
             exists text, v = JStr ("- " ++ text) /\ strip ("- " ++ text) <> "").
  { intros c v Hc Hv.
    destruct (summarize_events_returns h self events c v Hne Hc Hv) as [text ->].
    exists text. split; [reflexivity|apply dash_visible]. }
  split; [|split; [|split; [|split; [|split; [|split; [|split]]]]]].
  - intros Hwf.
    assert (Hok : exists v, summarize_events h self events concise = Ok v).
    { unfold summarize_events. destruct events as [|ev evs]; [congruence|].
      destruct (mapM_all_ok (bullet h) (ev :: evs)) as [bullets ->].
      - eapply Forall_impl; [exact Hwf|]. intros x. apply bullet_well_formed.
      - unfold bind. destruct (_ && _); now eexists. }
    destruct Hok as [v Hv]. destruct (Hret concise v Hlocal Hv) as (text & -> & Hvis).
    now exists text.
  - intros v. now apply Hret.
  - intros ev b Hb. apply bullet_prefix in Hb as [rest ->]. apply prefix_append.
  - intros user_id query ->. unfold respond_with_memory_first.
    destruct (search_memory h self user_id query 8) as [|ev evs] eqn:Hs; [congruence|].
    destruct (summarize_events h self (ev :: evs) true) as [v|e] eqn:Hv.
    + right. destruct (Hret true v (or_introl eq_refl) Hv) as (text & -> & Hvis).
      exists text. split; [reflexivity|]. unfold bind.
      destruct (String.eqb_spec (strip ("- " ++ text)) ""); [congruence|reflexivity].
    + left. now exists e.
  - intros Hall. pose proof (summarize_events_exact h self events concise) as Hex.
    destruct (summarize_events h self events concise) as [v|e] eqn:Hv; [|congruence].
    destruct (Hret concise v Hlocal Hv) as (text & -> & Hvis). now exists text.
  - intros Hsome. pose proof (summarize_events_exact h self events concise) as Hex.
    destruct (summarize_events h self events concise) as [v|e]; [congruence|now exists e].
  - apply well_formed_renders.
  - intros ev. unfold EventShape.renders.
    destruct (dict_get_default "type" (JStr "event") ev) as [| | | |s| |];
      try discriminate.
    cbn [str_eq]. destruct (String.eqb_spec s "uploaded_doc_summary") as [->|];
      [reflexivity|discriminate].
Qed.

Lemma summarize_events_not_blank_witness :
  exists text,
    summarize_events (Sample.sample_host PostRaises []) (Sample.offline_agent [])
      [Sample.took_metformin] true = Ok (JStr ("- " ++ text))
    /\ strip ("- " ++ text) <> "".
Proof.
  apply (summarize_events_not_blank (Sample.sample_host PostRaises [])
           (Sample.offline_agent []) [Sample.took_metformin] true).
  - discriminate.
  - left. reflexivity.
  - repeat constructor.
Defined.

End ResponderFacts.

(** ** The document intake *)

Module DocumentFacts.

Import PyStr ConvoAgent PyStrFacts.

(** The fragments produced by [re.split(r"[,\n;]+", s)] hold no separator. *)
Lemma split_runs_no_sep s : forall after_sep,
  Forall (fun p => no_sep p = true) (split_runs after_sep s).
Proof.
  induction s as [|c s IH]; intros after_sep; simpl.
  - repeat constructor.
  - destruct (is_sep c) eqn:Hc.
    + destruct after_sep; [apply IH|]. constructor; [reflexivity|apply IH].
    + specialize (IH false). destruct (split_runs false s) as [|f fs].
      * repeat constructor. simpl. now rewrite Hc.
      * inversion IH as [|? ? Hf Hfs]; subst.
        constructor; [simpl; now rewrite Hc, Hf|exact Hfs].
Qed.

(** The guard of the defensive check: the reply is blank, or one of the
    four markers occurs in it when case is ignored. *)
Lemma unusable_reply_spec ms_text :
  unusable_reply ms_text = true <->
  all_space ms_text = true
  \/ exists marker, In marker sentinel_markers /\ occurs_ignoring_case marker ms_text.
Proof.
  unfold unusable_reply. rewrite orb_true_iff, String.eqb_eq, strip_empty, existsb_exists.
  split; intros [H|(marker & Hin & H)]; auto; right; exists marker; split; auto;
    now apply contains_upper.
Qed.

Lemma size_list_to_set_le (l : list string) :
  (size (list_to_set l : gset string) <= length l)%nat.
Proof.
  induction l as [|x l IH].
  - rewrite list_to_set_nil, size_empty. simpl. lia.
  - rewrite list_to_set_cons, size_union_alt, size_singleton. simpl.
    pose proof (subseteq_size (list_to_set l ∖ {[x]}) (list_to_set l : gset string)) as Hle.
    assert (Hsub : (list_to_set l ∖ {[x]} : gset string) ⊆ list_to_set l)
      by apply subseteq_difference_l, reflexivity.
    specialize (Hle Hsub). lia.
Qed.

Lemma reply_parts_shape ms_text :
  Forall (fun s => (2 < String.length s)%nat
                   /\ exists fragment,
                        In fragment (re_split_seps ms_text) /\ no_sep fragment = true
                        /\ s = strip fragment)
         (reply_parts ms_text).
Proof.
  unfold reply_parts. rewrite List.Forall_forall. intros s Hs.
  apply in_map_iff in Hs as (p & <- & Hp). apply filter_In in Hp as [Hp Hlen].
  apply Nat.ltb_lt in Hlen. split; [exact Hlen|]. exists p. split; [exact Hp|].
  split; [|reflexivity].
  pose proof (split_runs_no_sep ms_text false) as Hall.
  rewrite List.Forall_forall in Hall. now apply Hall.
Qed.

Lemma handle_uploaded_document_suggested h self user_id doc_text now now' :
  rule_based (extract_keywords h doc_text) = ∅ ->
  fst (handle_uploaded_document h self user_id doc_text now now')
  = model_suggested h self (extract_keywords h doc_text).
Proof.
  intros Hrule. unfold handle_uploaded_document. cbn [fst].
  now rewrite bool_decide_eq_true_2.
Qed.

(** C6, as stated, fails: in the reply ["Cardiology, GI"] the fragment
    after the comma, [" GI"], is longer than 2 characters and would be kept
    as it is; the code trims it to ["GI"] before it measures it and drops
    it, so that only ["Cardiology"] is suggested. *)
Lemma untrimmed_fragments_differ :
  ~ (forall (h : host) (self : agent) (user_id doc_text : string) (now now' : float),
       rule_based (extract_keywords h doc_text) = ∅ ->
       let reply := call_gemini h self (specialties_prompt h (extract_keywords h doc_text))
                      200 DEFAULT_TEMPERATURE in
       let ms_text := py_str h (py_or reply (JStr "")) in
       unusable_reply ms_text = false ->
       fst (handle_uploaded_document h self user_id doc_text now now')
       = list_to_set (take 6 (untrimmed_reply_parts ms_text))).
Proof.
  intros H.
  specialize (H (Sample.sample_host (Sample.model_answer "Cardiology, GI" "STOP") [])
                (Sample.online_agent []) "u1" "" float_zero float_zero).
  cbv zeta in H.
  assert (Heq := H eq_refl ltac:(vm_compute; reflexivity)).
  apply (f_equal (fun g : gset string => bool_decide (" GI" ∈ g))) in Heq.
  vm_compute in Heq. discriminate Heq.
Qed.

(** C6, amended.  The rule-based pass found nothing and the model is
    consulted.  When the text of its reply is blank or one of the four
    markers occurs in it, case ignored, the suggested specialties are
    ["Primary Care"] and ["Internal Medicine"].  Otherwise the text is split
    at runs of commas, semicolons and line feeds, every fragment is trimmed
    of surrounding whitespace, the trimmed fragments longer than 2
    characters are kept and the first 6 of them are the suggested
    specialties. *)
Theorem handle_uploaded_document_model_path (h : host) (self : agent)
    (user_id doc_text : string) (now now' : float) :
  rule_based (extract_keywords h doc_text) = ∅ ->
  let reply := call_gemini h self (specialties_prompt h (extract_keywords h doc_text))
                 200 DEFAULT_TEMPERATURE in
  let ms_text := py_str h (py_or reply (JStr "")) in
  let suggested := fst (handle_uploaded_document h self user_id doc_text now now') in
  (all_space ms_text = true
   \/ (exists marker,
         In marker ["MODEL_TRUNCATED"; "SIMULATED MODEL RESPONSE"; "API ERROR"; "UNPARSEABLE"]
         /\ occurs_ignoring_case marker ms_text) ->
   suggested = {[ "Primary Care"; "Internal Medicine" ]})
  /\ (~ (all_space ms_text = true
         \/ (exists marker,
               In marker ["MODEL_TRUNCATED"; "SIMULATED MODEL RESPONSE"; "API ERROR"; "UNPARSEABLE"]
               /\ occurs_ignoring_case marker ms_text)) ->
      suggested
      = list_to_set
          (take 6 (map strip
                     (List.filter (fun p => (2 <? String.length (strip p))%nat)
                        (re_split_seps ms_text))))
      /\ (size suggested <= 6)%nat
      /\ (forall s, s ∈ suggested ->
            (2 < String.length s)%nat
            /\ exists fragment,
                 In fragment (re_split_seps ms_text) /\ no_sep fragment = true
                 /\ s = strip fragment)).
Proof.
  intros Hrule. cbv zeta.
  rewrite (handle_uploaded_document_suggested _ _ _ _ _ _ Hrule).
  unfold model_suggested.
  set (ms_text := py_str h (py_or _ (JStr ""))).
  pose proof (unusable_reply_spec ms_text) as Hspec.
  change sentinel_markers
    with ["MODEL_TRUNCATED"; "SIMULATED MODEL RESPONSE"; "API ERROR"; "UNPARSEABLE"] in Hspec.
  split.
  - intros Hbad. apply Hspec in Hbad. rewrite Hbad. set_solver.
  - intros Hgood. destruct (unusable_reply ms_text) eqn:E.
    + exfalso. apply Hgood, Hspec. reflexivity.
    + split; [reflexivity|]. split.
      * etransitivity; [apply size_list_to_set_le|]. rewrite length_take. lia.
      * intros s Hs. apply elem_of_list_to_set in Hs.
        pose proof (Forall_take _ 6 _ (reply_parts_shape ms_text)) as Hall.
        rewrite List.Forall_forall in Hall. apply Hall. now apply list_elem_of_In.
Qed.

Lemma handle_uploaded_document_model_path_witness :
  fst (handle_uploaded_document
         (Sample.sample_host (Sample.model_answer "  " "STOP") [])
         (Sample.online_agent []) "u1" "" float_zero float_zero)
  = {[ "Primary Care"; "Internal Medicine" ]}.
Proof.
  apply (handle_uploaded_document_model_path
           (Sample.sample_host (Sample.model_answer "  " "STOP") [])
           (Sample.online_agent []) "u1" "" float_zero float_zero).
  - reflexivity.
  - left. reflexivity.
Defined.

End DocumentFacts.

(** ** The functions on sample inputs *)

Module Examples.

Import PyStr ConvoAgent Sample.

Example findall_words_sample :
  findall_words "Did I take my metformin at 8 am?"
  = ["Did"; "I"; "take"; "my"; "metformin"; "at"; "8"; "am"].
Proof. reflexivity. Qed.

Example query_tokens_sample :
  query_tokens "Did I take my Metformin at 8 am?" = ["did"; "take"; "metformin"].
Proof. reflexivity. Qed.

Example re_split_seps_sample :
  re_split_seps (",a,,b; c" ++ nl ++ "d,") = [""; "a"; "b"; " c"; "d"; ""].
Proof. reflexivity. Qed.

Example strip_sample : strip ("  a b " ++ nl) = "a b".
Proof. reflexivity. Qed.

(** The unit test of [eval/evaluate.py]. *)
Example medcheck_unit_test :
  MedCheck.medcheck
    [ {| MedCheck.name := "A"; MedCheck.time := Some "08:00" |};
      {| MedCheck.name := "B"; MedCheck.time := Some "08:00" |} ]
  = [MedCheck.timing_conflict "08:00" ["A"; "B"]].
Proof. reflexivity. Qed.

Example medcheck_interaction :
  MedCheck.medcheck
    [ {| MedCheck.name := "Aspirin"; MedCheck.time := Some "08:00" |};
      {| MedCheck.name := "Warfarin"; MedCheck.time := Some "20:00" |} ]
  = [MedCheck.interaction ["Warfarin"; "Aspirin"] "high" "Bleeding risk"].
Proof. reflexivity. Qed.

Example call_gemini_request_error :
  call_gemini (sample_host PostRaises []) (online_agent []) "hi" 512 DEFAULT_TEMPERATURE
  = JStr "SIMULATED MODEL RESPONSE (request error).".
Proof. reflexivity. Qed.

Example call_gemini_api_error :
  call_gemini
    (sample_host (PostReturns {| status_code := 500; json_body := None |}) [])
    (online_agent []) "hi" 512 DEFAULT_TEMPERATURE
  = JStr "SIMULATED MODEL RESPONSE (API error). See logs.".
Proof. reflexivity. Qed.

Example call_gemini_unparseable :
  call_gemini
    (sample_host
       (PostReturns {| status_code := 200;
                       json_body := Some (JDict [("candidates", JList [JInt 1])]) |}) [])
    (online_agent []) "hi" 512 DEFAULT_TEMPERATURE
  = JStr "SIMULATED MODEL RESPONSE (unparseable). See logs.".
Proof. reflexivity. Qed.

Example call_gemini_truncated_without_text :
  call_gemini (sample_host (model_answer "" "MAX_TOKENS") []) (online_agent [])
    "hi" 512 DEFAULT_TEMPERATURE
  = JStr "MODEL_TRUNCATED: Increase max_output_tokens. Partial candidate logged.".
Proof. reflexivity. Qed.

Example call_gemini_plain_answer :
  call_gemini (sample_host (model_answer "Take it with food." "STOP") []) (online_agent [])
    "hi" 512 DEFAULT_TEMPERATURE
  = JStr "Take it with food.".
Proof. reflexivity. Qed.

Example respond_without_match :
  respond_with_memory_first (sample_host PostRaises []) (offline_agent [took_metformin])
    "u1" "aspirin"
  = Ok (JStr "SIMULATED MODEL RESPONSE: aspirin...").
Proof. vm_compute. reflexivity. Qed.

Example respond_on_malformed_summary :
  respond_with_memory_first (sample_host PostRaises []) (offline_agent [malformed_summary])
    "u1" "uploaded"
  = Raise TypeError.
Proof. vm_compute. reflexivity. Qed.

Example suggested_from_reply :
  fst (handle_uploaded_document
         (sample_host (model_answer "Cardiology, GI; Neurology" "STOP") [])
         (online_agent []) "u1" "" float_zero float_zero)
  = {[ "Cardiology"; "Neurology" ]}.
Proof. vm_compute. reflexivity. Qed.

Example suggested_from_rules :
  fst (handle_uploaded_document
         (sample_host PostRaises ["chest pain"; "type 2 diabetes"])
         (online_agent []) "u1" "" float_zero float_zero)
  = {[ "Cardiology"; "Endocrinology"; "Internal Medicine" ]}.
Proof. vm_compute. reflexivity. Qed.

End Examples.

(** ** More on the medication checker *)

Module MedCheckLaws.

Import MedCheck MedCheckFacts.

Lemma name_in_spec x names : name_in x names = true <-> In x names.
Proof.
  unfold name_in. rewrite existsb_exists. split.
  - intros (y & Hy & E). apply String.eqb_eq in E. now subst.
  - intros H. exists x. split; [exact H|apply String.eqb_refl].
Qed.

Lemma timing_flags_only f times : In f (timing_flags times) -> is_timing_conflict f = true.
Proof.
  induction times as [|[t ns] times IH]; [intros []|].
  rewrite timing_flags_cons, in_app_iff. intros [H|H]; [|now apply IH].
  destruct (1 <? length ns)%nat; [|destruct H].
  destruct H as [<-|[]]. reflexivity.
Qed.

(** The flag list is the timing conflicts followed by the interactions. *)
Lemma medcheck_layout meds :
  medcheck meds =
  (timing_flags (group_by_time meds)
   ++ (if name_in "Warfarin" (map name meds) && name_in "Aspirin" (map name meds)
       then [interaction ["Warfarin"; "Aspirin"] "high" "Bleeding risk"] else [])
   ++ (if name_in "Metformin" (map name meds) && name_in "Contrast" (map name meds)
       then [interaction ["Metformin"; "Contrast"] "moderate"
               "Consider holding Metformin around contrast imaging"] else []))%list.
Proof.
  unfold medcheck.
  destruct (name_in "Warfarin" _ && name_in "Aspirin" _);
    destruct (name_in "Metformin" _ && name_in "Contrast" _);
    rewrite <- ?app_assoc, ?app_nil_r; reflexivity.
Qed.

(** An interaction flag of the list is one of the two rules, with its
    condition met. *)
Lemma interaction_in_medcheck p sev note meds :
  In (interaction p sev note) (medcheck meds) ->
  (interaction p sev note = interaction ["Warfarin"; "Aspirin"] "high" "Bleeding risk"
   /\ name_in "Warfarin" (map name meds) && name_in "Aspirin" (map name meds) = true)
  \/ (interaction p sev note
      = interaction ["Metformin"; "Contrast"] "moderate"
          "Consider holding Metformin around contrast imaging"
      /\ name_in "Metformin" (map name meds) && name_in "Contrast" (map name meds) = true).
Proof.
  rewrite medcheck_layout, !in_app_iff. intros [H|[H|H]].
  - apply timing_flags_only in H. discriminate.
  - left. destruct (_ && _); [|destruct H]. destruct H as [<-|[]]. auto.
  - right. destruct (name_in "Metformin" _ && _); [|destruct H].
    destruct H as [<-|[]]. auto.
Qed.

(** X1.  The bleeding-risk flag is returned exactly when both ["Warfarin"]
    and ["Aspirin"] are among the names, and the contrast flag exactly when
    both ["Metformin"] and ["Contrast"] are: the times of the entries and
    their order play no part. *)
Theorem medcheck_interactions (meds : list med) :
  (In (interaction ["Warfarin"; "Aspirin"] "high" "Bleeding risk") (medcheck meds)
   <-> In "Warfarin" (map name meds) /\ In "Aspirin" (map name meds))
  /\ (In (interaction ["Metformin"; "Contrast"] "moderate"
            "Consider holding Metformin around contrast imaging") (medcheck meds)
      <-> In "Metformin" (map name meds) /\ In "Contrast" (map name meds)).
Proof.
  rewrite <- !name_in_spec, <- !andb_true_iff. split; split.
  - intros H. apply interaction_in_medcheck in H as [[_ H]|[H _]]; [exact H|discriminate].
  - intros H. rewrite medcheck_layout, H, !in_app_iff. right. left. now left.
  - intros H. apply interaction_in_medcheck in H as [[H _]|[_ H]]; [discriminate|exact H].
  - intros H. rewrite medcheck_layout, H, !in_app_iff. right. right. now left.
Qed.

Lemma timing_conflict_in_medcheck meds t ns :
  In (timing_conflict t ns) (medcheck meds)
  <-> In (timing_conflict t ns)
         (if (1 <? length (names_at t meds))%nat
          then [timing_conflict t (names_at t meds)] else []).
Proof.
  rewrite <- medcheck_at, filter_In. simpl. rewrite String.eqb_refl. tauto.
Qed.

(** X2.  A timing conflict for the time [t] with the names [ns] is among
    the flags exactly when [ns] is the list, in input order, of all the
    entries read at [t] and there are at least two of them. *)
Theorem medcheck_timing_conflicts (meds : list med) (t : string) (ns : list string) :
  In (timing_conflict t ns) (medcheck meds)
  <-> ns = names_at t meds /\ (2 <= length ns)%nat.
Proof.
  rewrite timing_conflict_in_medcheck.
  destruct (Nat.ltb_spec 1 (length (names_at t meds))) as [Hlt|Hge]; simpl.
  - split.
    + intros [H|[]]. injection H as <-. split; [reflexivity|lia].
    + intros [-> _]. now left.
  - split; [intros []|]. intros [-> Hlen]. lia.
Qed.

Lemma names_at_count t meds :
  length (names_at t meds) = count_occ string_dec (map time_of meds) t.
Proof.
  induction meds as [|m meds IH]; [reflexivity|].
  rewrite names_at_cons. simpl.
  destruct (string_dec (time_of m) t) as [E|E].
  - apply String.eqb_eq in E as E'. rewrite E'. simpl. now rewrite IH.
  - apply String.eqb_neq in E as E'. now rewrite E'.
Qed.

(** X3.  [medcheck] returns no flag at all exactly when no two entries
    read the same time (a missing time reading ["00:00"]) and neither of
    the two interacting pairs is present. *)
Theorem medcheck_silent (meds : list med) :
  medcheck meds = []
  <-> List.NoDup (map time_of meds)
      /\ ~ (In "Warfarin" (map name meds) /\ In "Aspirin" (map name meds))
      /\ ~ (In "Metformin" (map name meds) /\ In "Contrast" (map name meds)).
Proof.
  rewrite (NoDup_count_occ string_dec), <- !name_in_spec, <- !andb_true_iff.
  split.
  - intros Hnil. split; [|split].
    + intros t. rewrite <- names_at_count.
      destruct (Nat.ltb_spec 1 (length (names_at t meds))) as [Hlt|Hge]; [|exact Hge].
      exfalso.
      assert (Hin : In (timing_conflict t (names_at t meds)) (medcheck meds)).
      { apply timing_conflict_in_medcheck.
        destruct (Nat.ltb_spec 1 (length (names_at t meds))); [now left|lia]. }
      rewrite Hnil in Hin. destruct Hin.
    + intros H.
      assert (Hin : In (interaction ["Warfarin"; "Aspirin"] "high" "Bleeding risk")
                      (medcheck meds))
        by (rewrite medcheck_layout, H, !in_app_iff; right; left; now left).
      rewrite Hnil in Hin. destruct Hin.
    + intros H.
      assert (Hin : In (interaction ["Metformin"; "Contrast"] "moderate"
                          "Consider holding Metformin around contrast imaging")
                      (medcheck meds))
        by (rewrite medcheck_layout, H, !in_app_iff; right; right; now left).
      rewrite Hnil in Hin. destruct Hin.
  - intros (Hcount & Hwa & Hmc).
    destruct (medcheck meds) as [|f fs] eqn:E; [reflexivity|]. exfalso.
    assert (Hin : In f (medcheck meds)) by (rewrite E; now left).
    destruct f as [t ns|p sev note].
    + apply timing_conflict_in_medcheck in Hin.
      specialize (Hcount t). rewrite <- names_at_count in Hcount.
      destruct (Nat.ltb_spec 1 (length (names_at t meds))); [lia|destruct Hin].
    + apply interaction_in_medcheck in Hin as [[_ H]|[_ H]]; auto.
Qed.

End MedCheckLaws.

(** ** More on the event store *)

Module MemoryBankLaws.

Import MemoryBank MemoryBankFacts.

(** X4.  [clear_user_memory] answers [True] exactly when the user has an
    entry in the store; afterwards that user's memory reads as empty, a
    second call answers [False] and changes nothing, and the memory of every
    other user is as before. *)
Theorem clear_user_memory_effect (self : t) (user_id : string) :
  let cleared := snd (clear_user_memory self user_id) in
  (fst (clear_user_memory self user_id) = true <-> is_Some (store self !! user_id))
  /\ get_user_memory cleared user_id = []
  /\ clear_user_memory cleared user_id = (false, cleared)
  /\ (forall other, other <> user_id ->
        get_user_memory cleared other = get_user_memory self other).
Proof.
  cbv zeta. unfold clear_user_memory, get_user_memory.
  destruct (store self !! user_id) as [events|] eqn:E; simpl.
  - rewrite lookup_delete_eq. split; [split; [eauto|reflexivity]|].
    split; [reflexivity|]. split; [reflexivity|].
    intros other Hne. now rewrite lookup_delete_ne.
  - rewrite E. split; [split; [discriminate|intros [x Hx]; discriminate]|].
    split; [reflexivity|]. split; [reflexivity|]. reflexivity.
Qed.

(** An append for one user, followed by a clear for that user, leaves
    every user's memory as a clear alone would: the appended event is gone
    with the rest and the flag is [True]. *)
Theorem clear_after_append (self : t) (user_id : string) (ev : event) (now : float) :
  fst (clear_user_memory (append_user_event self user_id ev now) user_id) = true
  /\ forall u,
       get_user_memory (snd (clear_user_memory (append_user_event self user_id ev now) user_id)) u
       = get_user_memory (snd (clear_user_memory self user_id)) u.
Proof.
  unfold clear_user_memory at 1 2.
  assert (Hsome : is_Some (store (append_user_event self user_id ev now) !! user_id)).
  { unfold append_user_event; simpl. rewrite lookup_alter_eq.
    destruct (store self !! user_id) eqn:E; [rewrite E|rewrite lookup_insert_eq]; simpl; eauto. }
  destruct Hsome as [events Hev]. rewrite Hev. simpl. split; [reflexivity|].
  intros u. unfold get_user_memory, clear_user_memory, append_user_event; simpl.
  destruct (String.eqb_spec user_id u) as [<-|Hne].
  - rewrite lookup_delete_eq. destruct (store self !! user_id) eqn:E; simpl.
    + now rewrite lookup_delete_eq.
    + now rewrite E.
  - rewrite lookup_delete_ne, lookup_alter_ne by exact Hne.
    destruct (store self !! user_id) eqn:E; simpl.
    + now rewrite lookup_delete_ne.
    + now rewrite lookup_insert_ne.
Qed.

(** X5.  An append for one user leaves the memory of every other user, and
    the path of the bank, as they were. *)
Theorem append_user_event_frame (self : t) (user_id other : string) (ev : event)
    (now : float) :
  user_id <> other ->
  get_user_memory (append_user_event self user_id ev now) other = get_user_memory self other
  /\ path (append_user_event self user_id ev now) = path self.
Proof.
  intros Hne. split; [|reflexivity].
  unfold get_user_memory, append_user_event; simpl.
  rewrite lookup_alter_ne by exact Hne.
  destruct (store self !! user_id); [reflexivity|]. now rewrite lookup_insert_ne.
Qed.

Lemma append_user_event_frame_witness :
  get_user_memory
    (append_user_event (Sample.bank [Sample.took_metformin]) "u2"
       [("type", JStr "note")] float_zero) "u1"
  = get_user_memory (Sample.bank [Sample.took_metformin]) "u1"
  /\ path (append_user_event (Sample.bank [Sample.took_metformin]) "u2"
             [("type", JStr "note")] float_zero)
     = path (Sample.bank [Sample.took_metformin]).
Proof.
  apply (append_user_event_frame (Sample.bank [Sample.took_metformin]) "u2" "u1").
  discriminate.
Defined.

Lemma dict_lookup_In k v (d : list (string * json)) :
  dict_lookup k d = Some v -> In (k, v) d.
Proof.
  induction d as [|[k' v'] d IH]; simpl; [discriminate|].
  destruct (String.eqb_spec k' k) as [->|_].
  - intros [= ->]. now left.
  - intros H. right. now apply IH.
Qed.

Lemma In_dict_lookup k v (d : list (string * json)) :
  List.NoDup (map fst d) -> In (k, v) d -> dict_lookup k d = Some v.
Proof.
  induction d as [|[k' v'] d IH]; simpl; intros Hnd Hin; [destruct Hin|].
  inversion Hnd as [|? ? Hnotin Hnd']; subst.
  destruct Hin as [[= -> ->]|Hin].
  - now rewrite String.eqb_refl.
  - destruct (String.eqb_spec k' k) as [->|_]; [|now apply IH].
    exfalso. apply Hnotin. apply in_map_iff. now exists (k, v).
Qed.

(** X6.  When the file holds the document of the store and the user has a
    list there, [get_user_events] returns that list, the events that
    [get_user_memory] returns. *)
Theorem get_user_events_agrees (self : t) (json_loads : string -> option json)
    (text : string) (data : json) (user_id : string) :
  PyStr.strip text <> "" ->
  json_loads (PyStr.strip text) = Some data ->
  mirrors self data ->
  is_Some (store self !! user_id) ->
  get_user_events json_loads (Some text) user_id
  = map JDict (get_user_memory self user_id).
Proof.
  intros Hraw Hloads (fields & -> & _ & Hfields) [events Hev].
  unfold get_user_events, get_user_memory.
  destruct (String.eqb_spec (PyStr.strip text) ""); [congruence|].
  rewrite Hloads, Hev. unfold events_in_document.
  now rewrite Hfields, Hev.
Qed.

(** X7.  When the file holds the document of the store and the user has no
    list there, [get_user_memory] reads as empty, but [get_user_events]
    returns the events, stored under any other user, whose [user_id] field
    names the user. *)
Theorem get_user_events_scans_other_users (self : t)
    (json_loads : string -> option json) (text : string) (data : json)
    (user_id : string) :
  PyStr.strip text <> "" ->
  json_loads (PyStr.strip text) = Some data ->
  mirrors self data ->
  store self !! user_id = None ->
  get_user_memory self user_id = []
  /\ forall e,
       In e (get_user_events json_loads (Some text) user_id)
       <-> exists (owner : string) (events : list event) (ev : event),
             store self !! owner = Some events /\ In ev events /\ e = JDict ev
             /\ dict_get "user_id" ev = JStr user_id.
Proof.
  intros Hraw Hloads (fields & -> & Hnd & Hfields) Hnone.
  split; [unfold get_user_memory; now rewrite Hnone|].
  intros e. unfold get_user_events.
  destruct (String.eqb_spec (PyStr.strip text) ""); [congruence|].
  rewrite Hloads. unfold events_in_document. rewrite Hfields, Hnone. simpl.
  rewrite in_flat_map. split.
  - intros ([owner v] & Hin & He). simpl in He.
    apply In_dict_lookup in Hin; [|exact Hnd]. rewrite Hfields in Hin.
    revert Hin. destruct (store self !! owner) as [events|] eqn:Eo; [|discriminate].
    intros [= <-]. apply filter_In in He as [He Hmatch].
    apply in_map_iff in He as (ev & <- & Hev).
    exists owner, events, ev. repeat split; auto.
    simpl in Hmatch. unfold str_eq in Hmatch.
    destruct (dict_get "user_id" ev); try discriminate.
    apply String.eqb_eq in Hmatch. now subst.
  - intros (owner & events & ev & Ho & Hev & -> & Huid).
    exists (owner, JList (map JDict events)). split.
    + apply dict_lookup_In. now rewrite Hfields, Ho.
    + simpl. apply filter_In. split; [now apply in_map|].
      simpl. rewrite Huid. simpl. apply String.eqb_refl.
Qed.

(** The document of a store that holds one user. *)
Lemma mirrors_single (events : list event) :
  mirrors (Sample.bank events) (JDict [("u1", JList (map JDict events))]).
Proof.
  exists [("u1", JList (map JDict events))]. split; [reflexivity|]. split.
  - repeat constructor. intros [].
  - intros u. unfold Sample.bank, store, dict_lookup.
    destruct (String.eqb_spec "u1" u) as [<-|Hne].
    + rewrite lookup_singleton_eq. reflexivity.
    + rewrite lookup_singleton_ne by exact Hne. reflexivity.
Qed.

Lemma get_user_events_agrees_witness :
  get_user_events (fun _ => Some (JDict [("u1", JList [JDict Sample.took_metformin])]))
    (Some "{...}") "u1"
  = map JDict (get_user_memory (Sample.bank [Sample.took_metformin]) "u1").
Proof.
  apply (get_user_events_agrees (Sample.bank [Sample.took_metformin])
           (fun _ => Some (JDict [("u1", JList [JDict Sample.took_metformin])]))
           "{...}" (JDict [("u1", JList [JDict Sample.took_metformin])]) "u1").
  - discriminate.
  - reflexivity.
  - apply (mirrors_single [Sample.took_metformin]).
  - exists [Sample.took_metformin]. reflexivity.
Defined.

Lemma get_user_events_scans_other_users_witness :
  get_user_memory (Sample.bank [[("type", JStr "note"); ("user_id", JStr "u2")]]) "u2" = []
  /\ forall e,
       In e (get_user_events
               (fun _ => Some (JDict [("u1", JList [JDict [("type", JStr "note");
                                                           ("user_id", JStr "u2")]])]))
               (Some "{...}") "u2")
       <-> exists (owner : string) (events : list event) (ev : event),
             MemoryBank.store (Sample.bank [[("type", JStr "note"); ("user_id", JStr "u2")]])
               !! owner = Some events
             /\ In ev events /\ e = JDict ev /\ dict_get "user_id" ev = JStr "u2".
Proof.
  apply (get_user_events_scans_other_users
           (Sample.bank [[("type", JStr "note"); ("user_id", JStr "u2")]])
           (fun _ => Some (JDict [("u1", JList [JDict [("type", JStr "note");
                                                       ("user_id", JStr "u2")]])]))
           "{...}"
           (JDict [("u1", JList [JDict [("type", JStr "note"); ("user_id", JStr "u2")]])])
           "u2").
  - discriminate.
  - reflexivity.
  - apply (mirrors_single [[("type", JStr "note"); ("user_id", JStr "u2")]]).
  - reflexivity.
Defined.

End MemoryBankLaws.

(** ** More on the model gateway *)

Module GatewayLaws.

Import PyStr ConvoAgent PyStrFacts GatewayFacts.

Lemma truthy_append_l s t : truthy (JStr s) = true -> truthy (JStr (s ++ t)) = true.
Proof. destruct s; [discriminate|reflexivity]. Qed.

Lemma truncation_reply_truthy body out reply :
  truncation_reply body out = Some reply -> truthy reply = true.
Proof.
  unfold truncation_reply.
  destruct (first_candidate body) as [[]|]; try discriminate.
  destruct (_ && _); [|discriminate].
  destruct (truthy out) eqn:Hout.
  - destruct out; try discriminate. intros [= <-]. now apply truthy_append_l.
  - intros [= <-]. reflexivity.
Qed.

Lemma call_gemini_truthy h self prompt max_output_tokens temp :
  truthy (call_gemini h self prompt max_output_tokens temp) = true.
Proof.
  unfold call_gemini.
  destruct (configured_key self); [|reflexivity].
  destruct (requests_post h _) as [|resp]; [reflexivity|].
  destruct (_ || _); [reflexivity|].
  destruct (truncation_reply _ _) as [reply|] eqn:Ht.
  - now apply truncation_reply_truthy in Ht.
  - destruct (truthy (extract_text _)) eqn:Hout; [exact Hout|reflexivity].
Qed.

(** X8.  Whatever the prompt, the configuration and the answer of the
    network, [call_gemini] returns a value that counts as true: never
    [None], never the empty string.  A caller's [reply or default] is
    therefore always the reply. *)
Theorem call_gemini_never_empty (h : host) (self : agent) (prompt : string)
    (max_output_tokens : Z) (temp : float) :
  truthy (call_gemini h self prompt max_output_tokens temp) = true
  /\ call_gemini h self prompt max_output_tokens temp <> JNull
  /\ call_gemini h self prompt max_output_tokens temp <> JStr ""
  /\ forall default,
       py_or (call_gemini h self prompt max_output_tokens temp) default
       = call_gemini h self prompt max_output_tokens temp.
Proof.
  pose proof (call_gemini_truthy h self prompt max_output_tokens temp) as Ht.
  split; [exact Ht|]. split; [|split].
  - intros E. rewrite E in Ht. discriminate.
  - intros E. rewrite E in Ht. discriminate.
  - intros default. unfold py_or. now rewrite Ht.
Qed.

(** [extract_text] on the usual shape of an answer: the [text] of the first
    part of the first candidate, whatever else the body holds. *)
Lemma extract_text_first_part fields c0 rest content part parts v :
  dict_lookup "candidates" fields = Some (JList (JDict c0 :: rest)) ->
  dict_lookup "content" c0 = Some (JDict content) ->
  dict_lookup "parts" content = Some (JList (JDict part :: parts)) ->
  dict_lookup "text" part = Some v ->
  extract_text (JDict fields) = v.
Proof.
  intros Hc Hcontent Hparts Htext.
  unfold extract_text, extract_text_try, attr_get, bind.
  unfold dict_get, dict_get_default. rewrite Hc.
  unfold py_or at 1. change (truthy (JList (JDict c0 :: rest))) with true. cbv iota.
  unfold candidate_text. change (truthy (JList (JDict c0 :: rest))) with true. cbv iota.
  unfold index0, attr_get, bind, dict_get, dict_get_default. rewrite Hcontent.
  unfold py_or at 1. rewrite (dict_lookup_nonempty _ _ _ Hparts). rewrite Hparts.
  unfold py_or. change (truthy (JList (JDict part :: parts))) with true. cbv iota.
  unfold first_part_text. change (truthy (JList (JDict part :: parts))) with true.
  cbv iota. unfold index0, bind, dict_has, dict_get, dict_get_default.
  now rewrite Htext.
Qed.

(** X9.  On an answer of the usual shape (status 200, a first candidate
    whose content has a first part with a non-empty string [text]) whose
    finish reason is not [MAX_TOKENS], [call_gemini] returns that text as it
    is, whatever else the body holds. *)
Theorem call_gemini_returns_text (h : host) (self : agent) (prompt key : string)
    (max_output_tokens : Z) (temp : float) (resp : response)
    (fields c0 content part : list (string * json)) (rest parts : list json)
    (text : string) :
  configured_key self = Some key ->
  requests_post h (gemini_request self key prompt max_output_tokens temp)
    = PostReturns resp ->
  status_code resp = 200%Z ->
  json_body resp = Some (JDict fields) ->
  dict_lookup "candidates" fields = Some (JList (JDict c0 :: rest)) ->
  dict_lookup "content" c0 = Some (JDict content) ->
  dict_lookup "parts" content = Some (JList (JDict part :: parts)) ->
  dict_lookup "text" part = Some (JStr text) ->
  text <> "" ->
  dict_lookup "finishReason" c0 <> Some (JStr "MAX_TOKENS") ->
  call_gemini h self prompt max_output_tokens temp = JStr text.
Proof.
  intros Hkey Hpost Hstatus Hbody Hc Hcontent Hparts Htext Hne Hreason.
  unfold call_gemini. rewrite Hkey, Hpost, Hbody, Hstatus.
  rewrite (dict_lookup_nonempty _ _ _ Hc).
  change (negb (200 =? 200)%Z || negb true) with false. cbv iota.
  rewrite (extract_text_first_part _ _ _ _ _ _ _ Hc Hcontent Hparts Htext).
  assert (Htr : truncation_reply (JDict fields) (JStr text) = None).
  { unfold truncation_reply, first_candidate, attr_get, bind, dict_get, dict_get_default.
    rewrite Hc. unfold py_or. change (truthy (JList (JDict c0 :: rest))) with true.
    cbv iota. unfold index0.
    destruct (dict_lookup "finishReason" c0) as [v|] eqn:Hf.
    - unfold str_eq. destruct v; rewrite ?andb_false_r; try reflexivity.
      destruct (String.eqb_spec s "MAX_TOKENS") as [->|_]; [congruence|].
      now rewrite andb_false_r.
    - now rewrite andb_false_r. }
  rewrite Htr. unfold truthy.
  destruct (String.eqb_spec text ""); [congruence|reflexivity].
Qed.

Lemma call_gemini_returns_text_witness :
  call_gemini (Sample.sample_host (Sample.model_answer "Take it with food." "STOP") [])
    (Sample.online_agent []) "how?" 512 DEFAULT_TEMPERATURE
  = JStr "Take it with food.".
Proof.
  refine (call_gemini_returns_text
            (Sample.sample_host (Sample.model_answer "Take it with food." "STOP") [])
            (Sample.online_agent []) "how?" "key" 512 DEFAULT_TEMPERATURE
            _ _ _ _ _ [] [] "Take it with food." _ _ _ _ _ _ _ _ _ _);
    try reflexivity; discriminate.
Defined.

(** X10.  With a credential configured, every failure of the exchange is
    answered by a fixed string: a request that raises, a status other than
    200 (whatever the body), a body that does not decode or decodes to a
    value that counts as false, and a decoded body that is not an object. *)
Theorem call_gemini_failures (h : host) (self : agent) (prompt key : string)
    (max_output_tokens : Z) (temp : float) :
  configured_key self = Some key ->
  let outcome := requests_post h (gemini_request self key prompt max_output_tokens temp) in
  let reply := call_gemini h self prompt max_output_tokens temp in
  (outcome = PostRaises -> reply = JStr "SIMULATED MODEL RESPONSE (request error).")
  /\ (forall resp,
        outcome = PostReturns resp ->
        status_code resp <> 200%Z
        \/ json_body resp = None
        \/ (exists body, json_body resp = Some body /\ truthy body = false) ->
        reply = JStr "SIMULATED MODEL RESPONSE (API error). See logs.")
  /\ (forall resp body,
        outcome = PostReturns resp ->
        status_code resp = 200%Z ->
        json_body resp = Some body ->
        truthy body = true ->
        (forall fields, body <> JDict fields) ->
        reply = JStr "SIMULATED MODEL RESPONSE (unparseable). See logs.").
Proof.
  intros Hkey. cbv zeta. unfold call_gemini. rewrite Hkey. split; [|split].
  - intros ->. reflexivity.
  - intros resp -> [Hs|[Hb|(body & Hb & Hf)]].
    + destruct (Z.eqb_spec (status_code resp) 200); [congruence|reflexivity].
    + rewrite Hb. now rewrite orb_true_r.
    + rewrite Hb, Hf. now rewrite orb_true_r.
  - intros resp body -> Hs Hb Ht Hshape. rewrite Hb, Hs, Ht.
    change (negb (200 =? 200)%Z || negb true) with false. cbv iota.
    destruct body; try (exfalso; eapply Hshape; reflexivity); reflexivity.
Qed.

Lemma call_gemini_failures_witness :
  call_gemini
    (Sample.sample_host
       (PostReturns {| status_code := 200; json_body := Some (JList [JInt 1]) |}) [])
    (Sample.online_agent []) "hi" 512 DEFAULT_TEMPERATURE
  = JStr "SIMULATED MODEL RESPONSE (unparseable). See logs.".
Proof.
  refine (proj2 (proj2 (call_gemini_failures
                          (Sample.sample_host
                             (PostReturns {| status_code := 200;
                                             json_body := Some (JList [JInt 1]) |}) [])
                          (Sample.online_agent []) "hi" "key" 512 DEFAULT_TEMPERATURE _))
            _ (JList [JInt 1]) _ _ _ _ _);
    try reflexivity; discriminate.
Defined.

Lemma part_texts parts texts :
  Forall2 (fun p s => exists pfields,
               p = JDict pfields /\ dict_lookup "text" pfields = Some (JStr s))
    parts texts ->
  flat_map (fun c =>
              match c with
              | JDict fields =>
                  if dict_has "text" fields then [dict_get "text" fields] else []
              | _ => []
              end) parts
  = map JStr texts.
Proof.
  induction 1 as [|p s parts texts (pf & -> & Hp) _ IH]; [reflexivity|].
  cbn [flat_map]. rewrite IH.
  unfold dict_has, dict_get, dict_get_default. now rewrite Hp.
Qed.

Lemma attr_get_dict fields k v :
  dict_lookup k fields = Some v -> attr_get (JDict fields) k = Ok v.
Proof. intros H. unfold attr_get, dict_get, dict_get_default. now rewrite H. Qed.

Lemma message_texts_of m texts :
  message_with_texts m texts -> message_texts m = Ok (map JStr texts).
Proof.
  intros (mfields & parts & -> & Hcontent & Hparts).
  unfold message_texts. rewrite (attr_get_dict _ _ _ Hcontent). unfold bind.
  assert (Hiter : py_iter (py_or (JList parts) (JList [])) = Ok parts)
    by (destruct parts; reflexivity).
  rewrite Hiter. cbv beta iota. now rewrite (part_texts _ _ Hparts).
Qed.

Lemma join_values_strs sep l : join_values sep (map JStr l) = Ok (join sep l).
Proof.
  unfold join_values.
  assert (H : mapM as_str (map JStr l) = Ok l).
  { induction l as [|x l IH]; [reflexivity|]. simpl. now rewrite IH. }
  now rewrite H.
Qed.

(** X11.  A body without candidates and without a string [output_text],
    but with a [messages] list whose messages carry text parts:
    [extract_text] returns all the texts, message after message and part
    after part, joined by line feeds. *)
Theorem extract_text_joins_messages (fields : list (string * json))
    (msgs : list json) (tss : list (list string)) :
  truthy (dict_get "candidates" fields) = false ->
  (forall s, dict_lookup "output_text" fields <> Some (JStr s)) ->
  dict_lookup "messages" fields = Some (JList msgs) ->
  Forall2 message_with_texts msgs tss ->
  concat tss <> [] ->
  extract_text (JDict fields) = JStr (join nl (concat tss)).
Proof.
  intros Hc Hout Hm Hmsgs Hne.
  assert (HmapM : mapM message_texts msgs = Ok (map (map JStr) tss)).
  { clear - Hmsgs. induction Hmsgs as [|m ts msgs tss Hmt _ IH]; [reflexivity|].
    simpl. rewrite (message_texts_of _ _ Hmt). simpl. now rewrite IH. }
  assert (Hconcat : concat (map (map JStr) tss) = map JStr (concat tss)).
  { clear. induction tss as [|ts tss IH]; [reflexivity|].
    simpl. now rewrite IH, map_app. }
  assert (Hmessages : messages_text fields = Ok (Some (JStr (join nl (concat tss))))).
  { unfold messages_text, dict_has, dict_get_default. rewrite Hm.
    unfold py_iter, bind. rewrite HmapM, Hconcat.
    pose proof (join_values_strs nl (concat tss)) as Hjoin.
    destruct (concat tss) as [|t ts]; [congruence|].
    cbn [map] in *. now rewrite Hjoin. }
  unfold extract_text, extract_text_try, attr_get, bind.
  unfold py_or, candidate_text. rewrite Hc. cbv iota.
  change (truthy (JList [])) with false. cbv iota.
  destruct (dict_lookup "output_text" fields) as [[]|] eqn:Ho;
    try (exfalso; eapply Hout; reflexivity); now rewrite Hmessages.
Qed.

Lemma extract_text_joins_messages_witness :
  extract_text
    (JDict [("messages",
             JList [JDict [("role", JStr "model");
                           ("content", JList [JDict [("text", JStr "Line one")];
                                              JDict [("text", JStr "Line two")]])]])])
  = JStr ("Line one" ++ nl ++ "Line two").
Proof.
  apply (extract_text_joins_messages
           [("messages",
             JList [JDict [("role", JStr "model");
                           ("content", JList [JDict [("text", JStr "Line one")];
                                              JDict [("text", JStr "Line two")]])]])]
           [JDict [("role", JStr "model");
                   ("content", JList [JDict [("text", JStr "Line one")];
                                      JDict [("text", JStr "Line two")]])]]
           [["Line one"; "Line two"]]).
  - reflexivity.
  - discriminate.
  - reflexivity.
  - repeat constructor.
    exists [("role", JStr "model");
            ("content", JList [JDict [("text", JStr "Line one")];
                               JDict [("text", JStr "Line two")]])],
           [JDict [("text", JStr "Line one")]; JDict [("text", JStr "Line two")]].
    repeat split.
    repeat constructor; eexists; split; reflexivity.
  - discriminate.
Defined.

End GatewayLaws.

(** ** More on the memory search *)

Module SearchLaws.

Import PyStr ConvoAgent PyStrFacts SearchFacts.

Lemma is_word_lower_char c : is_word (lower_char c) = is_word c.
Proof. destruct c as [[] [] [] [] [] [] [] []]; reflexivity. Qed.

Lemma is_word_upper_char c : is_word (upper_char c) = is_word c.
Proof. destruct c as [[] [] [] [] [] [] [] []]; reflexivity. Qed.

Lemma lower_upper_char c : lower_char (upper_char c) = lower_char c.
Proof. destruct c as [[] [] [] [] [] [] [] []]; reflexivity. Qed.

Lemma word_runs_map_chars f s :
  (forall c, is_word (f c) = is_word c) ->
  forall in_word,
    word_runs in_word (map_chars f s) = map (map_chars f) (word_runs in_word s).
Proof.
  intros Hf. induction s as [|c s IH]; intros in_word.
  - destruct in_word; reflexivity.
  - simpl. rewrite Hf. destruct (is_word c).
    + rewrite IH. destruct (word_runs true s); reflexivity.
    + destruct in_word; simpl; now rewrite IH.
Qed.

Lemma filter_map_comm {A} (p : A -> bool) (f : A -> A) (l : list A) :
  (forall x, p (f x) = p x) -> List.filter p (map f l) = map f (List.filter p l).
Proof.
  intros Hp. induction l as [|x l IH]; [reflexivity|].
  simpl. rewrite Hp. destruct (p x); simpl; now rewrite IH.
Qed.

(** The tokens of a query do not change when its letters change case. *)
Lemma query_tokens_map_chars f query :
  (forall c, is_word (f c) = is_word c) ->
  (forall c, lower_char (f c) = lower_char c) ->
  query_tokens (map_chars f query) = query_tokens query.
Proof.
  intros Hword Hlower. unfold query_tokens, findall_words.
  rewrite word_runs_map_chars by exact Hword.
  rewrite filter_map_comm by (intros w; now rewrite map_chars_length).
  rewrite map_map. f_equal. apply map_ext. intros w. unfold lower.
  induction w as [|c w IH]; [reflexivity|]. simpl. now rewrite Hlower, IH.
Qed.

Lemma search_memory_tokens h self user_id q q' max_results :
  query_tokens q = query_tokens q' ->
  search_memory h self user_id q max_results = search_memory h self user_id q' max_results.
Proof. intros H. unfold search_memory. now rewrite H. Qed.

(** The search does not depend on the letter case of the query: the
    query in lower case, or in upper case, finds the same events. *)
Theorem search_memory_ignores_query_case (h : host) (self : agent)
    (user_id query : string) (max_results : Z) :
  search_memory h self user_id (lower query) max_results
  = search_memory h self user_id query max_results
  /\ search_memory h self user_id (upper query) max_results
     = search_memory h self user_id query max_results.
Proof.
  split; apply search_memory_tokens, query_tokens_map_chars.
  - apply is_word_lower_char.
  - apply lower_char_idem.
  - apply is_word_upper_char.
  - apply lower_upper_char.
Qed.

(** X12.  With [max_results] zero or negative the loop stops after the
    first event it looks at: the result is the newest event when it
    matches, and empty otherwise, however many older events match. *)
Theorem search_memory_nonpositive_cap (h : host) (self : agent)
    (user_id query : string) (max_results : Z) :
  (max_results <= 0)%Z ->
  search_memory h self user_id query max_results =
  match query_tokens query, rev (MemoryBank.get_user_memory (memory self) user_id) with
  | _ :: _, newest :: _ =>
      if event_matches h (query_tokens query) newest then [newest] else []
  | _, _ => []
  end.
Proof.
  intros Hcap. unfold search_memory.
  destruct (MemoryBank.get_user_memory (memory self) user_id) as [|e es] eqn:E.
  - destruct (query_tokens query); reflexivity.
  - destruct (query_tokens query) as [|t ts]; [reflexivity|].
    destruct (rev (e :: es)) as [|newest older] eqn:Er.
    + apply (f_equal (@length _)) in Er. rewrite length_rev in Er. discriminate.
    + cbn [search_loop]. destruct (event_matches h (t :: ts) newest); cbn [app length].
      * destruct (Z.leb_spec max_results (Z.of_nat 1)); [reflexivity|lia].
      * destruct (Z.leb_spec max_results (Z.of_nat 0)); [reflexivity|lia].
Qed.

Lemma search_memory_nonpositive_cap_witness :
  search_memory (Sample.sample_host PostRaises [])
    (Sample.online_agent
       [Sample.took_metformin;
        [("type", JStr "adherence_event"); ("med", JStr "Metformin XR")];
        [("type", JStr "note"); ("text", JStr "call the pharmacy")]])
    "u1" "metformin" 0
  = [].
Proof.
  apply (search_memory_nonpositive_cap (Sample.sample_host PostRaises [])
           (Sample.online_agent
              [Sample.took_metformin;
               [("type", JStr "adherence_event"); ("med", JStr "Metformin XR")];
               [("type", JStr "note"); ("text", JStr "call the pharmacy")]])
           "u1" "metformin" 0).
  lia.
Defined.

(** X13.  For a positive [max_results] the search returns the first
    [max_results] matching events, newest first; with a larger cap the same
    events come first and only older matches are added. *)
Theorem search_memory_prefix (h : host) (self : agent) (user_id query : string)
    (n m : Z) :
  (1 <= n <= m)%Z ->
  search_memory h self user_id query n
  = take (Z.to_nat n) (search_memory h self user_id query m)
  /\ (length (search_memory h self user_id query n) <= Z.to_nat n)%nat
  /\ Forall (fun ev => event_matches h (query_tokens query) ev = true
                       /\ In ev (MemoryBank.get_user_memory (memory self) user_id))
       (search_memory h self user_id query n).
Proof.
  intros Hnm.
  pose proof (search_memory_take h self user_id query (Z.to_nat n) ltac:(lia)) as Hn.
  pose proof (search_memory_take h self user_id query (Z.to_nat m) ltac:(lia)) as Hm.
  rewrite !Z2Nat.id in Hn, Hm by lia. rewrite Hn, Hm.
  destruct (query_tokens query) as [|t ts] eqn:Et.
  - split; [now rewrite take_nil|]. split; [simpl; lia|constructor].
  - rewrite <- Et. split; [|split].
    + rewrite take_take. f_equal. lia.
    + rewrite length_take. lia.
    + apply Forall_take. rewrite List.Forall_forall. intros ev Hev.
      apply filter_In in Hev as [Hin Hmatch]. split; [exact Hmatch|].
      now apply in_rev.
Qed.

Lemma search_memory_prefix_witness :
  search_memory (Sample.sample_host PostRaises [])
    (Sample.online_agent [Sample.took_metformin; Sample.took_metformin]) "u1" "metformin" 1
  = take (Z.to_nat 1)
      (search_memory (Sample.sample_host PostRaises [])
         (Sample.online_agent [Sample.took_metformin; Sample.took_metformin])
         "u1" "metformin" 10).
Proof.
  apply (search_memory_prefix (Sample.sample_host PostRaises [])
           (Sample.online_agent [Sample.took_metformin; Sample.took_metformin])
           "u1" "metformin" 1 10).
  lia.
Defined.

(** For a user without stored events, and for a query without a word
    longer than 2 characters, the search is empty for every cap and the
    responder returns what [call_gemini] returns for the query. *)
Theorem respond_without_memory (h : host) (self : agent) (user_id query : string) :
  MemoryBank.get_user_memory (memory self) user_id = [] \/ query_tokens query = [] ->
  (forall max_results, search_memory h self user_id query max_results = [])
  /\ respond_with_memory_first h self user_id query
     = Ok (call_gemini h self query DEFAULT_MAX_OUTPUT_TOKENS DEFAULT_TEMPERATURE).
Proof.
  intros Hempty.
  assert (Hsearch : forall max_results, search_memory h self user_id query max_results = []).
  { intros max_results. unfold search_memory. destruct Hempty as [-> | ->].
    - reflexivity.
    - destruct (MemoryBank.get_user_memory _ _); reflexivity. }
  split; [exact Hsearch|]. unfold respond_with_memory_first. now rewrite Hsearch.
Qed.

Lemma respond_without_memory_witness :
  respond_with_memory_first (Sample.sample_host PostRaises [])
    (Sample.offline_agent [Sample.took_metformin]) "nobody" "metformin"
  = Ok (call_gemini (Sample.sample_host PostRaises [])
          (Sample.offline_agent [Sample.took_metformin]) "metformin"
          DEFAULT_MAX_OUTPUT_TOKENS DEFAULT_TEMPERATURE).
Proof.
  apply (respond_without_memory (Sample.sample_host PostRaises [])
           (Sample.offline_agent [Sample.took_metformin]) "nobody" "metformin").
  left. vm_compute. reflexivity.
Defined.

End SearchLaws.

(** ** More on the summarizer and the responder *)

Module ResponderLaws.

Import PyStr ConvoAgent PyStrFacts ResponderFacts.

Lemma mapM_take {A B} (f : A -> result B) n (l : list A) : forall ys,
  mapM f l = Ok ys -> mapM f (take n l) = Ok (take n ys).
Proof.
  revert n. induction l as [|x l IH]; intros n ys H; simpl in H.
  - injection H as <-. now rewrite !take_nil.
  - destruct (f x) as [y|e] eqn:Ex; simpl in H; [|discriminate].
    destruct (mapM f l) as [ys'|e] eqn:El; simpl in H; [|discriminate].
    injection H as <-. destruct n as [|n]; [reflexivity|].
    simpl. rewrite Ex. simpl. now rewrite (IH n ys' eq_refl).
Qed.

Lemma mapM_length {A B} (f : A -> result B) (l : list A) ys :
  mapM f l = Ok ys -> length ys = length l.
Proof.
  intros H. apply mapM_Forall2 in H. symmetry. eapply Forall2_length. exact H.
Qed.

(** X14.  A concise summary shows the first 20 events only: when
    [summarize_events] returns for a list, it returns the same text for the
    first 20 events of the list. *)
Theorem summarize_events_first_twenty (h : host) (self : agent)
    (events : list event) (v : json) :
  summarize_events h self events true = Ok v ->
  summarize_events h self (take 20 events) true = Ok v.
Proof.
  unfold summarize_events. intros H.
  destruct events as [|ev evs]; [exact H|].
  change (take 20 (ev :: evs)) with (ev :: take 19 evs).
  destruct (mapM (bullet h) (ev :: evs)) as [bullets|e] eqn:Hm; [|discriminate].
  apply (mapM_take _ 20) in Hm.
  change (take 20 (ev :: evs)) with (ev :: take 19 evs) in Hm. rewrite Hm.
  unfold bind in *. rewrite andb_false_r in *. now rewrite take_idemp.
Qed.

Lemma summarize_events_first_twenty_witness :
  summarize_events (Sample.sample_host PostRaises []) (Sample.offline_agent [])
    (take 20 (repeat Sample.took_metformin 25)) true
  = Ok (JStr (join nl (repeat "- Took Metformin at 1700000000" 20))).
Proof.
  apply (summarize_events_first_twenty (Sample.sample_host PostRaises [])
           (Sample.offline_agent []) (repeat Sample.took_metformin 25)).
  vm_compute. reflexivity.
Defined.

(** X15.  With [concise] off and more than 20 events that all render, the
    local summary is never returned: the result is what [call_gemini]
    returns for the compression prompt built around the first 20 bullets. *)
Theorem summarize_events_long_list (h : host) (self : agent) (events : list event)
    (summary : string) :
  (20 < length events)%nat ->
  summarize_events h self events true = Ok (JStr summary) ->
  summarize_events h self events false
  = Ok (call_gemini h self
          ("Summarize these patient events into 3 concise lines:" ++ nl ++ nl ++ summary)
          200 DEFAULT_TEMPERATURE).
Proof.
  unfold summarize_events. intros Hlen H.
  destruct events as [|ev evs]; [simpl in Hlen; lia|].
  destruct (mapM (bullet h) (ev :: evs)) as [bullets|e] eqn:Hm; [|discriminate].
  apply mapM_length in Hm. unfold bind in *.
  rewrite andb_false_r in H. injection H as <-.
  replace (20 <? length bullets)%nat with true
    by (symmetry; apply Nat.ltb_lt; lia).
  cbn [negb andb]. f_equal. unfold py_or.
  now rewrite GatewayLaws.call_gemini_truthy.
Qed.

Lemma summarize_events_long_list_witness :
  summarize_events (Sample.sample_host PostRaises []) (Sample.offline_agent [])
    (repeat Sample.took_metformin 21) false
  = Ok (call_gemini (Sample.sample_host PostRaises []) (Sample.offline_agent [])
          ("Summarize these patient events into 3 concise lines:" ++ nl ++ nl
           ++ join nl (repeat "- Took Metformin at 1700000000" 20))
          200 DEFAULT_TEMPERATURE).
Proof.
  apply (summarize_events_long_list (Sample.sample_host PostRaises [])
           (Sample.offline_agent []) (repeat Sample.took_metformin 21)).
  - simpl. lia.
  - vm_compute. reflexivity.
Defined.

Lemma search_loop_same_dumps h h' toks max_results evs : forall matches,
  json_dumps h = json_dumps h' ->
  search_loop h toks max_results evs matches = search_loop h' toks max_results evs matches.
Proof.
  induction evs as [|ev evs IH]; intros matches Hd; [reflexivity|].
  cbn [search_loop]. unfold event_matches. rewrite Hd.
  destruct (_ <=? _)%Z; [reflexivity|]. now apply IH.
Qed.

Lemma bullet_same_runtime h h' ev :
  py_repr h = py_repr h' -> strftime_local h = strftime_local h' ->
  bullet h ev = bullet h' ev.
Proof. intros Hr Hs. unfold bullet, py_str. now rewrite Hr, Hs. Qed.

Lemma mapM_ext {A B} (f g : A -> result B) (l : list A) :
  (forall x, f x = g x) -> mapM f l = mapM g l.
Proof. intros H. induction l as [|x l IH]; [reflexivity|]. simpl. now rewrite H, IH. Qed.

(** X16.  When the search finds events, the answer of the responder is
    made locally: two environments that agree on the Python runtime
    ([repr], [json.dumps], the time formatting) give the same result,
    whatever their networks answer. *)
Theorem respond_answers_locally (h h' : host) (self : agent) (user_id query : string) :
  py_repr h = py_repr h' ->
  json_dumps h = json_dumps h' ->
  strftime_local h = strftime_local h' ->
  search_memory h self user_id query 8 <> [] ->
  respond_with_memory_first h self user_id query
  = respond_with_memory_first h' self user_id query.
Proof.
  intros Hr Hd Hs Hfound.
  assert (Hsearch : search_memory h' self user_id query 8 = search_memory h self user_id query 8).
  { unfold search_memory. destruct (MemoryBank.get_user_memory _ _); [reflexivity|].
    destruct (query_tokens query); [reflexivity|].
    symmetry. now apply search_loop_same_dumps. }
  unfold respond_with_memory_first. rewrite Hsearch.
  destruct (search_memory h self user_id query 8) as [|ev evs]; [congruence|].
  assert (Hsum : summarize_events h' self (ev :: evs) true
                 = summarize_events h self (ev :: evs) true).
  { unfold summarize_events.
    rewrite (mapM_ext (bullet h') (bullet h))
      by (intros x; symmetry; now apply bullet_same_runtime).
    destruct (mapM (bullet h) (ev :: evs)); [|reflexivity].
    unfold bind. now rewrite !andb_false_r. }
  rewrite Hsum.
  destruct (summarize_events h self (ev :: evs) true) as [v|e] eqn:Hv; [|reflexivity].
  destruct (summarize_events_returns h self (ev :: evs) true v
              ltac:(discriminate) (or_introl eq_refl) Hv) as [text ->].
  unfold bind.
  destruct (String.eqb_spec (strip ("- " ++ text)) "") as [E|_]; [|reflexivity].
  now apply dash_visible in E.
Qed.

Lemma respond_answers_locally_witness :
  respond_with_memory_first (Sample.sample_host PostRaises [])
    (Sample.online_agent [Sample.took_metformin]) "u1" "metformin"
  = respond_with_memory_first
      (Sample.sample_host (Sample.model_answer "Ask your doctor." "STOP") [])
      (Sample.online_agent [Sample.took_metformin]) "u1" "metformin".
Proof.
  apply (respond_answers_locally (Sample.sample_host PostRaises [])
           (Sample.sample_host (Sample.model_answer "Ask your doctor." "STOP") [])
           (Sample.online_agent [Sample.took_metformin]) "u1" "metformin").
  - reflexivity.
  - reflexivity.
  - reflexivity.
  - vm_compute. discriminate.
Defined.

End ResponderLaws.

(** ** The features of the agent that write to memory *)

Module AgentLaws.

Import PyStr ConvoAgent PyStrFacts MemoryBankFacts.

Lemma setdefault_present k v (d : list (string * json)) :
  dict_has k d = true -> dict_setdefault k v d = d.
Proof. intros H. unfold dict_setdefault. now rewrite H. Qed.

Lemma py_take_cons {A} (n : Z) (x : A) (l : list A) :
  (0 < n)%Z -> py_take n (x :: l) = x :: py_take (n - 1) l.
Proof.
  intros Hn. unfold py_take.
  destruct (Z.leb_spec 0 n); [|lia]. destruct (Z.leb_spec 0 (n - 1)); [|lia].
  replace (Z.to_nat n) with (S (Z.to_nat (n - 1))) by lia. reflexivity.
Qed.

Lemma recent_after_append self user_id ev now' :
  dict_has "recorded_at" ev = true ->
  rev (MemoryBank.get_user_memory
         (MemoryBank.append_user_event (memory self) user_id ev now') user_id)
  = ev :: rev (MemoryBank.get_user_memory (memory self) user_id).
Proof.
  intros H. rewrite get_user_memory_append_same, setdefault_present by exact H.
  now rewrite rev_app_distr.
Qed.

(** X17.  [send_reminder_and_record] adds one adherence event at the end
    of the user's memory: its [med] is never empty (["medication"] when the
    reminder names none), its [recorded_at] is the timestamp taken by the
    function and not the clock of the append, and it is from then on the
    first entry of [get_recent_adherence]. *)
Theorem send_reminder_recorded (h : host) (self : agent) (user_id : string)
    (ev : event) (timestamp now' : float) (n : Z) :
  (0 < n)%Z ->
  let out := send_reminder_and_record h self user_id ev timestamp now' in
  let entry := reminder_entry user_id ev timestamp in
  MemoryBank.get_user_memory (snd out) user_id
  = (MemoryBank.get_user_memory (memory self) user_id ++ [entry])%list
  /\ get_recent_adherence (with_memory self (snd out)) user_id n
     = entry :: get_recent_adherence self user_id (n - 1)
  /\ truthy (dict_get "med" entry) = true
  /\ dict_get "recorded_at" entry = JFloat timestamp
  /\ dict_get "timestamp" entry = JFloat timestamp
  /\ dict_lookup "saved" (fst out) = Some (JBool true).
Proof.
  intros Hn. cbv zeta. unfold send_reminder_and_record. cbn [fst snd].
  split; [|split; [|split; [|split; [|split]]]]; try reflexivity.
  - rewrite get_user_memory_append_same. now rewrite setdefault_present.
  - unfold get_recent_adherence, with_memory. cbn [memory].
    rewrite recent_after_append by reflexivity.
    cbn [List.filter]. change (is_adherence (reminder_entry user_id ev timestamp)) with true.
    cbv iota. now apply py_take_cons.
  - change (dict_get "med" (reminder_entry user_id ev timestamp)) with (reminder_med ev).
    unfold reminder_med, py_or.
    destruct (truthy (dict_get "med" ev)) eqn:E1; [exact E1|].
    destruct (truthy (dict_get "med_name" ev)) eqn:E2; [exact E2|reflexivity].
Qed.

Lemma send_reminder_recorded_witness :
  get_recent_adherence
    (with_memory (Sample.offline_agent [Sample.took_metformin])
       (snd (send_reminder_and_record (Sample.sample_host PostRaises [])
               (Sample.offline_agent [Sample.took_metformin]) "u1"
               [("time", JStr "08:00")] float_zero float_zero)))
    "u1" 5
  = reminder_entry "u1" [("time", JStr "08:00")] float_zero
    :: get_recent_adherence (Sample.offline_agent [Sample.took_metformin]) "u1" (5 - 1).
Proof.
  apply (send_reminder_recorded (Sample.sample_host PostRaises [])
           (Sample.offline_agent [Sample.took_metformin]) "u1"
           [("time", JStr "08:00")] float_zero float_zero 5).
  lia.
Defined.

(** X18.  [doctor_add_advice] answers [True] and adds the note at the end
    of the user's memory; the note renders in a summary as
    ["- Doctor <doctor_id> advised: <advice_text>"], and the list of recent
    adherence events is unchanged by it. *)
Theorem doctor_add_advice_recorded (h : host) (self : agent)
    (user_id doctor_id advice_text : string) (related : option (list string))
    (t1 t2 now' : float) (n : Z) :
  let out := doctor_add_advice self user_id doctor_id advice_text related t1 t2 now' in
  let note := doctor_note user_id doctor_id advice_text related t1 t2 in
  fst out = true
  /\ MemoryBank.get_user_memory (snd out) user_id
     = (MemoryBank.get_user_memory (memory self) user_id ++ [note])%list
  /\ get_recent_adherence (with_memory self (snd out)) user_id n
     = get_recent_adherence self user_id n
  /\ bullet h note = Ok ("- Doctor " ++ doctor_id ++ " advised: " ++ advice_text).
Proof.
  cbv zeta. unfold doctor_add_advice. cbn [fst snd].
  split; [reflexivity|]. split; [|split].
  - rewrite get_user_memory_append_same. now rewrite setdefault_present.
  - unfold get_recent_adherence, with_memory. cbn [memory].
    rewrite recent_after_append by reflexivity. reflexivity.
  - reflexivity.
Qed.

Lemma filter_sublist' {A} (f : A -> bool) (l : list A) : sublist (List.filter f l) l.
Proof.
  induction l as [|x l IH]; simpl; [constructor|]. destruct (f x); now constructor.
Qed.

(** [get_recent_adherence] returns adherence events only, newest
    first, as a subsequence of the reversed memory; for [n >= 0] at most
    [n] of them, and for a negative [n] all but the [-n] oldest. *)
Theorem get_recent_adherence_result (self : agent) (user_id : string) (n : Z) :
  let found := get_recent_adherence self user_id n in
  let all := List.filter is_adherence
               (rev (MemoryBank.get_user_memory (memory self) user_id)) in
  Forall (fun e => dict_get "type" e = JStr "adherence_event") found
  /\ sublist found (rev (MemoryBank.get_user_memory (memory self) user_id))
  /\ ((0 <= n)%Z -> found = take (Z.to_nat n) all /\ (length found <= Z.to_nat n)%nat)
  /\ ((n < 0)%Z -> found = take (length all - Z.to_nat (- n)) all).
Proof.
  cbv zeta. unfold get_recent_adherence, py_take.
  set (all := List.filter is_adherence _).
  assert (Hall : Forall (fun e => dict_get "type" e = JStr "adherence_event") all).
  { rewrite List.Forall_forall. intros e He. apply filter_In in He as [_ He].
    unfold is_adherence, str_eq in He.
    destruct (dict_get "type" e); try discriminate.
    apply String.eqb_eq in He. now subst. }
  assert (Hsub : forall k, sublist (take k all)
                             (rev (MemoryBank.get_user_memory (memory self) user_id))).
  { intros k. etransitivity; [apply sublist_take|apply filter_sublist']. }
  destruct (Z.leb_spec 0 n).
  - split; [now apply Forall_take|]. split; [apply Hsub|]. split; [|lia].
    intros _. split; [reflexivity|]. rewrite length_take. lia.
  - split; [now apply Forall_take|]. split; [apply Hsub|]. split; [lia|]. reflexivity.
Qed.

Lemma append_keeps_fields self user_id ev now' :
  MemoryBank.all_events_have_required_fields self ->
  dict_has "user_id" ev = true ->
  MemoryBank.all_events_have_required_fields
    (MemoryBank.append_user_event self user_id ev now').
Proof.
  intros Hall Huid u e Hin.
  destruct (String.eqb_spec user_id u) as [<-|Hne].
  - rewrite get_user_memory_append_same in Hin.
    apply in_app_iff in Hin as [Hold|[<-|[]]]; [now apply (Hall user_id)|].
    unfold MemoryBank.has_required_fields.
    rewrite dict_has_setdefault, dict_has_setdefault_other by discriminate.
    now rewrite Huid.
  - rewrite get_user_memory_append_other in Hin by exact Hne. now apply (Hall u).
Qed.

(** X19.  Every event the program writes itself carries [user_id], and
    [recorded_at] is set by the append: when all stored events have both
    fields, they still do after a reminder, a doctor's note, a document
    upload and a chat turn. *)
Theorem writers_keep_required_fields (h : host) (self : agent) (user_id : string) :
  MemoryBank.all_events_have_required_fields (memory self) ->
  (forall ev timestamp now',
     MemoryBank.all_events_have_required_fields
       (snd (send_reminder_and_record h self user_id ev timestamp now')))
  /\ (forall doctor_id advice_text related t1 t2 now',
        MemoryBank.all_events_have_required_fields
          (snd (doctor_add_advice self user_id doctor_id advice_text related t1 t2 now')))
  /\ (forall doc_text now now',
        MemoryBank.all_events_have_required_fields
          (snd (handle_uploaded_document h self user_id doc_text now now')))
  /\ (forall q ts now' resp after,
        CliChat.chat_turn h self q ts now' = Ok (resp, after) ->
        MemoryBank.all_events_have_required_fields after).
Proof.
  intros Hall. split; [|split; [|split]].
  - intros ev timestamp now'. unfold send_reminder_and_record. cbn [snd].
    apply append_keeps_fields; [exact Hall|reflexivity].
  - intros doctor_id advice_text related t1 t2 now'. unfold doctor_add_advice. cbn [snd].
    apply append_keeps_fields; [exact Hall|reflexivity].
  - intros doc_text now now'. unfold handle_uploaded_document. cbn [snd].
    apply append_keeps_fields; [exact Hall|reflexivity].
  - intros q ts now' resp after H. unfold CliChat.chat_turn, bind in H.
    destruct (respond_with_memory_first h self CliChat.UID q); [|discriminate].
    injection H as <- <-. apply append_keeps_fields; [|reflexivity].
    exact Hall.
Qed.

Lemma writers_keep_required_fields_witness :
  MemoryBank.all_events_have_required_fields
    (snd (send_reminder_and_record (Sample.sample_host PostRaises [])
            (with_memory (Sample.offline_agent []) (MemoryBank.fresh "memory.json"))
            "u1" [("med", JStr "Aspirin")] float_zero float_zero)).
Proof.
  refine (proj1 (writers_keep_required_fields (Sample.sample_host PostRaises [])
                   (with_memory (Sample.offline_agent []) (MemoryBank.fresh "memory.json"))
                   "u1" _) _ _ _).
  intros u e H. cbn [with_memory memory] in H.
  rewrite get_user_memory_fresh in H. destruct H.
Defined.

End AgentLaws.

(** ** More on the document intake *)

Module DocumentLaws.

Import PyStr ConvoAgent PyStrFacts MemoryBankFacts DocumentFacts.

Lemma table_row_elem kw (tbl : list (string * list string)) : forall (acc : gset string) s,
  s ∈ fold_left
        (fun (suggested : gset string) '(token, specs) =>
           if contains token (lower kw) then suggested ∪ list_to_set specs
           else suggested)
        tbl acc
  <-> s ∈ acc
      \/ exists token specs,
           In (token, specs) tbl /\ contains token (lower kw) = true /\ In s specs.
Proof.
  induction tbl as [|[token specs] tbl IH]; intros acc s; simpl.
  - split; [auto|]. intros [H|(? & ? & [] & _)]. exact H.
  - rewrite IH. split.
    + intros [H|(t & sp & Hin & Hc & Hs)].
      * destruct (contains token (lower kw)) eqn:E; [|now left].
        apply elem_of_union in H as [H|H]; [now left|].
        right. exists token, specs. rewrite elem_of_list_to_set, list_elem_of_In in H. auto.
      * right. exists t, sp. auto.
    + intros [H|(t & sp & [[= -> ->]|Hin] & Hc & Hs)].
      * left. destruct (contains token (lower kw)); [|exact H].
        apply elem_of_union. now left.
      * left. rewrite Hc. apply elem_of_union. right.
        now rewrite elem_of_list_to_set, list_elem_of_In.
      * right. exists t, sp. auto.
Qed.

Lemma rule_based_from (kws : list string) : forall (acc : gset string) s,
  s ∈ fold_left
        (fun (suggested : gset string) kw =>
           fold_left
             (fun (suggested : gset string) '(token, specs) =>
                if contains token (lower kw) then suggested ∪ list_to_set specs
                else suggested)
             specialty_map suggested)
        kws acc
  <-> s ∈ acc
      \/ exists kw token specs,
           In kw kws /\ In (token, specs) specialty_map
           /\ contains token (lower kw) = true /\ In s specs.
Proof.
  induction kws as [|kw kws IH]; intros acc s; cbn [fold_left].
  - split; [auto|]. intros [H|(? & ? & ? & [] & _)]. exact H.
  - rewrite IH, table_row_elem. split.
    + intros [[H|(t & sp & Hin & Hc & Hs)]|(k & t & sp & Hk & Hrest)].
      * now left.
      * right. exists kw, t, sp. split; [now left|auto].
      * right. exists k, t, sp. split; [now right|auto].
    + intros [H|(k & t & sp & [<-|Hk] & Hin & Hc & Hs)].
      * left. now left.
      * left. right. exists t, sp. auto.
      * right. exists k, t, sp. auto.
Qed.

(** What the rule-based pass suggests. *)
Lemma rule_based_elem kws s :
  s ∈ rule_based kws
  <-> exists kw token specs,
        In kw kws /\ In (token, specs) specialty_map
        /\ contains token (lower kw) = true /\ In s specs.
Proof.
  unfold rule_based. rewrite rule_based_from. split; [|auto].
  intros [H|H]; [|exact H]. now apply not_elem_of_empty in H.
Qed.

Lemma table_specialties_complete token specs s :
  In (token, specs) specialty_map -> In s specs -> In s table_specialties.
Proof.
  intros Hrow Hs.
  assert (Hall : forallb (fun p => forallb (fun x => existsb (String.eqb x) table_specialties)
                                     (snd p)) specialty_map = true) by reflexivity.
  rewrite forallb_forall in Hall. specialize (Hall _ Hrow). cbn [snd] in Hall.
  rewrite forallb_forall in Hall. specialize (Hall _ Hs).
  apply existsb_exists in Hall as (x & Hx & E). apply String.eqb_eq in E. now subst.
Qed.

Lemma handle_uploaded_document_by_rules h self user_id doc_text now now' :
  rule_based (extract_keywords h doc_text) <> ∅ ->
  fst (handle_uploaded_document h self user_id doc_text now now')
  = rule_based (extract_keywords h doc_text).
Proof.
  intros Hne. unfold handle_uploaded_document. cbn [fst].
  now rewrite bool_decide_eq_false_2.
Qed.

(** X20.  When a keyword contains a phrase of the rule table, in any
    letter case, every specialty of that rule is suggested, the result is
    the rule-based set, and neither the network nor the credential has a
    part in it. *)
Theorem handle_uploaded_document_rule_path (h : host) (self : agent)
    (user_id doc_text : string) (now now' : float) (kw token : string)
    (specs : list string) :
  In kw (extract_keywords h doc_text) ->
  In (token, specs) specialty_map ->
  contains token (lower kw) = true ->
  specs <> [] ->
  fst (handle_uploaded_document h self user_id doc_text now now')
  = rule_based (extract_keywords h doc_text)
  /\ (forall s, In s specs ->
        s ∈ fst (handle_uploaded_document h self user_id doc_text now now'))
  /\ (forall h' self' user_id' t t',
        extract_keywords h' doc_text = extract_keywords h doc_text ->
        fst (handle_uploaded_document h' self' user_id' doc_text t t')
        = fst (handle_uploaded_document h self user_id doc_text now now')).
Proof.
  intros Hkw Hrow Hc Hspecs.
  assert (Hin : forall s, In s specs -> s ∈ rule_based (extract_keywords h doc_text)).
  { intros s Hs. apply rule_based_elem. exists kw, token, specs. auto. }
  assert (Hne : rule_based (extract_keywords h doc_text) <> ∅).
  { destruct specs as [|s0 specs]; [congruence|].
    intros E. specialize (Hin s0 (or_introl eq_refl)). rewrite E in Hin.
    now apply not_elem_of_empty in Hin. }
  rewrite (handle_uploaded_document_by_rules _ _ _ _ _ _ Hne).
  split; [reflexivity|]. split; [exact Hin|].
  intros h' self' user_id' t t' Hsame. rewrite <- Hsame.
  apply handle_uploaded_document_by_rules. now rewrite Hsame.
Qed.

Lemma handle_uploaded_document_rule_path_witness :
  fst (handle_uploaded_document (Sample.sample_host PostRaises ["type 2 DIABETES"])
         (Sample.offline_agent []) "u1" "Type 2 DIABETES." float_zero float_zero)
  = rule_based (extract_keywords (Sample.sample_host PostRaises ["type 2 DIABETES"])
                  "Type 2 DIABETES.").
Proof.
  refine (proj1 (handle_uploaded_document_rule_path
                   (Sample.sample_host PostRaises ["type 2 DIABETES"])
                   (Sample.offline_agent [])
                   "u1" "Type 2 DIABETES." float_zero float_zero
                   "type 2 DIABETES" "diabetes" ["Endocrinology"; "Internal Medicine"]
                   _ _ _ _)).
  - now left.
  - do 3 right. now left.
  - reflexivity.
  - discriminate.
Defined.

(** X21.  [handle_uploaded_document] never suggests more than 7
    specialties: the rule-based pass draws from the 7 names of the table,
    the model's reply gives at most 6 and the default gives 2. *)
Theorem handle_uploaded_document_bound (h : host) (self : agent)
    (user_id doc_text : string) (now now' : float) :
  (size (fst (handle_uploaded_document h self user_id doc_text now now')) <= 7)%nat
  /\ (rule_based (extract_keywords h doc_text) <> ∅ ->
      forall s, s ∈ fst (handle_uploaded_document h self user_id doc_text now now') ->
                In s table_specialties).
Proof.
  assert (Hsub : forall s, s ∈ rule_based (extract_keywords h doc_text) ->
                           In s table_specialties).
  { intros s Hs. apply rule_based_elem in Hs as (kw & token & specs & _ & Hrow & _ & Hs).
    now apply (table_specialties_complete token specs). }
  destruct (decide (rule_based (extract_keywords h doc_text) = ∅)) as [E|Hne].
  - split; [|congruence].
    rewrite (handle_uploaded_document_suggested _ _ _ _ _ _ E). unfold model_suggested.
    destruct (unusable_reply _).
    + etransitivity; [apply size_list_to_set_le|]. simpl. lia.
    + etransitivity; [apply size_list_to_set_le|]. rewrite length_take. lia.
  - rewrite (handle_uploaded_document_by_rules _ _ _ _ _ _ Hne). split; [|intros _; exact Hsub].
    transitivity (size (list_to_set table_specialties : gset string)).
    + apply subseteq_size. intros s Hs.
      apply elem_of_list_to_set, list_elem_of_In. now apply Hsub.
    + apply size_list_to_set_le.
Qed.

(** X22.  [handle_uploaded_document] adds one event at the end of the
    user's memory: a document summary with the keywords, the suggested
    specialties (each member of the returned set once), at most the first
    500 characters of the text, and the timestamp taken by the function.
    The event has the shape the summarizer expects, so it renders as a
    bullet and never makes a later summary raise. *)
Theorem handle_uploaded_document_recorded (h : host) (self : agent)
    (user_id doc_text : string) (now now' : float) :
  let out := handle_uploaded_document h self user_id doc_text now now' in
  exists specs entry,
    entry = [ ("type", JStr "uploaded_doc_summary");
              ("user_id", JStr user_id);
              ("keywords", JList (map JStr (extract_keywords h doc_text)));
              ("suggested_specialties", JList (map JStr specs));
              ("raw_excerpt", JStr (slice_to 500 doc_text));
              ("recorded_at", JFloat now) ]
    /\ MemoryBank.get_user_memory (snd out) user_id
       = (MemoryBank.get_user_memory (memory self) user_id ++ [entry])%list
    /\ NoDup specs
    /\ (forall s, In s specs <-> s ∈ fst out)
    /\ (String.length (slice_to 500 doc_text) <= 500)%nat
    /\ EventShape.well_formed entry = true
    /\ exists b, bullet h entry = Ok b.
Proof.
  cbv zeta. unfold handle_uploaded_document. cbn [fst snd].
  set (suggested := if bool_decide _ then _ else _).
  set (entry := [ ("type", JStr "uploaded_doc_summary"); ("user_id", JStr user_id);
                  ("keywords", JList (map JStr (extract_keywords h doc_text)));
                  ("suggested_specialties", JList (map JStr (elements suggested)));
                  ("raw_excerpt", JStr (slice_to 500 doc_text));
                  ("recorded_at", JFloat now) ]).
  assert (Hwf : EventShape.well_formed entry = true).
  { unfold EventShape.well_formed, entry.
    change (str_eq (dict_get_default "type" (JStr "event") _) "uploaded_doc_summary") with true.
    cbv iota. apply andb_true_iff. split.
    - change (dict_get_default "keywords" (JList []) _)
        with (JList (map JStr (extract_keywords h doc_text))).
      unfold EventShape.str_list. rewrite forallb_forall. intros v Hv.
      apply in_map_iff in Hv as (x & <- & _). reflexivity.
    - change (dict_get_default "suggested_specialties" (JList []) _)
        with (JList (map JStr (elements suggested))).
      unfold EventShape.str_list. rewrite forallb_forall. intros v Hv.
      apply in_map_iff in Hv as (x & <- & _). reflexivity. }
  exists (elements suggested), entry. split; [reflexivity|].
  split; [|split; [|split; [|split; [|split]]]].
  - rewrite get_user_memory_append_same. reflexivity.
  - apply NoDup_elements.
  - intros s. now rewrite <- list_elem_of_In, elem_of_elements.
  - apply slice_to_length.
  - exact Hwf.
  - now apply ResponderFacts.bullet_well_formed.
Qed.

End DocumentLaws.

(** ** The calendar, the logger and the command loop *)

Module DictLaws.

Lemma dict_lookup_absent k (d : list (string * json)) :
  ~ In k (map fst d) -> dict_lookup k d = None.
Proof.
  induction d as [|[k' v] d IH]; intros Hnot; [reflexivity|]. simpl.
  destruct (String.eqb_spec k' k) as [->|_].
  - exfalso. apply Hnot. now left.
  - apply IH. intros H. apply Hnot. now right.
Qed.

Lemma dict_lookup_set k k' v (d : list (string * json)) :
  dict_lookup k (dict_set k' v d)
  = if String.eqb k' k then Some v else dict_lookup k d.
Proof.
  induction d as [|[k0 v0] d IH]; simpl.
  - reflexivity.
  - destruct (String.eqb_spec k0 k') as [->|Hne]; simpl.
    + destruct (String.eqb k' k); reflexivity.
    + rewrite IH. destruct (String.eqb_spec k0 k) as [->|_]; [|reflexivity].
      destruct (String.eqb_spec k' k); [congruence|reflexivity].
Qed.

(** Reading [{**base, **extra}]: the value of [extra] when it has the key,
    that of [base] otherwise. *)
Lemma dict_lookup_merge k (extra : list (string * json)) : forall base,
  List.NoDup (map fst extra) ->
  dict_lookup k (dict_merge base extra)
  = match dict_lookup k extra with
    | Some v => Some v
    | None => dict_lookup k base
    end.
Proof.
  unfold dict_merge.
  induction extra as [|[k1 v1] extra IH]; intros base Hnd; [reflexivity|].
  inversion Hnd as [|? ? Hnotin Hnd']; subst. cbn [fold_left fst snd].
  rewrite IH by exact Hnd'. rewrite dict_lookup_set. simpl.
  destruct (String.eqb_spec k1 k) as [->|_]; [|reflexivity].
  now rewrite dict_lookup_absent.
Qed.

End DictLaws.

Module CalendarLaws.

Import ConvoAgent CalendarAgent DictLaws.

Lemma events_of_cons u u' evs s :
  events_of u ((u', evs) :: s) = if String.eqb u' u then evs else events_of u s.
Proof. unfold events_of. simpl. destruct (String.eqb u' u); reflexivity. Qed.

Lemma setdefault_empty_events u u' s :
  events_of u' (setdefault_empty u s) = events_of u' s.
Proof.
  induction s as [|[k evs] s IH]; simpl.
  - rewrite events_of_cons. destruct (String.eqb u u'); reflexivity.
  - destruct (String.eqb_spec k u) as [->|Hne]; [reflexivity|].
    rewrite !events_of_cons, IH. reflexivity.
Qed.

Lemma setdefault_empty_key u s : In u (map fst (setdefault_empty u s)).
Proof.
  induction s as [|[k evs] s IH]; simpl; [now left|].
  destruct (String.eqb_spec k u) as [->|Hne]; simpl; auto.
Qed.

Lemma append_for_keys u ev s : map fst (append_for u ev s) = map fst s.
Proof.
  induction s as [|[k evs] s IH]; [reflexivity|]. simpl.
  destruct (String.eqb k u); simpl; [reflexivity|now rewrite IH].
Qed.

Lemma append_for_events u u' ev s :
  In u (map fst s) ->
  events_of u' (append_for u ev s)
  = if String.eqb u u' then (events_of u' s ++ [ev])%list else events_of u' s.
Proof.
  induction s as [|[k evs] s IH]; simpl; [intros []|]. intros Hin.
  destruct (String.eqb_spec k u) as [->|Hne].
  - rewrite !events_of_cons. destruct (String.eqb u u'); reflexivity.
  - rewrite !events_of_cons. destruct Hin as [E|Hin]; [congruence|].
    rewrite IH by exact Hin.
    destruct (String.eqb_spec k u') as [->|_]; [|reflexivity].
    destruct (String.eqb_spec u u'); [congruence|reflexivity].
Qed.

(** The loop, as far as it runs without an exception. *)
Lemma schedule_loop_ok h u meds : forall s evs,
  In u (map fst s) ->
  mapM (scheduled_event h u) meds = Ok evs ->
  exists s',
    schedule_loop h u meds s = (Ok tt, s')
    /\ In u (map fst s')
    /\ forall u', events_of u' s'
                  = if String.eqb u u' then (events_of u' s ++ evs)%list else events_of u' s.
Proof.
  induction meds as [|m meds IH]; intros s evs Hkey H; simpl in H.
  - injection H as <-. exists s. split; [reflexivity|]. split; [exact Hkey|].
    intros u'. rewrite app_nil_r. destruct (String.eqb u u'); reflexivity.
  - destruct (scheduled_event h u m) as [ev|e] eqn:Em; simpl in H; [|discriminate].
    destruct (mapM (scheduled_event h u) meds) as [evs'|e] eqn:Hm; simpl in H; [|discriminate].
    injection H as <-.
    destruct (IH (append_for u ev s) evs') as (s' & Hs' & Hkey' & Hev); [|reflexivity|].
    { now rewrite append_for_keys. }
    exists s'. cbn [schedule_loop]. rewrite Em. split; [exact Hs'|]. split; [exact Hkey'|].
    intros u'. rewrite Hev, append_for_events by exact Hkey.
    destruct (String.eqb u u'); [now rewrite <- app_assoc|reflexivity].
Qed.

Lemma scheduled_event_ok h u m :
  dict_has "name" m = true -> dict_has "time" m = true ->
  exists ev,
    scheduled_event h u m = Ok ev
    /\ ev = [ ("id", JStr (u ++ "-" ++ py_str h (dict_get "name" m) ++ "-"
                           ++ py_str h (dict_get "time" m)));
              ("med", dict_get "name" m);
              ("dose", dict_get "dose" m);
              ("time", dict_get "time" m) ].
Proof.
  unfold dict_has, scheduled_event, dict_item, dict_get, dict_get_default, bind.
  destruct (dict_lookup "name" m); [|discriminate].
  destruct (dict_lookup "time" m); [|discriminate].
  intros _ _. eexists. split; reflexivity.
Qed.

(** X23.  When every medication has a [name] and a [time],
    [schedule_user_meds] ends normally, writes the file, and has added one
    event per medication, in order, at the end of the user's list; the
    events carry the name under [med] and the time and dose of the
    medication, and the lists of the other users are unchanged. *)
Theorem schedule_user_meds_ok (h : host) (self : t) (user_id : string)
    (meds : list event) :
  Forall (fun m => dict_has "name" m = true /\ dict_has "time" m = true) meds ->
  exists evs s',
    schedule_user_meds h self user_id meds = (Ok tt, {| store := s'; saved := s' |})
    /\ events_of user_id s' = (events_of user_id (store self) ++ evs)%list
    /\ (forall other, other <> user_id -> events_of other s' = events_of other (store self))
    /\ Forall2 (fun m ev =>
                  dict_get "med" ev = dict_get "name" m
                  /\ dict_get "time" ev = dict_get "time" m
                  /\ dict_get "dose" ev = dict_get "dose" m
                  /\ map fst ev = ["id"; "med"; "dose"; "time"]) meds evs.
Proof.
  intros Hmeds.
  assert (Hevs : exists evs,
             mapM (scheduled_event h user_id) meds = Ok evs
             /\ Forall2 (fun m ev =>
                           dict_get "med" ev = dict_get "name" m
                           /\ dict_get "time" ev = dict_get "time" m
                           /\ dict_get "dose" ev = dict_get "dose" m
                           /\ map fst ev = ["id"; "med"; "dose"; "time"]) meds evs).
  { induction Hmeds as [|m meds [Hn Ht] _ (evs & Hm & Hall)].
    - exists []. split; [reflexivity|constructor].
    - destruct (scheduled_event_ok h user_id m Hn Ht) as (ev & Hev & ->).
      eexists (_ :: evs). simpl. rewrite Hev, Hm. split; [reflexivity|].
      constructor; [|exact Hall]. repeat split. }
  destruct Hevs as (evs & Hm & Hshape).
  destruct (schedule_loop_ok h user_id meds (setdefault_empty user_id (store self)) evs
              (setdefault_empty_key _ _) Hm) as (s' & Hloop & _ & Hev).
  exists evs, s'. unfold schedule_user_meds. rewrite Hloop.
  split; [reflexivity|]. split; [|split; [|exact Hshape]].
  - rewrite Hev, String.eqb_refl, setdefault_empty_events. reflexivity.
  - intros other Hne. rewrite Hev, setdefault_empty_events.
    destruct (String.eqb_spec user_id other); [congruence|reflexivity].
Qed.

Lemma schedule_user_meds_ok_witness :
  exists evs s',
    schedule_user_meds (Sample.sample_host PostRaises []) {| store := []; saved := [] |} "user-1"
      [ [("name", JStr "Atorvastatin"); ("dose", JStr "10mg"); ("time", JStr "08:00")] ]
    = (Ok tt, {| store := s'; saved := s' |})
    /\ events_of "user-1" s' = (events_of "user-1" [] ++ evs)%list
    /\ (forall other, other <> "user-1" -> events_of other s' = events_of other [])
    /\ Forall2 (fun m ev =>
                  dict_get "med" ev = dict_get "name" m
                  /\ dict_get "time" ev = dict_get "time" m
                  /\ dict_get "dose" ev = dict_get "dose" m
                  /\ map fst ev = ["id"; "med"; "dose"; "time"])
         [ [("name", JStr "Atorvastatin"); ("dose", JStr "10mg"); ("time", JStr "08:00")] ]
         evs.
Proof.
  apply (schedule_user_meds_ok (Sample.sample_host PostRaises [])
           {| store := []; saved := [] |} "user-1"
           [ [("name", JStr "Atorvastatin"); ("dose", JStr "10mg"); ("time", JStr "08:00")] ]).
  repeat constructor.
Defined.

(** X24.  A medication without [name] or without [time], which
    [medcheck] accepts, makes [schedule_user_meds] raise [KeyError]: the
    medications before it are already in the store in memory, those after
    it are not, and the file is not rewritten. *)
Theorem schedule_user_meds_missing_key (h : host) (self : t) (user_id : string)
    (before after : list event) (m : event) :
  Forall (fun m => dict_has "name" m = true /\ dict_has "time" m = true) before ->
  dict_has "name" m = false \/ dict_has "time" m = false ->
  exists evs s',
    schedule_user_meds h self user_id (before ++ m :: after)%list
    = (Raise KeyError, {| store := s'; saved := saved self |})
    /\ mapM (scheduled_event h user_id) before = Ok evs
    /\ events_of user_id s' = (events_of user_id (store self) ++ evs)%list.
Proof.
  intros Hbefore Hm.
  assert (Hraise : scheduled_event h user_id m = Raise KeyError).
  { unfold scheduled_event, dict_item, bind, dict_has in *.
    destruct (dict_lookup "name" m); [|reflexivity].
    destruct (dict_lookup "time" m); [|reflexivity].
    destruct Hm; discriminate. }
  assert (Hloop : forall s evs,
             In user_id (map fst s) ->
             mapM (scheduled_event h user_id) before = Ok evs ->
             exists s',
               schedule_loop h user_id (before ++ m :: after)%list s = (Raise KeyError, s')
               /\ events_of user_id s' = (events_of user_id s ++ evs)%list).
  { clear Hbefore. induction before as [|b before IH]; intros s evs Hkey H; simpl in H.
    - injection H as <-. exists s. cbn [app schedule_loop]. rewrite Hraise.
      split; [reflexivity|now rewrite app_nil_r].
    - destruct (scheduled_event h user_id b) as [ev|e] eqn:Eb; simpl in H; [|discriminate].
      destruct (mapM (scheduled_event h user_id) before) as [evs'|e] eqn:Hb;
        simpl in H; [|discriminate].
      injection H as <-.
      destruct (IH (append_for user_id ev s) evs') as (s' & Hs' & Hev); [|reflexivity|].
      { now rewrite append_for_keys. }
      exists s'. cbn [app schedule_loop]. rewrite Eb. split; [exact Hs'|].
      rewrite Hev, append_for_events, String.eqb_refl by exact Hkey.
      now rewrite <- app_assoc. }
  destruct (ResponderFacts.mapM_all_ok (scheduled_event h user_id) before) as [evs Hevs].
  { eapply Forall_impl; [exact Hbefore|]. intros x [Hn Ht].
    destruct (scheduled_event_ok h user_id x Hn Ht) as (ev & Hev & _). now exists ev. }
  destruct (Hloop (setdefault_empty user_id (store self)) evs
              (setdefault_empty_key _ _) Hevs) as (s' & Hs' & Hev).
  exists evs, s'. unfold schedule_user_meds. rewrite Hs'.
  split; [reflexivity|]. split; [exact Hevs|].
  now rewrite Hev, setdefault_empty_events.
Qed.

Lemma schedule_user_meds_missing_key_witness :
  exists evs s',
    schedule_user_meds (Sample.sample_host PostRaises []) {| store := []; saved := [] |} "user-1"
      ([ [("name", JStr "Atorvastatin"); ("time", JStr "08:00")] ]
       ++ [("name", JStr "Metformin")] :: [])%list
    = (Raise KeyError, {| store := s'; saved := [] |})
    /\ mapM (scheduled_event (Sample.sample_host PostRaises []) "user-1")
         [ [("name", JStr "Atorvastatin"); ("time", JStr "08:00")] ] = Ok evs
    /\ events_of "user-1" s' = (events_of "user-1" [] ++ evs)%list.
Proof.
  apply (schedule_user_meds_missing_key (Sample.sample_host PostRaises [])
           {| store := []; saved := [] |} "user-1"
           [ [("name", JStr "Atorvastatin"); ("time", JStr "08:00")] ] []
           [("name", JStr "Metformin")]).
  - repeat constructor.
  - right. reflexivity.
Defined.

End CalendarLaws.

Module DueLaws.

Import ConvoAgent CalendarAgent DictLaws CalendarLaws.

Lemma events_of_In u s e :
  In e (events_of u s) -> exists evs, In (u, evs) s /\ In e evs.
Proof.
  induction s as [|[k evs] s IH]; [intros []|].
  rewrite events_of_cons. destruct (String.eqb_spec k u) as [->|_].
  - intros H. exists evs. split; [now left|exact H].
  - intros H. destruct (IH H) as (evs' & Hin & He). exists evs'. split; [now right|exact He].
Qed.

Lemma due_event_In self uid u evs e :
  In (u, evs) (store self) -> In e evs ->
  In (dict_merge [("user_id", JStr u)] e) (get_due_events self uid true).
Proof.
  intros Hu He. unfold get_due_events. apply in_flat_map.
  exists (u, evs). split; [exact Hu|]. cbn [fst snd]. now apply in_map.
Qed.

(** X25.  [get_due_events] does not use its [user_id] argument: with
    [simulate_now] it returns one event for every event of every user, the
    stored event with the owner under [user_id] (an event that has a
    [user_id] of its own keeps it); without [simulate_now] it returns
    nothing. *)
Theorem get_due_events_all_users (self : t) (uid : option string) :
  get_due_events self uid false = []
  /\ length (get_due_events self uid true) = length (all_events (store self))
  /\ (forall u evs e,
        In (u, evs) (store self) -> In e evs ->
        In (dict_merge [("user_id", JStr u)] e) (get_due_events self uid true))
  /\ (forall u e,
        List.NoDup (map fst e) ->
        dict_lookup "user_id" (dict_merge [("user_id", JStr u)] e)
        = Some (match dict_lookup "user_id" e with Some v => v | None => JStr u end)
        /\ forall k, k <> "user_id" ->
             dict_lookup k (dict_merge [("user_id", JStr u)] e) = dict_lookup k e).
Proof.
  split; [reflexivity|]. split; [|split].
  - unfold get_due_events, all_events.
    induction (store self) as [|[u evs] s IH]; [reflexivity|].
    cbn [flat_map fst snd]. rewrite !length_app, length_map. f_equal. exact IH.
  - intros u evs e. apply due_event_In.
  - intros u e Hnd. split.
    + rewrite dict_lookup_merge by exact Hnd.
      destruct (dict_lookup "user_id" e); reflexivity.
    + intros k Hk. rewrite dict_lookup_merge by exact Hnd.
      destruct (dict_lookup k e); [reflexivity|].
      unfold dict_lookup. destruct (String.eqb_spec "user_id" k); [congruence|reflexivity].
Qed.

(** X26.  Scheduling and then asking for the due events: for every
    medication that was scheduled there is a due event with the user under
    [user_id], the name under [med] and the time under [time], whichever
    user the request names. *)
Theorem schedule_then_due (h : host) (self : t) (user_id : string) (meds : list event)
    (uid : option string) :
  Forall (fun m => dict_has "name" m = true /\ dict_has "time" m = true) meds ->
  fst (schedule_user_meds h self user_id meds) = Ok tt
  /\ forall m, In m meds ->
       exists due,
         In due (get_due_events (snd (schedule_user_meds h self user_id meds)) uid true)
         /\ dict_get "user_id" due = JStr user_id
         /\ dict_get "med" due = dict_get "name" m
         /\ dict_get "time" due = dict_get "time" m.
Proof.
  intros Hmeds.
  assert (Hevs : exists evs,
             mapM (scheduled_event h user_id) meds = Ok evs
             /\ Forall2 (fun m ev =>
                           scheduled_event h user_id m = Ok ev) meds evs).
  { destruct (ResponderFacts.mapM_all_ok (scheduled_event h user_id) meds) as [evs Hevs].
    - eapply Forall_impl; [exact Hmeds|]. intros x [Hn Ht].
      destruct (scheduled_event_ok h user_id x Hn Ht) as (ev & Hev & _). now exists ev.
    - exists evs. split; [exact Hevs|]. now apply ResponderFacts.mapM_Forall2. }
  destruct Hevs as (evs & Hm & Hall).
  destruct (schedule_loop_ok h user_id meds (setdefault_empty user_id (store self)) evs
              (setdefault_empty_key _ _) Hm) as (s' & Hloop & _ & Hev).
  unfold schedule_user_meds. rewrite Hloop. cbn [fst snd]. split; [reflexivity|].
  intros m Hin.
  assert (Hex : exists ev, In ev evs /\ scheduled_event h user_id m = Ok ev).
  { clear - Hall Hin. induction Hall as [|x y l l' Hxy _ IH]; [destruct Hin|].
    destruct Hin as [->|Hin].
    - exists y. split; [now left|exact Hxy].
    - destruct (IH Hin) as (ev & He & Hs). exists ev. split; [now right|exact Hs]. }
  destruct Hex as (ev & Hevin & Hsched).
  rewrite List.Forall_forall in Hmeds. destruct (Hmeds m Hin) as [Hn Ht].
  destruct (scheduled_event_ok h user_id m Hn Ht) as (ev' & Hev' & Hshape).
  rewrite Hsched in Hev'. injection Hev' as <-.
  assert (Hstored : In ev (events_of user_id s')).
  { rewrite Hev, String.eqb_refl. apply in_app_iff. now right. }
  apply events_of_In in Hstored as (l & Hl & Hel).
  exists (dict_merge [("user_id", JStr user_id)] ev).
  split; [now apply (due_event_In {| store := s'; saved := s' |} uid user_id l)|].
  rewrite Hshape. repeat split.
Qed.

Lemma schedule_then_due_witness :
  fst (schedule_user_meds (Sample.sample_host PostRaises []) {| store := []; saved := [] |}
         "user-1" [ [("name", JStr "Metformin"); ("time", JStr "08:00")] ]) = Ok tt.
Proof.
  refine (proj1 (schedule_then_due (Sample.sample_host PostRaises [])
                   {| store := []; saved := [] |} "user-1"
                   [ [("name", JStr "Metformin"); ("time", JStr "08:00")] ] None _)).
  repeat constructor.
Defined.

End DueLaws.

Module LoggerLaws.

Import ConvoAgent JSONLogger DictLaws.

Lemma dict_set_keys k v (d : list (string * json)) :
  exists tail, map fst (dict_set k v d) = (map fst d ++ tail)%list.
Proof.
  induction d as [|[k' v'] d (tail & IH)]; simpl.
  - now exists [k].
  - destruct (String.eqb k' k); simpl.
    + exists []. now rewrite app_nil_r.
    + exists tail. now rewrite IH.
Qed.

Lemma dict_merge_keys (extra : list (string * json)) : forall base,
  exists tail, map fst (dict_merge base extra) = (map fst base ++ tail)%list.
Proof.
  unfold dict_merge. induction extra as [|[k v] extra IH]; intros base; cbn [fold_left].
  - exists []. now rewrite app_nil_r.
  - destruct (IH (dict_set k v base)) as (tail & Ht).
    destruct (dict_set_keys k v base) as (tail' & Ht').
    exists (tail' ++ tail)%list. cbn [fst snd]. now rewrite Ht, Ht', app_assoc.
Qed.

(** [info] adds exactly one line at the end of the log and keeps the
    lines before it.  The object of the line starts with [level] and [ts],
    and every key of the logged object reads as the object gives it: an
    object with a [level] or a [ts] key of its own replaces the logger's
    values. *)
Theorem info_line (h : host) (self : t) (obj : event) (now : float) :
  List.NoDup (map fst obj) ->
  lines (info h self obj now)
  = (lines self ++ [json_dumps h (JDict (log_object "info" now obj))])%list
  /\ (exists rest, map fst (log_object "info" now obj) = "level" :: "ts" :: rest)
  /\ (forall k,
        dict_lookup k (log_object "info" now obj)
        = match dict_lookup k obj with
          | Some v => Some v
          | None => dict_lookup k [("level", JStr "info"); ("ts", JFloat now)]
          end).
Proof.
  intros Hnd. split; [reflexivity|]. split.
  - unfold log_object.
    destruct (dict_merge_keys obj [("level", JStr "info"); ("ts", JFloat now)]) as (tail & Ht).
    exists tail. exact Ht.
  - intros k. unfold log_object. now apply dict_lookup_merge.
Qed.

Lemma info_line_witness :
  dict_lookup "level"
    (log_object "info" float_zero [("event", JStr "x"); ("level", JStr "debug")])
  = Some (JStr "debug").
Proof.
  refine (proj2 (proj2 (info_line (Sample.sample_host PostRaises [])
                          {| filepath := "logs/logs.jsonl"; lines := [] |}
                          [("event", JStr "x"); ("level", JStr "debug")] float_zero _))
            "level").
  repeat constructor; simpl; intuition discriminate.
Defined.

End LoggerLaws.

Module CliLaws.

Import PyStr PyStrFacts CliChat.

Lemma prefix_doc low : String.prefix "doctor" low = true -> String.prefix "doc" low = true.
Proof.
  intros H. apply prefix_split in H as [rest ->].
  change ("doctor" ++ rest) with ("doc" ++ ("tor" ++ rest)). apply prefix_append.
Qed.

Lemma prefix_not_test low :
  String.prefix "doctor" low = true ->
  String.prefix "test reminder" low || String.prefix "test" low = false.
Proof. intros H. apply prefix_split in H as [rest ->]. reflexivity. Qed.

(** A line that contains ["remind"], in any letter case, starts the
    reminder flow. *)
Lemma route_remind (line : string) :
  contains "remind" (lower (strip line)) = true -> route line = Reminder.
Proof.
  intros H. unfold route.
  destruct (String.eqb_spec (strip line) "") as [E|_].
  - rewrite E in H. discriminate.
  - destruct (existsb _ _) eqn:Equit.
    + apply existsb_exists in Equit as (x & Hx & E). apply String.eqb_eq in E.
      rewrite E in H. destruct Hx as [<-|[<-|[]]]; discriminate.
    + now rewrite H.
Qed.

(** X27.  The order of the tests decides the routing.  No line of input
    reaches the doctor flow: a line that starts with ["doctor"] starts with
    ["doc"] and goes to the document upload, or to the reminder flow when
    it contains ["remind"].  A line that contains ["remind"], in any letter
    case, starts the reminder flow whatever else it says, so
    ["test reminder"] never reaches the test branch. *)
Theorem route_never_doctor (line : string) :
  route line <> DoctorAdvice
  /\ (contains "remind" (lower (strip line)) = true -> route line = Reminder)
  /\ (String.prefix "test reminder" (lower (strip line)) = true -> route line = Reminder)
  /\ (String.prefix "doctor" (lower (strip line)) = true ->
      route line = if contains "remind" (lower (strip line)) then Reminder else DocUpload).
Proof.
  split; [|split; [apply route_remind|split]].
  - unfold route.
    destruct (String.eqb (strip line) ""); [discriminate|].
    destruct (existsb _ _); [discriminate|].
    destruct (contains "remind" _); [discriminate|].
    destruct (_ || _); [discriminate|].
    destruct (String.prefix "doc" _) eqn:Edoc; [discriminate|].
    destruct (String.prefix "doctor" _) eqn:Edoctor; [|discriminate].
    apply prefix_doc in Edoctor. congruence.
  - intros H. apply route_remind.
    apply prefix_split in H as [rest ->].
    change ("test reminder" ++ rest) with ("test " ++ "remind" ++ ("er" ++ rest)).
    apply contains_append.
  - intros H. destruct (contains "remind" _) eqn:Erem; [now apply route_remind|].
    unfold route.
    destruct (String.eqb_spec (strip line) "") as [E|_].
    { rewrite E in H. discriminate. }
    destruct (existsb _ _) eqn:Equit.
    { apply existsb_exists in Equit as (x & Hx & E). apply String.eqb_eq in E.
      rewrite E in H. destruct Hx as [<-|[<-|[]]]; discriminate. }
    rewrite Erem, (prefix_not_test _ H), (prefix_doc _ H). reflexivity.
Qed.

End CliLaws.

(** ** The keyword extractor *)

Module DocsLaws.

Import PyStr PyStrFacts DocsProcessor.

Lemma filter_sublist_of {A} (f : A -> bool) (l : list A) : sublist (List.filter f l) l.
Proof.
  induction l as [|x l IH]; simpl; [constructor|]. destruct (f x); now constructor.
Qed.

Lemma py_take_sublist {A} (n : Z) (l : list A) : sublist (py_take n l) l.
Proof. unfold py_take. destruct (0 <=? n)%Z; apply sublist_take. Qed.

Lemma keywords_in_order_sublist order top_k :
  sublist (keywords_in_order order top_k) order.
Proof.
  unfold keywords_in_order. etransitivity; [apply py_take_sublist|].
  destruct (List.filter is_medical order) eqn:E; [reflexivity|].
  rewrite <- E. apply filter_sublist_of.
Qed.

Lemma ngrams_of_In n toks g :
  (1 <= n)%nat ->
  In g (ngrams_of n toks)
  <-> exists i, (i + n <= length toks)%nat /\ g = join " " (take n (drop i toks)).
Proof.
  intros Hn. unfold ngrams_of. rewrite in_map_iff. split.
  - intros (i & <- & Hi). apply in_seq in Hi. exists i. split; [lia|reflexivity].
  - intros (i & Hi & ->). exists i. split; [reflexivity|]. apply in_seq. lia.
Qed.

(** The members of the n-gram set are the strings made of 1, 2 or 3
    consecutive tokens joined by single spaces. *)
Theorem ngrams_members (text g : string) :
  g ∈ ngrams text
  <-> exists n i,
        (1 <= n <= 3)%nat /\ (i + n <= length (tokens text))%nat
        /\ g = join " " (take n (drop i (tokens text))).
Proof.
  unfold ngrams. rewrite elem_of_list_to_set, list_elem_of_In, !in_app_iff.
  rewrite !ngrams_of_In by lia. split.
  - intros [(i & Hi & ->)|[(i & Hi & ->)|(i & Hi & ->)]].
    + exists 1%nat, i. split; [lia|auto].
    + exists 2%nat, i. split; [lia|auto].
    + exists 3%nat, i. split; [lia|auto].
  - intros (n & i & Hn & Hi & ->).
    assert (Hcases : n = 1%nat \/ n = 2%nat \/ n = 3%nat) by lia.
    destruct Hcases as [->|[->| ->]]; [left|right; left|right; right]; exists i; auto.
Qed.

(** X28.  Whatever the order in which the set is iterated, the result of
    [extract_keywords] has no duplicate, holds n-grams of the text only, is
    not longer than a non-negative [top_k], holds medical-sounding n-grams
    only as soon as the text has one, and is empty when the text has no
    word longer than 2 characters. *)
Theorem extract_keywords_result (text : string) (top_k : Z) (result : list string) :
  extract_keywords_returns text top_k result ->
  NoDup result
  /\ (forall g, In g result -> g ∈ ngrams text)
  /\ ((0 <= top_k)%Z -> (length result <= Z.to_nat top_k)%nat)
  /\ ((exists g, g ∈ ngrams text /\ is_medical g = true) ->
      Forall (fun g => is_medical g = true) result)
  /\ (tokens text = [] -> result = []).
Proof.
  intros (order & Hperm & ->).
  pose proof (keywords_in_order_sublist order top_k) as Hsub.
  assert (Hnd : NoDup order) by (rewrite Hperm; apply NoDup_elements).
  split; [now apply (sublist_NoDup _ order)|]. split; [|split; [|split]].
  - intros g Hg. apply list_elem_of_In in Hg.
    apply (elem_of_sublist _ _ _ Hg) in Hsub.
    rewrite Hperm in Hsub. now apply elem_of_elements.
  - intros Hk. unfold keywords_in_order, py_take.
    destruct (Z.leb_spec 0 top_k); [|lia]. rewrite length_take. lia.
  - intros (g & Hg & Hmed). unfold keywords_in_order.
    assert (Hin : In g (List.filter is_medical order)).
    { apply filter_In. split; [|exact Hmed].
      apply list_elem_of_In. rewrite Hperm. now apply elem_of_elements. }
    destruct (List.filter is_medical order) as [|p ps] eqn:E; [destruct Hin|].
    rewrite <- E. rewrite List.Forall_forall. intros x Hx.
    apply list_elem_of_In in Hx.
    pose proof (elem_of_sublist _ _ _ Hx (py_take_sublist top_k _)) as Hx'.
    apply list_elem_of_In, filter_In in Hx'. tauto.
  - intros Htok.
    assert (Hempty : ngrams text = ∅) by (unfold ngrams; rewrite Htok; reflexivity).
    rewrite Hempty, elements_empty in Hperm. apply Permutation_nil_r in Hperm. subst order.
    unfold keywords_in_order, py_take. cbn [List.filter].
    destruct (0 <=? top_k)%Z; apply take_nil.
Qed.

Lemma extract_keywords_result_witness :
  NoDup ["chest pain"; "pain"]
  /\ (forall g, In g ["chest pain"; "pain"] -> g ∈ ngrams "Chest PAIN!")
  /\ ((0 <= 20)%Z -> (length ["chest pain"; "pain"] <= Z.to_nat 20)%nat)
  /\ ((exists g, g ∈ ngrams "Chest PAIN!" /\ is_medical g = true) ->
      Forall (fun g => is_medical g = true) ["chest pain"; "pain"])
  /\ (tokens "Chest PAIN!" = [] -> ["chest pain"; "pain"] = []).
Proof.
  apply (extract_keywords_result "Chest PAIN!" 20 ["chest pain"; "pain"]).
  exists ["chest pain"; "chest"; "pain"]. split; [|reflexivity].
  assert (E : elements (ngrams "Chest PAIN!") = ["chest pain"; "chest"; "pain"])
    by (vm_compute; reflexivity).
  rewrite E. reflexivity.
Defined.

(** Below the cap, the result holds every candidate. *)
Lemma small_result_members text top_k result :
  (Z.of_nat (size (ngrams text)) <= top_k)%Z ->
  extract_keywords_returns text top_k result ->
  forall g,
    In g result
    <-> g ∈ ngrams text
        /\ ((exists g', g' ∈ ngrams text /\ is_medical g' = true) -> is_medical g = true).
Proof.
  intros Hcap (order & Hperm & ->) g.
  assert (Hlen : length order = size (ngrams text)) by (now rewrite Hperm).
  assert (Hmem : forall x, In x order <-> x ∈ ngrams text).
  { intros x. now rewrite <- list_elem_of_In, Hperm, elem_of_elements. }
  unfold keywords_in_order, py_take. destruct (Z.leb_spec 0 top_k); [|lia].
  destruct (List.filter is_medical order) as [|p ps] eqn:E.
  - rewrite take_ge by lia. rewrite Hmem. split; [|tauto].
    intros Hg. split; [exact Hg|]. intros (g' & Hg' & Hmed). exfalso.
    assert (Hin : In g' (List.filter is_medical order))
      by (apply filter_In; split; [now apply Hmem|exact Hmed]).
    rewrite E in Hin. destruct Hin.
  - rewrite <- E. rewrite take_ge.
    + rewrite filter_In, Hmem. split; [tauto|]. intros [Hg Himp]. split; [exact Hg|].
      apply Himp. exists p.
      assert (Hp : In p (List.filter is_medical order)) by (rewrite E; now left).
      apply filter_In in Hp as [Hp Hmed]. split; [now apply Hmem|exact Hmed].
    + pose proof (sublist_length _ _ (filter_sublist_of is_medical order)). lia.
Qed.

Lemma result_NoDup text top_k result :
  extract_keywords_returns text top_k result -> NoDup result.
Proof.
  intros (order & Hperm & ->).
  apply (sublist_NoDup _ order); [|apply keywords_in_order_sublist].
  rewrite Hperm. apply NoDup_elements.
Qed.

(** X29.  When the text has no more n-grams than [top_k], the order in
    which the set is iterated changes the order of the keywords only: two
    results hold the same keywords, and the rule-based pass of
    [handle_uploaded_document] suggests the same specialties for both. *)
Theorem extract_keywords_small_text (text : string) (top_k : Z) (r1 r2 : list string) :
  (Z.of_nat (size (ngrams text)) <= top_k)%Z ->
  extract_keywords_returns text top_k r1 ->
  extract_keywords_returns text top_k r2 ->
  Permutation r1 r2 /\ ConvoAgent.rule_based r1 = ConvoAgent.rule_based r2.
Proof.
  intros Hcap H1 H2.
  assert (Hsame : forall g, In g r1 <-> In g r2).
  { intros g. rewrite (small_result_members _ _ _ Hcap H1).
    now rewrite (small_result_members _ _ _ Hcap H2). }
  split.
  - apply NoDup_Permutation; [now apply (result_NoDup text top_k)..|].
    intros g. rewrite !list_elem_of_In. apply Hsame.
  - apply set_eq. intros s. rewrite !DocumentLaws.rule_based_elem.
    split; intros (kw & token & specs & Hkw & Hrest); exists kw, token, specs;
      (split; [now apply Hsame|exact Hrest]).
Qed.

Lemma extract_keywords_small_text_witness :
  Permutation ["chest pain"; "pain"] ["pain"; "chest pain"]
  /\ ConvoAgent.rule_based ["chest pain"; "pain"]
     = ConvoAgent.rule_based ["pain"; "chest pain"].
Proof.
  assert (E : elements (ngrams "Chest PAIN!") = ["chest pain"; "chest"; "pain"])
    by (vm_compute; reflexivity).
  apply (extract_keywords_small_text "Chest PAIN!" 20).
  - vm_compute. discriminate.
  - exists ["chest pain"; "chest"; "pain"]. split; [now rewrite E|reflexivity].
  - exists ["pain"; "chest"; "chest pain"]. split; [|reflexivity].
    rewrite E. apply Permutation_rev.
Defined.

Lemma is_token_char_lower c : is_token_char c = true -> lower_char c = c.
Proof. destruct c as [[] [] [] [] [] [] [] []]; (discriminate || reflexivity). Qed.

Lemma is_kept_clean c : is_kept (if is_kept c then c else " "%char) = true.
Proof. destruct (is_kept c) eqn:E; [exact E|reflexivity]. Qed.

Lemma clean_all_kept t : all_chars is_kept (clean t) = true.
Proof.
  unfold clean. induction t as [|c t IH]; [reflexivity|].
  simpl. now rewrite is_kept_clean, IH.
Qed.

Lemma split_ws_token_chars s : forall in_word,
  all_chars is_kept s = true ->
  Forall (fun w => all_chars is_token_char w = true) (split_ws in_word s).
Proof.
  induction s as [|c s IH]; intros in_word Hs.
  - destruct in_word; repeat constructor.
  - simpl in Hs. apply andb_true_iff in Hs as [Hc Hs]. simpl.
    destruct (is_space c) eqn:Esp.
    + destruct in_word; [constructor; [reflexivity|]|]; now apply IH.
    + specialize (IH true Hs). destruct (split_ws true s) as [|w ws].
      * repeat constructor. simpl. unfold is_token_char. now rewrite Hc, Esp.
      * inversion IH as [|? ? Hw Hws]; subst. constructor; [|exact Hws].
        simpl. unfold is_token_char at 1. now rewrite Hc, Esp, Hw.
Qed.

Lemma lower_token w : all_chars is_token_char w = true -> lower w = w.
Proof.
  unfold lower. induction w as [|c w IH]; [reflexivity|]. simpl.
  intros H. apply andb_true_iff in H as [Hc Hw].
  now rewrite (is_token_char_lower c Hc), IH.
Qed.

Lemma lower_join_tokens (l : list string) :
  Forall (fun w => all_chars is_token_char w = true) l -> lower (join " " l) = join " " l.
Proof.
  unfold join. induction 1 as [|w l Hw Hl IH]; [reflexivity|].
  destruct l as [|w' l]; [now apply lower_token|].
  change (String.concat " " (w :: w' :: l)) with (w ++ " " ++ String.concat " " (w' :: l)).
  unfold lower in *. rewrite !map_chars_append, IH.
  fold (lower w). now rewrite (lower_token w Hw).
Qed.

Lemma tokens_shape text :
  Forall (fun w => (2 < String.length w)%nat /\ all_chars is_token_char w = true)
    (tokens text).
Proof.
  unfold tokens. rewrite List.Forall_forall. intros w Hw.
  apply filter_In in Hw as [Hw Hlen]. apply Nat.ltb_lt in Hlen. split; [exact Hlen|].
  pose proof (split_ws_token_chars (clean (lower text)) false (clean_all_kept _)) as Hall.
  rewrite List.Forall_forall in Hall. now apply Hall.
Qed.

(** X30.  Every token is longer than 2 characters and made of lower-case
    letters, digits and hyphens; so every keyword returned is in lower case
    already, and the [kw.lower()] of the rule-based pass leaves it as it
    is. *)
Theorem extract_keywords_lower_case (text : string) (top_k : Z) (result : list string) :
  extract_keywords_returns text top_k result ->
  Forall (fun w => (2 < String.length w)%nat /\ all_chars is_token_char w = true)
    (tokens text)
  /\ Forall (fun g => lower g = g) result.
Proof.
  intros Hres. split; [apply tokens_shape|].
  rewrite List.Forall_forall. intros g Hg.
  destruct Hres as (order & Hperm & ->).
  apply list_elem_of_In in Hg.
  pose proof (elem_of_sublist _ _ _ Hg (keywords_in_order_sublist order top_k)) as Hin.
  rewrite Hperm in Hin. apply elem_of_elements in Hin.
  unfold ngrams in Hin. rewrite elem_of_list_to_set, list_elem_of_In, !in_app_iff in Hin.
  assert (Hgram : exists n i, g = join " " (take n (drop i (tokens text)))).
  { unfold ngrams_of in Hin. rewrite !in_map_iff in Hin.
    destruct Hin as [(i & <- & _)|[(i & <- & _)|(i & <- & _)]]; eauto. }
  destruct Hgram as (n & i & ->). apply lower_join_tokens.
  apply Forall_take, Forall_drop.
  eapply Forall_impl; [apply tokens_shape|]. intros w [_ Hw]. exact Hw.
Qed.

Lemma extract_keywords_lower_case_witness :
  Forall (fun g => lower g = g) ["chest pain"; "pain"].
Proof.
  refine (proj2 (extract_keywords_lower_case "Chest PAIN!" 20 ["chest pain"; "pain"] _)).
  exists ["chest pain"; "chest"; "pain"]. split; [|reflexivity].
  assert (E : elements (ngrams "Chest PAIN!") = ["chest pain"; "chest"; "pain"])
    by (vm_compute; reflexivity).
  now rewrite E.
Defined.

End DocsLaws.
